(** * API-Labs: request-lifecycle / normalise / render pipeline

    A shallow embedding of the browser labs of the repository (NASA image
    search, Nominatim/Overpass place search, OpenWeather forecast,
    MeaningCloud and Twinword text analytics) and the properties the
    specification states about them.

    Conventions of the embedding.
    - A JavaScript string is a [string]; one character stands for one UTF-16
      code unit (texts in the Latin-1 range).  The fixed user-facing messages
      of the labs are Russian; they are kept as literals and only their
      identity matters.
    - A JavaScript number is a [num]: NaN, the two infinities, or a finite
      value carried as a rational.  Every finite double is a rational; the
      labs only compare, subtract-and-test-the-sign, and print numbers.
    - A decoded JSON payload is a [value].  An object is the list of its own
      properties in enumeration order.
    - Code that can throw returns a [result]; an exception carries the [name]
      and [message] that the handlers inspect.
    - What the language runtime supplies (number parsing and printing,
      locale collation, date parsing and formatting) is a field of the class
      [Engine]; every theorem holds for every engine. *)

From stdpp Require Import gmap strings.
From Stdlib Require Import ZArith QArith Qround Qabs Lia Lqa List Ascii String Bool.
From Stdlib Require Import Sorted Permutation DecimalString.
Import ListNotations.
Close Scope Q_scope.
Set Warnings "-register-all".

(** ** Exceptions and fallible computations *)

Record error := mkError { err_name : string; err_message : string }.

Definition TypeError (msg : string) : error := mkError "TypeError" msg.
Definition SyntaxError (msg : string) : error := mkError "SyntaxError" msg.
Definition AbortError : error :=
  mkError "AbortError" "The user aborted a request.".
Definition PlainError (msg : string) : error := mkError "Error" msg.

Inductive result (A : Type) : Type :=
| Ok (a : A)
| Throw (e : error).
Arguments Ok {A} a.
Arguments Throw {A} e.

Definition bind {A B : Type} (r : result A) (k : A -> result B) : result B :=
  match r with
  | Ok a => k a
  | Throw e => Throw e
  end.

Notation "'let*' x ':=' r 'in' k" := (bind r (fun x => k))
  (at level 10, x pattern, r at level 100, k at level 200).

Fixpoint mapM {A B : Type} (f : A -> result B) (l : list A) : result (list B) :=
  match l with
  | [] => Ok []
  | x :: rest =>
      let* y := f x in
      let* ys := mapM f rest in
      Ok (y :: ys)
  end.

(** ** Numbers *)

Inductive num : Type :=
| NaN
| Inf (negative : bool)
| Fin (q : Q).

Definition num_of_Z (z : Z) : num := Fin (inject_Z z).
Definition num_of_nat (n : nat) : num := num_of_Z (Z.of_nat n).

Definition num_is_nan (n : num) : bool :=
  match n with NaN => true | _ => false end.

Definition num_is_finite (n : num) : bool :=
  match n with Fin _ => true | _ => false end.

(** [ToBoolean] on a number: NaN and zero are falsy. *)
Definition num_truthy (n : num) : bool :=
  match n with
  | NaN => false
  | Inf _ => true
  | Fin q => negb (Qeq_bool q 0%Q)
  end.

(** [a - b].  The difference of two finite doubles has the sign of the exact
    difference, which is all the comparators below look at. *)
Definition num_sub (a b : num) : num :=
  match a, b with
  | NaN, _ | _, NaN => NaN
  | Inf s, Inf t => if Bool.eqb s t then NaN else Inf s
  | Inf s, Fin _ => Inf s
  | Fin _, Inf t => Inf (negb t)
  | Fin x, Fin y => Fin (x - y)%Q
  end.

Definition num_mul (a b : num) : num :=
  match a, b with
  | NaN, _ | _, NaN => NaN
  | Inf s, Inf t => Inf (xorb s t)
  | Inf s, Fin y =>
      match (y ?= 0)%Q with
      | Eq => NaN
      | Lt => Inf (negb s)
      | Gt => Inf s
      end
  | Fin x, Inf t =>
      match (x ?= 0)%Q with
      | Eq => NaN
      | Lt => Inf (negb t)
      | Gt => Inf t
      end
  | Fin x, Fin y => Fin (x * y)%Q
  end.

(** Relational comparison: [a < b] and [a <= b]; false when NaN is involved. *)
Definition num_ltb (a b : num) : bool :=
  match a, b with
  | NaN, _ | _, NaN => false
  | Inf s, Inf t => s && negb t
  | Inf s, Fin _ => s
  | Fin _, Inf t => negb t
  | Fin x, Fin y => match (x ?= y)%Q with Lt => true | _ => false end
  end.

Definition num_leb (a b : num) : bool :=
  match a, b with
  | NaN, _ | _, NaN => false
  | Inf s, Inf t => s || negb t
  | Inf s, Fin _ => s
  | Fin _, Inf t => negb t
  | Fin x, Fin y => Qle_bool x y
  end.

(** [a === b] on numbers. *)
Definition num_eqb (a b : num) : bool :=
  match a, b with
  | Inf s, Inf t => Bool.eqb s t
  | Fin x, Fin y => Qeq_bool x y
  | _, _ => false
  end.

(** The sign a sort comparator's result is read for: NaN counts as zero. *)
Definition num_sign (n : num) : comparison :=
  match n with
  | NaN => Eq
  | Inf true => Lt
  | Inf false => Gt
  | Fin q => (q ?= 0)%Q
  end.

(** [new Date(t)] keeps an integral time value within 8.64e15 ms. *)
Definition TimeClip (t : num) : num :=
  match t with
  | Fin q =>
      if Qle_bool (Qabs q) (inject_Z 8640000000000000)
      then Fin (inject_Z (Z.quot (Qnum q) (Z.pos (Qden q))))
      else NaN
  | _ => NaN
  end.

(** ** Strings *)

Definition str_is_empty (s : string) : bool :=
  match s with EmptyString => true | _ => false end.

(** White space and line terminators among the code units below 256. *)
Definition is_js_space (c : ascii) : bool :=
  match nat_of_ascii c with
  | 9 | 10 | 11 | 12 | 13 | 32 | 160 => true
  | _ => false
  end.

Fixpoint trimStart (s : string) : string :=
  match s with
  | String c rest => if is_js_space c then trimStart rest else s
  | EmptyString => EmptyString
  end.

Fixpoint trimEnd (s : string) : string :=
  match s with
  | String c rest =>
      let rest' := trimEnd rest in
      if is_js_space c && str_is_empty rest' then EmptyString
      else String c rest'
  | EmptyString => EmptyString
  end.

Definition trim (s : string) : string := trimEnd (trimStart s).

(** [s.slice(start, end)]: negative indices count from the end. *)
Definition slice (s : string) (start stop : Z) : string :=
  let len := Z.of_nat (String.length s) in
  let from := if (start <? 0)%Z then Z.max (len + start) 0 else Z.min start len in
  let to := if (stop <? 0)%Z then Z.max (len + stop) 0 else Z.min stop len in
  String.substring (Z.to_nat from) (Z.to_nat (Z.max (to - from) 0)) s.

Definition Z_to_string (z : Z) : string :=
  NilEmpty.string_of_int (Z.to_int z).

Definition nat_to_string (n : nat) : string :=
  NilEmpty.string_of_uint (Nat.to_uint n).

Definition digit_of (c : ascii) : option Z :=
  let n := nat_of_ascii c in
  if (48 <=? n) && (n <=? 57) then Some (Z.of_nat (n - 48)) else None.

Fixpoint digits_prefix (s : string) (acc : option Z) : option Z :=
  match s with
  | String c rest =>
      match digit_of c with
      | Some d => digits_prefix rest (Some (10 * default 0%Z acc + d)%Z)
      | None => acc
      end
  | EmptyString => acc
  end.

(** [parseInt(s, 10)]: leading white space, a sign, then the longest run of
    decimal digits; [None] is NaN. *)
Definition parseInt (s : string) : option Z :=
  match trimStart s with
  | String "-" rest => option_map Z.opp (digits_prefix rest None)
  | String "+" rest => digits_prefix rest None
  | other => digits_prefix other None
  end.

Fixpoint join (sep : string) (l : list string) : string :=
  match l with
  | [] => EmptyString
  | [x] => x
  | x :: rest => x +:+ sep +:+ join sep rest
  end.

Definition concat_strings (l : list string) : string :=
  fold_right String.append EmptyString l.

(** ** Values *)

Inductive value : Type :=
| VUndef
| VNull
| VBool (b : bool)
| VNum (n : num)
| VStr (s : string)
| VArr (items : list value)
| VObj (props : list (string * value)).

Fixpoint assoc {A : Type} (k : string) (l : list (string * A)) : option A :=
  match l with
  | [] => None
  | (k', v) :: rest => if String.eqb k k' then Some v else assoc k rest
  end.

(** [ToBoolean]. *)
Definition truthy (v : value) : bool :=
  match v with
  | VUndef | VNull => false
  | VBool b => b
  | VNum n => num_truthy n
  | VStr s => negb (str_is_empty s)
  | VArr _ | VObj _ => true
  end.

(** [a || b] and [a ?? b]. *)
Definition or_else (a b : value) : value := if truthy a then a else b.

Definition nullish (v : value) : bool :=
  match v with VUndef | VNull => true | _ => false end.

Definition coalesce (a b : value) : value := if nullish a then b else a.

Definition isArray (v : value) : bool :=
  match v with VArr _ => true | _ => false end.

(** [v === "s"]. *)
Definition is_str (v : value) (s : string) : bool :=
  match v with VStr t => String.eqb t s | _ => false end.

(** [v.k] for the property names the labs read from payloads.  Reading a
    property of [undefined] or [null] throws; a missing property reads as
    [undefined]; strings and arrays have a [length]. *)
Definition get (v : value) (k : string) : result value :=
  match v with
  | VUndef => Throw (TypeError "Cannot read properties of undefined")
  | VNull => Throw (TypeError "Cannot read properties of null")
  | VObj props => Ok (default VUndef (assoc k props))
  | VArr items =>
      if String.eqb k "length" then Ok (VNum (num_of_nat (List.length items)))
      else Ok VUndef
  | VStr s =>
      if String.eqb k "length" then Ok (VNum (num_of_nat (String.length s)))
      else Ok VUndef
  | VBool _ | VNum _ => Ok VUndef
  end.

(** [v?.k]. *)
Definition get_opt (v : value) (k : string) : value :=
  match get v k with Ok x => x | Throw _ => VUndef end.

Fixpoint indexed {A : Type} (i : nat) (l : list A) : list (string * A) :=
  match l with
  | [] => []
  | x :: rest => (nat_to_string i, x) :: indexed (S i) rest
  end.

Fixpoint chars (s : string) : list value :=
  match s with
  | EmptyString => []
  | String c rest => VStr (String c EmptyString) :: chars rest
  end.

(** [Object.entries(v)] of a value that is not [undefined] or [null]. *)
Definition entries (v : value) : list (string * value) :=
  match v with
  | VObj props => props
  | VArr items => indexed 0 items
  | VStr s => indexed 0 (chars s)
  | _ => []
  end.

(** ** The language runtime *)

Class Engine : Type := {
  (** [Number(s)] on a string *)
  StringToNumber : string -> num;
  (** [String(n)] on a number *)
  NumberToString : num -> string;
  (** [a.localeCompare(b, 'ru')] *)
  localeCompare : string -> string -> num;
  (** [new Date(s).getTime()] on a string *)
  parseDate : string -> num;
  (** [d.toLocaleDateString("ru-RU", {year, month: "long", day})] *)
  toLocaleDateString : num -> string;
  (** the local [YYYY-MM-DDTHH:mm] rendering of [toInputValue] *)
  localDateTime : num -> string;
  (** [n.toFixed(digits)] *)
  toFixed : nat -> num -> string;
  (** [Number.parseFloat(s)] *)
  parseFloat : string -> num;
}.

Section Conversions.
Context {E : Engine}.

(** [String(v)], template-literal interpolation, and the conversion the
    DOM makes of what is assigned to a text property.  An array prints its
    elements joined by commas, with [undefined] and [null] printed empty; a
    plain object prints as [[object Object]].  A decoded object that carries
    a property of its own named [toString] cannot be converted: the
    property is not callable, [valueOf] returns the object itself, and the
    conversion throws a [TypeError]. *)
Fixpoint ToString (v : value) : result string :=
  match v with
  | VUndef => Ok "undefined"
  | VNull => Ok "null"
  | VBool true => Ok "true"
  | VBool false => Ok "false"
  | VNum n => Ok (NumberToString n)
  | VStr s => Ok s
  | VArr items =>
      let* parts :=
        mapM (fun x => if nullish x then Ok EmptyString else ToString x) items in
      Ok (join "," parts)
  | VObj props =>
      match assoc "toString" props with
      | Some _ => Throw (TypeError "Cannot convert object to primitive value")
      | None => Ok "[object Object]"
      end
  end.

(** [Number(v)], and the conversion the arithmetic and relational operators
    make of an operand.  Arrays and objects are converted to a string
    first, which can throw. *)
Definition ToNumber (v : value) : result num :=
  match v with
  | VUndef => Ok NaN
  | VNull => Ok (Fin 0%Q)
  | VBool true => Ok (Fin 1%Q)
  | VBool false => Ok (Fin 0%Q)
  | VNum n => Ok n
  | VStr s => Ok (StringToNumber s)
  | (VArr _ | VObj _) as o => let* s := ToString o in Ok (StringToNumber s)
  end.

(** [Number(v) || 0]. *)
Definition number_or_zero (v : value) : result num :=
  let* n := ToNumber v in
  Ok (if num_truthy n then n else Fin 0%Q).

(** [new Date(v).getTime()]: a string, or an array or object printed as
    one, is parsed as a date; another value is taken as a time value. *)
Definition dateOf (v : value) : result num :=
  match v with
  | VStr s => Ok (parseDate s)
  | (VArr _ | VObj _) as o => let* s := ToString o in Ok (parseDate s)
  | other => let* n := ToNumber other in Ok (TimeClip n)
  end.

(** The values [String] and [Number] convert: those that hold no object
    with a property of its own named [toString]. *)
Fixpoint printable (v : value) : bool :=
  match v with
  | VArr items => forallb printable items
  | VObj props =>
      match assoc "toString" props with
      | Some _ => false
      | None => true
      end
  | _ => true
  end.
End Conversions.

(** ** URL query strings *)

Definition is_url_safe (c : ascii) : bool :=
  let n := nat_of_ascii c in
  ((48 <=? n) && (n <=? 57)) || ((65 <=? n) && (n <=? 90))
  || ((97 <=? n) && (n <=? 122))
  || (n =? 42) || (n =? 45) || (n =? 46) || (n =? 95).

Definition hex_digit (n : nat) : ascii :=
  ascii_of_nat (if n <? 10 then 48 + n else 55 + n).

Definition percent_byte (n : nat) : string :=
  String "%" (String (hex_digit (n / 16)) (String (hex_digit (n mod 16)) EmptyString)).

(** [application/x-www-form-urlencoded] serialisation of a code unit: its
    UTF-8 bytes, percent-encoded unless safe, a space as [+]. *)
Definition encode_char (c : ascii) : string :=
  let n := nat_of_ascii c in
  if is_url_safe c then String c EmptyString
  else if n =? 32 then "+"
  else if n <? 128 then percent_byte n
  else percent_byte (192 + n / 64) +:+ percent_byte (128 + n mod 64).

Fixpoint urlencode (s : string) : string :=
  match s with
  | EmptyString => EmptyString
  | String c rest => encode_char c +:+ urlencode rest
  end.

(** A [URLSearchParams]: name/value pairs in order. *)
Definition URLSearchParams := list (string * string).

(** [params.set(k, v)]: overwrite the first pair named [k] and drop the
    others, or append. *)
Fixpoint params_set (k v : string) (params : URLSearchParams) : URLSearchParams :=
  match params with
  | [] => [(k, v)]
  | (k', v') :: rest =>
      if String.eqb k k'
      then (k, v) :: filter (fun kv => negb (String.eqb k (fst kv))) rest
      else (k', v') :: params_set k v rest
  end.

Definition params_toString (params : URLSearchParams) : string :=
  join "&" (map (fun kv => urlencode (fst kv) +:+ "=" +:+ urlencode (snd kv)) params).

(** ** [Array.prototype.sort]

    The language requires a stable sort; with a consistent comparator the
    result is the stable insertion of each element among those that arrived
    after it.  [after x y] means the comparator called on [(x, y)] returned
    a positive number: [x] goes behind [y]. *)
Section Sort.
Context {A : Type} (compare_fn : A -> A -> num).

Definition after (x y : A) : bool :=
  match num_sign (compare_fn x y) with Gt => true | _ => false end.

Fixpoint insert_sorted (x : A) (l : list A) : list A :=
  match l with
  | [] => [x]
  | y :: rest => if after x y then y :: insert_sorted x rest else x :: l
  end.

Fixpoint sort (l : list A) : list A :=
  match l with
  | [] => []
  | x :: rest => insert_sorted x (sort rest)
  end.
End Sort.

(** The same sort with a comparator that can throw.  Which pairs an engine
    hands to the comparator is its own choice; here they are those of the
    insertion. *)
Section SortThrowing.
Context {A : Type} (compare_fn : A -> A -> result num).

Fixpoint insert_sortedM (x : A) (l : list A) : result (list A) :=
  match l with
  | [] => Ok [x]
  | y :: rest =>
      let* c := compare_fn x y in
      match num_sign c with
      | Gt => let* rest' := insert_sortedM x rest in Ok (y :: rest')
      | _ => Ok (x :: l)
      end
  end.

Fixpoint sortM (l : list A) : result (list A) :=
  match l with
  | [] => Ok []
  | x :: rest => let* sorted := sortM rest in insert_sortedM x sorted
  end.
End SortThrowing.

(** ** The request a [fetch] call sends *)

Record request := mkRequest {
  req_method : string;
  req_url : string;
  req_headers : list (string * string);
  req_body : option string;
}.

Definition GET (url : string) : request := mkRequest "GET" url [] None.

(** * Lab 1: NASA image search (single-flight fetch with cancellation) *)

Module Nasa.

Definition API_ENDPOINT : string := "https://images-api.nasa.gov/search".
Definition MAX_RESULTS : nat := 40.

Definition MSG_NO_DESCRIPTION : string := "Описание отсутствует".
Definition MSG_NO_TITLE : string := "Без названия".
Definition MSG_ENTER_QUERY : string := "Введите поисковый запрос.".
Definition MSG_BAD_YEAR : string :=
  "Введите корректный год в диапазоне 1920–2100.".
Definition MSG_LOADING : string := "Загрузка...".
Definition MSG_NOTHING_FOUND : string :=
  "Ничего не найдено. Попробуйте изменить запрос.".
Definition MSG_FAILED : string :=
  "Не удалось получить данные. Попробуйте позже.".
Definition MSG_FOUND : string := "Найдено результатов: ".

(** One rendered [article.media-card]. *)
Record card := mkCard {
  card_preview_href : string;
  card_aria_label : string;
  card_img_src : option string;
  card_video_badge : bool;
  card_title : string;
  card_date : option string;
  card_description : string;
  card_details_href : string;
  card_details_text : string;
}.

(** A [handleSubmit] activation suspended at one of its two awaits. *)
Inductive stage := AwaitFetch | AwaitJson.

Record activation := mkActivation {
  act_signal : nat;
  act_request : request;
  act_stage : stage;
}.

(** The page: the DOM nodes the script writes, the script's
    [activeController], and what the browser tracks for it: how many
    [AbortController]s exist (a controller is its creation index), which of
    them were aborted, and the suspended activations. *)
Record page := mkPage {
  statusText : string;
  results : list card;
  yearFocused : bool;
  activeController : option nat;
  controllers : nat;
  aborted : list nat;
  inflight : list activation;
}.

Definition initial : page :=
  mkPage EmptyString [] false None 0 [] [].

Definition set_status (msg : string) (p : page) : page :=
  mkPage msg (results p) (yearFocused p) (activeController p)
         (controllers p) (aborted p) (inflight p).

Definition set_results (cards : list card) (p : page) : page :=
  mkPage (statusText p) cards (yearFocused p) (activeController p)
         (controllers p) (aborted p) (inflight p).

Definition focus_year (p : page) : page :=
  mkPage (statusText p) (results p) true (activeController p)
         (controllers p) (aborted p) (inflight p).

Definition set_inflight (l : list activation) (p : page) : page :=
  mkPage (statusText p) (results p) (yearFocused p) (activeController p)
         (controllers p) (aborted p) l.

Definition is_aborted (signal : nat) (p : page) : bool :=
  existsb (Nat.eqb signal) (aborted p).

(** [activeController.abort()] *)
Definition abort (c : nat) (p : page) : page :=
  mkPage (statusText p) (results p) (yearFocused p) (activeController p)
         (controllers p) (c :: aborted p) (inflight p).

(** [activeController = new AbortController()] *)
Definition new_controller (p : page) : page :=
  mkPage (statusText p) (results p) (yearFocused p) (Some (controllers p))
         (S (controllers p)) (aborted p) (inflight p).

(** [fetch(url, { signal })] followed by the [await]. *)
Definition fetch (url : string) (signal : nat) (p : page) : page :=
  set_inflight (inflight p ++ [mkActivation signal (GET url) AwaitFetch]) p.

Definition clearResults (p : page) : page := set_results [] p.

Definition buildQuery (query mediaType year : string) : string :=
  let params : URLSearchParams := [] in
  let params := params_set "q" query params in
  let params := params_set "page" "1" params in
  let params :=
    params_set "media_type"
      (if String.eqb mediaType "all" then "image,video" else mediaType) params in
  let params :=
    if negb (str_is_empty year)
    then params_set "year_end" year (params_set "year_start" year params)
    else params in
  API_ENDPOINT +:+ "?" +:+ params_toString params.

Definition handleError (error : error) (p : page) : page :=
  if String.eqb (err_name error) "AbortError" then p
  else set_status MSG_FAILED p.

(** The year filter of [handleSubmit]: the year to send ([Some], empty when
    the field is empty) or the rejection ([None]). *)
Definition check_year (rawYear : string) : option string :=
  if negb (str_is_empty rawYear) then
    match parseInt rawYear with
    | None => None
    | Some parsedYear =>
        if (parsedYear <? 1920)%Z || (2100 <? parsedYear)%Z then None
        else Some (Z_to_string parsedYear)
    end
  else Some EmptyString.

(** [handleSubmit], up to its first [await]. *)
Definition handleSubmit (searchValue mediaTypeValue yearValue : string)
    (p : page) : page :=
  let query := trim searchValue in
  let mediaType := mediaTypeValue in
  let rawYear := trim yearValue in
  if str_is_empty query then set_status MSG_ENTER_QUERY p
  else
    match check_year rawYear with
    | None => focus_year (set_status MSG_BAD_YEAR p)
    | Some year =>
        let p :=
          match activeController p with
          | Some c => abort c p
          | None => p
          end in
        let signal := controllers p in
        let p := new_controller p in
        let p := set_status MSG_LOADING p in
        let p := clearResults p in
        fetch (buildQuery query mediaType year) signal p
    end.

(** A submission that reaches [fetch]. *)
Definition passes_validation (searchValue yearValue : string) : bool :=
  negb (str_is_empty (trim searchValue))
  && match check_year (trim yearValue) with Some _ => true | None => false end.

Section WithEngine.
Context {E : Engine}.

Definition formatDate (rawValue : value) : result string :=
  if negb (truthy rawValue) then Ok EmptyString
  else
    let* parsed := dateOf rawValue in
    Ok (if num_is_nan parsed then EmptyString else toLocaleDateString parsed).

Definition truncate (text : value) (limit : Z) : result value :=
  if negb (truthy text) then Ok (VStr MSG_NO_DESCRIPTION)
  else
    let* len := get text "length" in
    let* n := ToNumber len in
    if num_leb n (num_of_Z limit) then Ok text
    else
      match text with
      | VStr s => Ok (VStr (trim (slice s 0 (limit - 1)) +:+ "..."))
      | VArr _ => Throw (TypeError "text.slice(...).trim is not a function")
      | _ => Throw (TypeError "text.slice is not a function")
      end.

(** [links.find((link) => link.render === "image")] *)
Fixpoint find_image_link (links : list value) : result value :=
  match links with
  | [] => Ok VUndef
  | link :: rest =>
      let* render := get link "render" in
      if is_str render "image" then Ok link else find_image_link rest
  end.

(** [createCard].  What is put into an attribute or a text of the card is
    converted to a string there. *)
Definition createCard (meta item : value) : result card :=
  let* title := get meta "title" in
  let title := or_else title (VStr MSG_NO_TITLE) in
  let* raw_description := get meta "description" in
  let* description := truncate raw_description 200 in
  let* mediaType := get meta "media_type" in
  let mediaType := or_else mediaType (VStr "image") in
  let* date_created := get meta "date_created" in
  let* date := formatDate date_created in
  let* nasaId := get meta "nasa_id" in
  let nasaId := or_else nasaId (VStr EmptyString) in
  let* item_links := get item "links" in
  let links := match item_links with VArr l => l | _ => [] end in
  let* found := find_image_link links in
  let previewLink := or_else found (hd VUndef links) in
  let* previewUrl :=
    if truthy previewLink then get previewLink "href"
    else Ok (VStr EmptyString) in
  let* detailsUrl :=
    if truthy nasaId
    then let* id := ToString nasaId in
         Ok (VStr ("https://images.nasa.gov/details-" +:+ id))
    else Ok previewUrl in
  let video := is_str mediaType "video" in
  let* preview_href :=
    ToString (if video then detailsUrl else or_else previewUrl detailsUrl) in
  let* title_text := ToString title in
  let* img_src :=
    if truthy previewUrl
    then let* src := ToString previewUrl in Ok (Some src)
    else Ok None in
  let* description_text := ToString description in
  let* details_href := ToString detailsUrl in
  Ok {|
    card_preview_href := preview_href;
    card_aria_label :=
      "Открыть " +:+ (if video then "видео" else "изображение") +:+ " "
      +:+ title_text;
    card_img_src := img_src;
    card_video_badge := video;
    card_title := title_text;
    card_date := if str_is_empty date then None else Some date;
    card_description := description_text;
    card_details_href := details_href;
    card_details_text :=
      if video then "Смотреть на сайте NASA" else "Открыть в полном размере";
  |}.

(** The cards [renderItems] builds in its fragment: items without a truthy
    first [data] entry are skipped. *)
Fixpoint build_cards (items : list value) : result (list card) :=
  match items with
  | [] => Ok []
  | item :: rest =>
      let* data := get item "data" in
      let meta := match data with VArr l => hd VUndef l | _ => VNull end in
      if negb (truthy meta) then build_cards rest
      else
        let* c := createCard meta item in
        let* cs := build_cards rest in
        Ok (c :: cs)
  end.

Definition renderItems (items : list value) (p : page) : result page :=
  let* fragment := build_cards items in
  Ok (set_results (results p ++ fragment) p).

(** The items and the total [handleSubmit] reads off a payload. *)
Definition payload_items (payload : value) : result (list value * value) :=
  let* collection :=
    if truthy payload then
      let* c := get payload "collection" in
      Ok (if truthy c then c else VNull)
    else Ok VNull in
  let* items :=
    if truthy collection then
      let* its := get collection "items" in
      Ok (match its with VArr l => l | _ => [] end)
    else Ok [] in
  let* total :=
    if truthy collection then
      let* metadata := get collection "metadata" in
      if truthy metadata then get metadata "total_hits"
      else Ok (VNum (num_of_nat (List.length items)))
    else Ok (VNum (num_of_nat (List.length items))) in
  Ok (items, total).

(** [handleSubmit] after [await response.json()], inside the [try]: the page
    it leaves and the exception it raised, if any. *)
Definition show_payload (payload : value) (p : page) : page * option error :=
  match payload_items payload with
  | Throw e => (p, Some e)
  | Ok (items, total) =>
      if Nat.eqb (List.length items) 0
      then (set_status MSG_NOTHING_FOUND p, None)
      else
        match ToString total with
        | Throw e => (p, Some e)
        | Ok shown =>
            let p := set_status (MSG_FOUND +:+ shown) p in
            match renderItems (firstn MAX_RESULTS items) p with
            | Ok p' => (p', None)
            | Throw e => (p, Some e)
            end
        end
  end.

(** [try { ... } catch (error) { handleError(error); }] *)
Definition try_catch (body : page -> page * option error) (p : page) : page :=
  match body p with
  | (p', None) => p'
  | (p', Some e) => handleError e p'
  end.

Fixpoint take_activation (signal : nat) (st : stage) (l : list activation)
    : option (activation * list activation) :=
  match l with
  | [] => None
  | a :: rest =>
      if Nat.eqb (act_signal a) signal then
        match act_stage a, st with
        | AwaitFetch, AwaitFetch | AwaitJson, AwaitJson => Some (a, rest)
        | _, _ => None
        end
      else
        match take_activation signal st rest with
        | Some (b, rest') => Some (b, a :: rest')
        | None => None
        end
  end.

(** What can happen to the page: a submission of the form with the values
    typed in, or the settling of the promise an activation waits for. *)
Inductive event :=
| Submit (searchValue mediaTypeValue yearValue : string)
| FetchResolved (signal : nat) (ok : bool) (status : Z)
| FetchRejected (signal : nat) (e : error)
| JsonResolved (signal : nat) (payload : value)
| JsonRejected (signal : nat) (e : error).

(** A promise tied to an aborted signal can only reject, with an
    [AbortError]; a promise whose signal is not aborted never rejects with
    one. *)
Definition rejection_allowed (signal : nat) (e : error) (p : page) : bool :=
  Bool.eqb (is_aborted signal p) (String.eqb (err_name e) "AbortError").

(** One turn of the event loop; [None] when the event cannot occur. *)
Definition step (p : page) (ev : event) : option page :=
  match ev with
  | Submit q m y => Some (handleSubmit q m y p)
  | FetchResolved signal ok status =>
      match take_activation signal AwaitFetch (inflight p) with
      | Some (a, rest) =>
          if is_aborted signal p then None
          else if ok then
            Some (set_inflight
                    (rest ++ [mkActivation signal (act_request a) AwaitJson]) p)
          else
            Some (handleError
                    (PlainError ("Unexpected response " +:+ Z_to_string status))
                    (set_inflight rest p))
      | None => None
      end
  | FetchRejected signal e =>
      match take_activation signal AwaitFetch (inflight p) with
      | Some (_, rest) =>
          if rejection_allowed signal e p
          then Some (handleError e (set_inflight rest p))
          else None
      | None => None
      end
  | JsonResolved signal payload =>
      match take_activation signal AwaitJson (inflight p) with
      | Some (_, rest) =>
          if is_aborted signal p then None
          else Some (try_catch (show_payload payload) (set_inflight rest p))
      | None => None
      end
  | JsonRejected signal e =>
      match take_activation signal AwaitJson (inflight p) with
      | Some (_, rest) =>
          if rejection_allowed signal e p
          then Some (handleError e (set_inflight rest p))
          else None
      | None => None
      end
  end.

Fixpoint run (p : page) (evs : list event) : option page :=
  match evs with
  | [] => Some p
  | ev :: rest =>
      match step p ev with
      | Some p' => run p' rest
      | None => None
      end
  end.

(** The requests whose promise can still fulfil. *)
Definition live (p : page) : list activation :=
  filter (fun a => negb (is_aborted (act_signal a) p)) (inflight p).

Definition is_submit (ev : event) : bool :=
  match ev with Submit _ _ _ => true | _ => false end.

Definition no_submit (evs : list event) : bool :=
  forallb (fun ev => negb (is_submit ev)) evs.

(** The result set a payload renders to: the cards of its first
    [MAX_RESULTS] items. *)
Definition payload_cards (payload : value) : result (list card) :=
  let* (items, _) := payload_items payload in
  build_cards (firstn MAX_RESULTS items).
End WithEngine.

(** The invariant of the event loop: signals are the creation indices of
    controllers, no two waiting activations share one, and a waiting
    activation that was not aborted belongs to the active controller. *)
Record inv (p : page) : Prop := mkInv {
  inv_bound : forall a, In a (inflight p) -> act_signal a < controllers p;
  inv_nodup : NoDup (map act_signal (inflight p));
  inv_active : forall a, In a (inflight p) ->
                 is_aborted (act_signal a) p = false ->
                 activeController p = Some (act_signal a);
}.
End Nasa.

(** * Lab 3: place search (Nominatim geocoding, Overpass points of interest) *)

Module Geo.

Definition MSG_NO_NAME : string := "Без названия".
Definition MSG_ENTER_ADDRESS : string := "Введите адрес или город.".
Definition MSG_GEOCODING : string := "Ищем координаты...".
Definition CATEGORY_DEFAULT : string := "Объект".

(** A normalised place, as [fetchPlaces] returns it. *)
Record place := mkPlace {
  place_id : value;
  place_type : value;
  place_lat : value;
  place_lon : value;
  place_name : value;
  place_category : string;
  place_address : string;
  place_tags : value;
}.

(** A search waiting for the geocoder: the request sent and the radius kept
    for [fetchPlaces]. *)
Record search := mkSearch {
  search_request : request;
  search_radius : num;
}.

Record page := mkPage {
  statusText : string;
  statusTone : string;
  submitDisabled : bool;
  searches : list search;
}.

Definition status (message tone : string) (p : page) : page :=
  mkPage message tone (submitDisabled p) (searches p).

Definition set_submitDisabled (b : bool) (p : page) : page :=
  mkPage (statusText p) (statusTone p) b (searches p).

Definition add_search (s : search) (p : page) : page :=
  mkPage (statusText p) (statusTone p) (submitDisabled p) (searches p ++ [s]).

(** The request [geocode] sends. *)
Definition geocode_request (searchQuery : string) : request :=
  mkRequest "GET"
    ("https://nominatim.openstreetmap.org/search?" +:+
     params_toString [("format", "json"); ("q", searchQuery); ("limit", "1");
                      ("addressdetails", "1"); ("extratags", "1")])
    [("Accept", "application/json")] None.

Section WithEngine.
Context {E : Engine}.

(** The submit listener, up to the [await] inside [geocode]. *)
Definition onSubmit (queryValue radiusValue : string) (p : page) : page :=
  let searchQuery := trim queryValue in
  let radius :=
    let n := StringToNumber radiusValue in
    if num_truthy n then n else num_of_Z 2000 in
  if str_is_empty searchQuery then status MSG_ENTER_ADDRESS "error" p
  else
    let p := set_submitDisabled true p in
    let p := status MSG_GEOCODING "info" p in
    add_search (mkSearch (geocode_request searchQuery) radius) p.

Definition inferCategory (tags : value) : result string :=
  let* tourism := get tags "tourism" in
  if truthy tourism then
    if is_str tourism "museum" then Ok "Музей"
    else if is_str tourism "art_gallery" then Ok "Художественная галерея"
    else if is_str tourism "attraction" then Ok "Достопримечательность"
    else if is_str tourism "zoo" then Ok "Зоопарк"
    else if is_str tourism "theme_park" then Ok "Парк развлечений"
    else let* shown := ToString tourism in Ok ("Tourism: " +:+ shown)
  else
    let* amenity := get tags "amenity" in
    if truthy amenity then
      if is_str amenity "theatre" then Ok "Театр"
      else if is_str amenity "arts_centre" then Ok "Центр искусств"
      else let* shown := ToString amenity in Ok ("Amenity: " +:+ shown)
    else Ok CATEGORY_DEFAULT.

Definition buildAddress (tags : value) : result string :=
  let* street := get tags "addr:street" in
  let* first :=
    if truthy street then
      let* street_text := ToString street in
      let* housenumber := get tags "addr:housenumber" in
      let* number_text :=
        if truthy housenumber
        then let* shown := ToString housenumber in Ok (", " +:+ shown)
        else Ok EmptyString in
      Ok (VStr (street_text +:+ number_text))
    else Ok (VStr EmptyString) in
  let* city := get tags "addr:city" in
  let* state := get tags "addr:state" in
  let* country := get tags "addr:country" in
  let parts := filter truthy [first; city; state; country] in
  let* texts := mapM ToString parts in
  Ok (join ", " texts).

(** The key of the [seen] set. *)
Definition make_key (name lat lon : value) : result string :=
  let* name_text := ToString name in
  let* lat_text := ToString lat in
  let* lon_text := ToString lon in
  Ok (name_text +:+ ":" +:+ lat_text +:+ ":" +:+ lon_text).

(** The callback of [data.elements.map]: the updated [seen] set and the
    place, or [None] for the [null] it returns. *)
Definition visit (seen : gset string) (element : value)
    : result (gset string * option place) :=
  let* tags := get element "tags" in
  let tags := match tags with VUndef => VObj [] | t => t end in
  let* type := get element "type" in
  let* latLng :=
    if is_str type "node" then
      let* lat := get element "lat" in
      let* lon := get element "lon" in
      Ok (VObj [("lat", lat); ("lon", lon)])
    else get element "center" in
  if negb (truthy latLng) then Ok (seen, None)
  else
    let* name := get tags "name" in
    let name := or_else name (VStr MSG_NO_NAME) in
    let* category := inferCategory tags in
    let* address := buildAddress tags in
    let* lat := get latLng "lat" in
    let* lon := get latLng "lon" in
    let* key := make_key name lat lon in
    if bool_decide (key ∈ seen) then Ok (seen, None)
    else
      let* id := get element "id" in
      Ok ({[key]} ∪ seen,
          Some (mkPlace id type lat lon name category address tags)).

Fixpoint visit_all (seen : gset string) (elements : list value)
    : result (list (option place)) :=
  match elements with
  | [] => Ok []
  | element :: rest =>
      let* (seen', r) := visit seen element in
      let* rs := visit_all seen' rest in
      Ok (r :: rs)
  end.

(** [.filter(Boolean)] *)
Fixpoint compact {A : Type} (l : list (option A)) : list A :=
  match l with
  | [] => []
  | Some x :: rest => x :: compact rest
  | None :: rest => compact rest
  end.

(** [(a, b) => a.name.localeCompare(b.name, 'ru')] *)
Definition compare_names (a b : place) : result num :=
  match place_name a with
  | VStr s =>
      let* that := ToString (place_name b) in
      Ok (localeCompare s that)
  | _ => Throw (TypeError "a.name.localeCompare is not a function")
  end.

(** The geo normaliser: what [fetchPlaces] computes from the decoded
    Overpass payload. *)
Definition normalizePlaces (data : value) : result (list place) :=
  let* elements := get data "elements" in
  match elements with
  | VArr l =>
      let* mapped := visit_all ∅ l in
      sortM compare_names (compact mapped)
  | VUndef | VNull =>
      Throw (TypeError "Cannot read properties of undefined (reading 'map')")
  | _ => Throw (TypeError "data.elements.map is not a function")
  end.

Definition is_number (v : value) : bool :=
  match v with VNum _ => true | _ => false end.

Definition tags_ok (tags : value) : bool :=
  match tags with
  | VUndef => true
  | VObj props =>
      match assoc "name" props with
      | None | Some (VStr _) => true
      | Some _ => false
      end
      && forallb (fun kv => printable (snd kv)) props
  | _ => false
  end.

Definition coords_ok (latLng : value) : bool :=
  match latLng with
  | VObj props =>
      is_number (default VUndef (assoc "lat" props))
      && is_number (default VUndef (assoc "lon" props))
  | _ => false
  end.

Definition element_ok (element : value) : bool :=
  match element with
  | VObj props =>
      tags_ok (default VUndef (assoc "tags" props))
      && (if is_str (default VUndef (assoc "type" props)) "node"
          then coords_ok element
          else match assoc "center" props with
               | None => true
               | Some c => coords_ok c
               end)
  | _ => false
  end.

(** The shape of an Overpass answer: [elements] is an array of objects;
    a node carries numeric [lat] and [lon]; [center], when present, is an
    object with numeric [lat] and [lon]; [tags], when present, is an
    object of values that can be converted to strings whose [name], when
    present, is a string. *)
Definition geo_payload (data : value) : bool :=
  match data with
  | VObj props =>
      match assoc "elements" props with
      | Some (VArr l) => forallb element_ok l
      | _ => false
      end
  | _ => false
  end.

(** What the analysis of [normalizePlaces] speaks of.  [place_of] is the
    place the callback builds for an element, after it has made the key
    and before it looks at [seen]; [candidates] are those places, in the
    order of the elements. *)
Definition place_of (element : value) : result (option place) :=
  let* tags := get element "tags" in
  let tags := match tags with VUndef => VObj [] | t => t end in
  let* type := get element "type" in
  let* latLng :=
    if is_str type "node" then
      let* lat := get element "lat" in
      let* lon := get element "lon" in
      Ok (VObj [("lat", lat); ("lon", lon)])
    else get element "center" in
  if negb (truthy latLng) then Ok None
  else
    let* name := get tags "name" in
    let name := or_else name (VStr MSG_NO_NAME) in
    let* category := inferCategory tags in
    let* address := buildAddress tags in
    let* lat := get latLng "lat" in
    let* lon := get latLng "lon" in
    let* key := make_key name lat lon in
    let* id := get element "id" in
    Ok (Some (mkPlace id type lat lon name category address tags)).

(** The key a place was built with (the empty text for a record whose key
    cannot be made, which [place_of] never builds). *)
Definition place_key (p : place) : string :=
  match make_key (place_name p) (place_lat p) (place_lon p) with
  | Ok key => key
  | Throw _ => EmptyString
  end.

Definition candidates (data : value) : result (list place) :=
  let* elements := get data "elements" in
  match elements with
  | VArr l => let* built := mapM place_of l in Ok (compact built)
  | VUndef | VNull =>
      Throw (TypeError "Cannot read properties of undefined (reading 'map')")
  | _ => Throw (TypeError "data.elements.map is not a function")
  end.

Definition same_key (a b : place) : bool :=
  String.eqb (place_key a) (place_key b).

(** The [seen] test applied along a list of built places. *)
Fixpoint thread_seen (seen : gset string) (built : list (option place))
    : list (option place) :=
  match built with
  | [] => []
  | None :: rest => None :: thread_seen seen rest
  | Some pl :: rest =>
      if bool_decide (place_key pl ∈ seen) then None :: thread_seen seen rest
      else Some pl :: thread_seen ({[place_key pl]} ∪ seen) rest
  end.

(** A place with every field the renderer needs: a non-empty name and
    category, numeric coordinates. *)
Definition place_complete (pl : place) : Prop :=
  (exists s, place_name pl = VStr s /\ s <> EmptyString)
  /\ place_category pl <> EmptyString
  /\ is_number (place_lat pl) = true
  /\ is_number (place_lon pl) = true.

(** The placeholders: the tags kept with a place are an object (the empty
    one when the element had none); without a [name] the place is called
    [MSG_NO_NAME]; without [tourism] and [amenity] its category is
    [CATEGORY_DEFAULT]; without address tags its address is empty. *)
Definition place_defaulted (pl : place) : Prop :=
  exists t,
    place_tags pl = VObj t
    /\ (assoc "name" t = None -> place_name pl = VStr MSG_NO_NAME)
    /\ (assoc "tourism" t = None -> assoc "amenity" t = None ->
          place_category pl = CATEGORY_DEFAULT)
    /\ (assoc "addr:street" t = None -> assoc "addr:city" t = None ->
          assoc "addr:state" t = None -> assoc "addr:country" t = None ->
          place_address pl = EmptyString).
End WithEngine.

(** Spec-side definitions for the comparison with the specification's
    wording: the key "(name, rounded latitude, rounded longitude)", with
    the five decimals [renderPlaces] prints. *)
Definition round5 (n : num) : num :=
  match n with
  | Fin q =>
      Fin (inject_Z (Qfloor (q * inject_Z 100000 + (1 # 2))%Q) / inject_Z 100000)%Q
  | other => other
  end.

Definition same_rounded_key (a b : place) : bool :=
  match place_name a, place_name b, place_lat a, place_lat b,
        place_lon a, place_lon b with
  | VStr n1, VStr n2, VNum la1, VNum la2, VNum lo1, VNum lo2 =>
      String.eqb n1 n2 && num_eqb (round5 la1) (round5 la2)
      && num_eqb (round5 lo1) (round5 lo2)
  | _, _, _, _, _, _ => false
  end.

(** Keep the first element of each class of [same]. *)
Fixpoint keep_first {A : Type} (same : A -> A -> bool) (l : list A) : list A :=
  match l with
  | [] => []
  | x :: rest => x :: filter (fun y => negb (same x y)) (keep_first same rest)
  end.
End Geo.

(** * Lab 5: OpenWeather forecast chart with persisted preferences *)

Module Weather.

Definition MSG_ENTER_KEY_AND_CITY : string := "Введите API ключ и город".
Definition MSG_LOADING : string := "Загружаем данные…".
Definition MSG_UNEXPECTED_FORMAT : string :=
  "Неожиданный формат ответа OpenWeather".
Definition MSG_FETCH_FAILED : string := "Не удалось получить данные".
Definition MSG_UNKNOWN_METRIC : string := "Неизвестный параметр".
Definition MSG_BAD_PERIOD : string :=
  "Проверьте корректность выбранного периода".
Definition MSG_NO_DATA : string :=
  "На выбранный период нет данных (OpenWeather предоставляет прогноз на 5 дней с шагом 3 часа)".
Definition MSG_POINTS : string := "Получено точек: ".

Definition COLOR_NEUTRAL : string := "#1f2933".
Definition COLOR_ERROR : string := "#dc2626".
Definition COLOR_SUCCESS : string := "#047857".

(** What [metricConfig[metric]] evaluates to: one of the four entries, a
    member inherited from [Object.prototype] (truthy, without [label] or
    [accessor]), or [undefined]. *)
Inductive config :=
| Config (label field : string)
| Inherited
| Missing.

Definition object_prototype_names : list string :=
  ["constructor"; "hasOwnProperty"; "isPrototypeOf"; "propertyIsEnumerable";
   "toLocaleString"; "toString"; "valueOf"; "__proto__";
   "__defineGetter__"; "__defineSetter__"; "__lookupGetter__";
   "__lookupSetter__"].

Definition metricConfig (metric : string) : config :=
  if String.eqb metric "temp" then Config "Температура, °C" "temp"
  else if String.eqb metric "feels_like" then
    Config "Ощущается как, °C" "feels_like"
  else if String.eqb metric "temp_min" then
    Config "Минимальная температура, °C" "temp_min"
  else if String.eqb metric "temp_max" then
    Config "Максимальная температура, °C" "temp_max"
  else if existsb (String.eqb metric) object_prototype_names then Inherited
  else Missing.

(** [localStorage]: the stored items, whether the page may use the storage
    at all, and which writes the browser accepts (quota). *)
Record Storage := mkStorage {
  items : gmap string string;
  available : bool;
  accepts : string -> string -> bool;
}.

Definition getItem (k : string) (st : Storage) : result (option string) :=
  if available st then Ok (items st !! k)
  else Throw (mkError "SecurityError" "The operation is insecure.").

Definition setItem (k v : string) (st : Storage) : result Storage :=
  if available st then
    if accepts st k v
    then Ok (mkStorage (<[k := v]> (items st)) (available st) (accepts st))
    else Throw (mkError "QuotaExceededError" "The quota has been exceeded.")
  else Throw (mkError "SecurityError" "The operation is insecure.").

(** A [select] element: its option values and the selected one. *)
Record select := mkSelect {
  options : list string;
  selectedIndex : option nat;
}.

Definition select_value (s : select) : string :=
  match selectedIndex s with
  | Some i => nth i (options s) EmptyString
  | None => EmptyString
  end.

Fixpoint index_of (v : string) (l : list string) : option nat :=
  match l with
  | [] => None
  | x :: rest =>
      if String.eqb x v then Some 0 else option_map S (index_of v rest)
  end.

(** [select.value = v]: the first option with that value gets selected, or
    none. *)
Definition select_set_value (v : string) (s : select) : select :=
  mkSelect (options s) (index_of v (options s)).

Record dataset := mkDataset {
  dataset_label : string;
  dataset_data : list (num * num);
}.

(** A [fetch] whose [then] chain is waiting, with the [apiKey] and [city]
    its closure holds. *)
Record activation := mkActivation {
  act_request : request;
  act_apiKey : string;
  act_city : string;
}.

Record page := mkPage {
  apiKeyInput : string;
  cityInput : string;
  metricSelect : select;
  startInput : string;
  endInput : string;
  statusText : string;
  statusColor : string;
  loadBtnDisabled : bool;
  controlsDisabled : bool;
  chartInstance : option dataset;
  lastForecast : list value;
  localStorage : Storage;
  inflight : list activation;
}.

Definition set_apiKeyInput (v : string) (p : page) : page :=
  mkPage v (cityInput p) (metricSelect p) (startInput p) (endInput p)
    (statusText p) (statusColor p) (loadBtnDisabled p) (controlsDisabled p)
    (chartInstance p) (lastForecast p) (localStorage p) (inflight p).

Definition set_cityInput (v : string) (p : page) : page :=
  mkPage (apiKeyInput p) v (metricSelect p) (startInput p) (endInput p)
    (statusText p) (statusColor p) (loadBtnDisabled p) (controlsDisabled p)
    (chartInstance p) (lastForecast p) (localStorage p) (inflight p).

Definition set_metricSelect (s : select) (p : page) : page :=
  mkPage (apiKeyInput p) (cityInput p) s (startInput p) (endInput p)
    (statusText p) (statusColor p) (loadBtnDisabled p) (controlsDisabled p)
    (chartInstance p) (lastForecast p) (localStorage p) (inflight p).

Definition set_period (start stop : string) (p : page) : page :=
  mkPage (apiKeyInput p) (cityInput p) (metricSelect p) start stop
    (statusText p) (statusColor p) (loadBtnDisabled p) (controlsDisabled p)
    (chartInstance p) (lastForecast p) (localStorage p) (inflight p).

Definition set_chartInstance (c : option dataset) (p : page) : page :=
  mkPage (apiKeyInput p) (cityInput p) (metricSelect p) (startInput p)
    (endInput p) (statusText p) (statusColor p) (loadBtnDisabled p)
    (controlsDisabled p) c (lastForecast p) (localStorage p) (inflight p).

Definition set_lastForecast (l : list value) (p : page) : page :=
  mkPage (apiKeyInput p) (cityInput p) (metricSelect p) (startInput p)
    (endInput p) (statusText p) (statusColor p) (loadBtnDisabled p)
    (controlsDisabled p) (chartInstance p) l (localStorage p) (inflight p).

Definition set_localStorage (st : Storage) (p : page) : page :=
  mkPage (apiKeyInput p) (cityInput p) (metricSelect p) (startInput p)
    (endInput p) (statusText p) (statusColor p) (loadBtnDisabled p)
    (controlsDisabled p) (chartInstance p) (lastForecast p) st (inflight p).

Definition set_inflight (l : list activation) (p : page) : page :=
  mkPage (apiKeyInput p) (cityInput p) (metricSelect p) (startInput p)
    (endInput p) (statusText p) (statusColor p) (loadBtnDisabled p)
    (controlsDisabled p) (chartInstance p) (lastForecast p) (localStorage p) l.

Definition renderStatus (message : string) (isError isNeutral : bool)
    (p : page) : page :=
  mkPage (apiKeyInput p) (cityInput p) (metricSelect p) (startInput p)
    (endInput p) message
    (if isNeutral then COLOR_NEUTRAL
     else if isError then COLOR_ERROR else COLOR_SUCCESS)
    (loadBtnDisabled p) (controlsDisabled p) (chartInstance p)
    (lastForecast p) (localStorage p) (inflight p).

(** [toggleForm]: the API-key field is never disabled. *)
Definition toggleForm (isLoading : bool) (p : page) : page :=
  mkPage (apiKeyInput p) (cityInput p) (metricSelect p) (startInput p)
    (endInput p) (statusText p) (statusColor p) isLoading isLoading
    (chartInstance p) (lastForecast p) (localStorage p) (inflight p).

Definition destroyChart (p : page) : page := set_chartInstance None p.

Definition forecast_url (city apiKey : string) : string :=
  let params : URLSearchParams := [] in
  let params := params_set "q" city params in
  let params := params_set "appid" apiKey params in
  let params := params_set "units" "metric" params in
  let params := params_set "lang" "ru" params in
  "https://api.openweathermap.org/data/2.5/forecast?" +:+ params_toString params.

(** [handleSubmit], up to the [fetch]. *)
Definition handleSubmit (p : page) : page :=
  let apiKey := trim (apiKeyInput p) in
  let city := trim (cityInput p) in
  if str_is_empty apiKey || str_is_empty city
  then renderStatus MSG_ENTER_KEY_AND_CITY true false p
  else
    let p := renderStatus MSG_LOADING false true p in
    let p := toggleForm true p in
    set_inflight
      (inflight p ++ [mkActivation (GET (forecast_url city apiKey)) apiKey city]) p.

(** [persistPreferences]: the writes made before one is refused stay. *)
Definition persistPreferences (apiKey city : string) (p : page) : page :=
  match setItem "ow_apiKey" apiKey (localStorage p) with
  | Throw _ => p
  | Ok st1 =>
      match setItem "ow_city" city st1 with
      | Throw _ => set_localStorage st1 p
      | Ok st2 =>
          match setItem "ow_metric" (select_value (metricSelect p)) st2 with
          | Throw _ => set_localStorage st2 p
          | Ok st3 => set_localStorage st3 p
          end
      end
  end.

Definition stored_truthy (o : option string) : bool :=
  match o with
  | Some s => negb (str_is_empty s)
  | None => false
  end.

Definition config_truthy (c : config) : bool :=
  match c with Missing => false | _ => true end.

(** [restorePreferences]: the three reads come first; if one throws nothing
    is restored. *)
Definition restorePreferences (p : page) : page :=
  match getItem "ow_apiKey" (localStorage p),
        getItem "ow_city" (localStorage p),
        getItem "ow_metric" (localStorage p) with
  | Ok storedApiKey, Ok storedCity, Ok storedMetric =>
      let p :=
        if stored_truthy storedApiKey
        then set_apiKeyInput (default EmptyString storedApiKey) p else p in
      let p :=
        if stored_truthy storedCity
        then set_cityInput (default EmptyString storedCity) p else p in
      if stored_truthy storedMetric
         && config_truthy (metricConfig (default EmptyString storedMetric))
      then set_metricSelect
             (select_set_value (default EmptyString storedMetric) (metricSelect p)) p
      else p
  | _, _, _ => p
  end.

Section WithEngine.
Context {E : Engine}.

Definition setDefaultPeriod (now : num) (p : page) : page :=
  let stop := match now with
              | Fin q => Fin (q + inject_Z (4 * 24 * 60 * 60 * 1000))%Q
              | other => other
              end in
  set_period (localDateTime now) (localDateTime (TimeClip stop)) p.

(** [init], called when the script loads. *)
Definition init (now : num) (p : page) : page :=
  setDefaultPeriod now (restorePreferences p).

(** [parseLocalDate]: [None] is [null]. *)
Definition parseLocalDate (v : string) : option num :=
  if str_is_empty v then None
  else
    let t := parseDate v in
    if num_is_nan t then None else Some t.

(** [config.accessor(entry).toFixed(2)] read back with [parseFloat]. *)
Definition point_of (c : config) (entry : value) : result (num * num) :=
  let* dt := get entry "dt" in
  let* seconds := ToNumber dt in
  let x := num_mul seconds (num_of_Z 1000) in
  match c with
  | Config _ field =>
      let* main := get entry "main" in
      let* v := get main field in
      match v with
      | VNum n => Ok (x, parseFloat (toFixed 2 n))
      | VUndef | VNull =>
          Throw (TypeError "Cannot read properties of undefined (reading 'toFixed')")
      | _ => Throw (TypeError "config.accessor(...).toFixed is not a function")
      end
  | _ => Throw (TypeError "config.accessor is not a function")
  end.

Fixpoint in_period (start stop : num) (l : list value) : result (list value) :=
  match l with
  | [] => Ok []
  | entry :: rest =>
      let* dt := get entry "dt" in
      let* seconds := ToNumber dt in
      let entryDate := TimeClip (num_mul seconds (num_of_Z 1000)) in
      let* kept := in_period start stop rest in
      Ok (if num_leb start entryDate && num_leb entryDate stop
          then entry :: kept else kept)
  end.

Definition config_label (c : config) : string :=
  match c with
  | Config label _ => label
  | _ => "undefined"
  end.

(** [updateChart]: the page it leaves and the exception it raised. *)
Definition updateChart (p : page) : page * option error :=
  let metric := select_value (metricSelect p) in
  let c := metricConfig metric in
  if negb (config_truthy c) then (renderStatus MSG_UNKNOWN_METRIC true false p, None)
  else
    match parseLocalDate (startInput p), parseLocalDate (endInput p) with
    | Some startDate, Some endDate =>
        if num_leb endDate startDate
        then (renderStatus MSG_BAD_PERIOD true false p, None)
        else
          match in_period startDate endDate (lastForecast p) with
          | Throw e => (p, Some e)
          | Ok kept =>
              match mapM (point_of c) kept with
              | Throw e => (p, Some e)
              | Ok points =>
                  if Nat.eqb (List.length points) 0
                  then (destroyChart (renderStatus MSG_NO_DATA true false p), None)
                  else
                    let datasetLabel :=
                      config_label c +:+ " — " +:+ trim (cityInput p) in
                    let p := set_chartInstance
                               (Some (mkDataset datasetLabel points)) p in
                    (renderStatus
                       (MSG_POINTS +:+ nat_to_string (List.length points))
                       false false p, None)
              end
          end
    | _, _ => (renderStatus MSG_BAD_PERIOD true false p, None)
    end.

(** The second [then] of [handleSubmit], on the decoded body. *)
Definition on_data (apiKey city : string) (data : value) (p : page)
    : page * option error :=
  match get data "list" with
  | Throw e => (p, Some e)
  | Ok (VArr entries) =>
      let p := set_lastForecast entries p in
      let p := persistPreferences apiKey city p in
      updateChart p
  | Ok _ => (p, Some (PlainError MSG_UNEXPECTED_FORMAT))
  end.

(** [.catch(...)] then [.finally(...)]. *)
Definition settle (outcome : page * option error) : page :=
  let p :=
    match outcome with
    | (p, None) => p
    | (p, Some e) =>
        renderStatus
          (if str_is_empty (err_message e) then MSG_FETCH_FAILED
           else err_message e) true false p
    end in
  toggleForm false p.

(** What the network can answer to the oldest waiting [fetch]. *)
Inductive answer :=
| NetworkFailure (e : error)
| HttpNotOk (status : Z)
| BadJson (e : error)
| Body (data : value).

Definition on_answer (a : answer) (p : page) : page :=
  match inflight p with
  | [] => p
  | act :: rest =>
      let p := set_inflight rest p in
      match a with
      | NetworkFailure e => settle (p, Some e)
      | HttpNotOk status =>
          settle (p, Some (PlainError ("Ошибка API: " +:+ Z_to_string status)))
      | BadJson e => settle (p, Some e)
      | Body data => settle (on_data (act_apiKey act) (act_city act) data p)
      end
  end.

(** A submission is successful when the page shows the success status. *)
Definition successful (p : page) : bool :=
  String.eqb (statusColor p) COLOR_SUCCESS.
End WithEngine.

(** The page a reload of the document starts from: the same controls with
    whatever values the browser puts in them, the same storage. *)
Definition reload (apiKeyValue cityValue : string) (selected : option nat)
    (p : page) : page :=
  mkPage apiKeyValue cityValue (mkSelect (options (metricSelect p)) selected)
    EmptyString EmptyString EmptyString EmptyString false false None []
    (localStorage p) [].
End Weather.

(** * Lab 4: text analytics (MeaningCloud, and the Twinword variant) *)

(** What the two variants share. *)
Module TextLab.

Definition MSG_ENTER_TEXT : string := "Введите текст для анализа.".
Definition MSG_ANALYSING : string := "Выполняется анализ текста…".
Definition ROW_NO_KEYWORDS : string :=
  "<tr><td colspan=" +:+ String "034" ("3" +:+ String "034"
    (" class=" +:+ String "034" ("placeholder" +:+ String "034"
    ">API не вернуло ключевые слова для данного текста.</td></tr>"))).
Definition DASH : string := "—".
Definition NL : string := String "010" EmptyString.

(** The keyword chart: the labels and the data handed to [new Chart], as
    they are handed over. *)
Record chart := mkChart {
  chart_labels : list value;
  chart_data : list num;
}.

Record page := mkPage {
  messageText : string;
  messageError : bool;
  analyzeDisabled : bool;
  keywordsTableBody : string;
  keywordsChart : option chart;
  sent : list request;
}.

Definition showMessage (text : string) (isError : bool) (p : page) : page :=
  mkPage text isError (analyzeDisabled p) (keywordsTableBody p)
    (keywordsChart p) (sent p).

Definition toggleLoading (isLoading : bool) (p : page) : page :=
  mkPage (messageText p) (messageError p) isLoading (keywordsTableBody p)
    (keywordsChart p) (sent p).

Definition send (r : request) (p : page) : page :=
  mkPage (messageText p) (messageError p) (analyzeDisabled p)
    (keywordsTableBody p) (keywordsChart p) (sent p ++ [r]).

Definition set_keywords (html : string) (c : option chart) (p : page) : page :=
  mkPage (messageText p) (messageError p) (analyzeDisabled p) html c (sent p).

(** The replacement [escapeHtml] makes for one character. *)
Definition entity (char : ascii) : string :=
  if Ascii.eqb char "&" then "&amp;"
  else if Ascii.eqb char "<" then "&lt;"
  else if Ascii.eqb char ">" then "&gt;"
  else if Ascii.eqb char "034" then "&quot;"
  else if Ascii.eqb char "'" then "&#39;"
  else String char EmptyString.

(** [safe.replace(...)]: every ampersand, angle bracket and quote is
    replaced by its entity. *)
Fixpoint replace_special (safe : string) : string :=
  match safe with
  | EmptyString => EmptyString
  | String c rest => entity c +:+ replace_special rest
  end.

Definition is_special (c : ascii) : bool :=
  Ascii.eqb c "&" || Ascii.eqb c "<" || Ascii.eqb c ">"
  || Ascii.eqb c "034" || Ascii.eqb c "'".

(** The characters that open or close markup or an attribute value. *)
Definition is_markup (c : ascii) : bool :=
  Ascii.eqb c "<" || Ascii.eqb c ">" || Ascii.eqb c "034" || Ascii.eqb c "'".

Fixpoint string_forallb (f : ascii -> bool) (s : string) : bool :=
  match s with
  | EmptyString => true
  | String c rest => f c && string_forallb f rest
  end.

Section WithEngine.
Context {E : Engine}.

Definition escapeHtml (text : value) : result string :=
  let* safe := ToString (coalesce text (VStr EmptyString)) in
  Ok (replace_special safe).

(** [Number.isFinite(n) ? n.toFixed(digits) : '—'] *)
Definition show_score (digits : nat) (n : num) : string :=
  if num_is_finite n then toFixed digits n else DASH.
End WithEngine.
End TextLab.

Module MeaningCloud.
Import TextLab.

Definition MSG_ENTER_KEY : string :=
  "Укажите ключ MeaningCloud, чтобы выполнить запрос.".

Record keyword := mkKeyword {
  label : value;
  source : value;
  relevance : num;
}.

Definition form_headers : list (string * string) :=
  [("Content-Type", "application/x-www-form-urlencoded")].

Definition sentiment_request (apiKey language text : string) : request :=
  mkRequest "POST" "https://api.meaningcloud.com/sentiment-2.1" form_headers
    (Some (params_toString
             [("key", apiKey); ("lang", language); ("txt", text);
              ("model", "general")])).

Definition topics_request (apiKey language text : string) : request :=
  mkRequest "POST" "https://api.meaningcloud.com/topics-2.0" form_headers
    (Some (params_toString
             [("key", apiKey); ("lang", language); ("txt", text);
              ("tt", "a"); ("max", "20")])).

(** The submit listener, up to the [await Promise.all]. *)
Definition onSubmit (apiKeyValue languageValue textValue : string)
    (p : page) : page :=
  let apiKey := trim apiKeyValue in
  let language := languageValue in
  let text := trim textValue in
  if str_is_empty text then showMessage MSG_ENTER_TEXT true p
  else if str_is_empty apiKey then showMessage MSG_ENTER_KEY true p
  else
    let p := toggleLoading true p in
    let p := showMessage MSG_ANALYSING false p in
    let p := send (sentiment_request apiKey language text) p in
    send (topics_request apiKey language text) p.

Section WithEngine.
Context {E : Engine}.

(** [(list || []).map(f)] *)
Definition map_list (items : value) (f : value -> result keyword)
    : result (list keyword) :=
  match or_else items (VArr []) with
  | VArr l => mapM f l
  | _ => Throw (TypeError "(intermediate value).map is not a function")
  end.

Definition concept_of (item : value) : result keyword :=
  let* form := get item "form" in
  let* rel := get item "relevance" in
  let* relevance := number_or_zero rel in
  Ok (mkKeyword form (VStr "Concept") relevance).

Definition entity_of (item : value) : result keyword :=
  let* form := get item "form" in
  let* sementity := get item "sementity" in
  let type := get_opt sementity "type" in
  let* rel := get item "relevance" in
  let* relevance := number_or_zero rel in
  Ok (mkKeyword form (or_else type (VStr "Entity")) relevance).

(** [(a, b) => b.relevance - a.relevance] *)
Definition by_relevance (a b : keyword) : num :=
  num_sub (relevance b) (relevance a).

(** The list [extractKeywords] hands to [sort]. *)
Definition labelled_keywords (data : value) : result (list keyword) :=
  let* concept_list := get data "concept_list" in
  let* concepts := map_list concept_list concept_of in
  let* entity_list := get data "entity_list" in
  let* entities := map_list entity_list entity_of in
  Ok (filter (fun item => truthy (label item)) (concepts ++ entities)).

Definition extractKeywords (data : value) : result (list keyword) :=
  let* items := labelled_keywords data in
  Ok (sort by_relevance items).

Definition keyword_row (item : keyword) : result string :=
  let* label_cell := escapeHtml (label item) in
  let* source_cell := escapeHtml (source item) in
  Ok (NL +:+ "        <tr>" +:+ NL +:+
      "          <td>" +:+ label_cell +:+ "</td>" +:+ NL +:+
      "          <td>" +:+ source_cell +:+ "</td>" +:+ NL +:+
      "          <td>" +:+ show_score 2 (relevance item) +:+ "</td>" +:+ NL +:+
      "        </tr>").

Definition renderKeywords (data : value) (p : page) : result page :=
  let* keywords := extractKeywords data in
  if Nat.eqb (List.length keywords) 0
  then Ok (set_keywords ROW_NO_KEYWORDS None p)
  else
    let* rows := mapM keyword_row keywords in
    let html := concat_strings rows in
    let topKeywords := firstn 7 keywords in
    Ok (set_keywords html
          (Some (mkChart (map label topKeywords) (map relevance topKeywords))) p).

(** The shape of a topics answer: not [null], and [concept_list] and
    [entity_list] are each absent (or falsy) or an array without [null]
    entries, the [relevance] of each entry a value that can be converted to
    a number. *)
Definition list_ok (v : value) : bool :=
  match v with
  | VArr l =>
      forallb (fun item => negb (nullish item)
                           && printable (get_opt item "relevance")) l
  | other => negb (truthy other)
  end.

Definition keyword_payload (data : value) : bool :=
  negb (nullish data)
  && list_ok (get_opt data "concept_list")
  && list_ok (get_opt data "entity_list").
End WithEngine.
End MeaningCloud.

Module Twinword.
Import TextLab.

Definition MSG_ENTER_KEY : string :=
  "Укажите RapidAPI ключ, чтобы выполнить запрос.".

Definition SENTIMENT_HOST : string := "twinword-sentiment-analysis.p.rapidapi.com".
Definition KEYWORDS_HOST : string := "twinword-keyword-extractor.p.rapidapi.com".

Record keyword := mkKeyword {
  label : string;
  weight : num;
  source : string;
}.

Definition rapidapi_request (host path apiKey text : string) : request :=
  mkRequest "POST" ("https://" +:+ host +:+ path)
    [("content-type", "application/x-www-form-urlencoded");
     ("X-RapidAPI-Key", apiKey); ("X-RapidAPI-Host", host)]
    (Some (params_toString [("text", text)])).

(** The submit listener, up to the [await Promise.all]. *)
Definition onSubmit (apiKeyValue textValue : string) (p : page) : page :=
  let apiKey := trim apiKeyValue in
  let text := trim textValue in
  if str_is_empty text then showMessage MSG_ENTER_TEXT true p
  else if str_is_empty apiKey then showMessage MSG_ENTER_KEY true p
  else
    let p := toggleLoading true p in
    let p := showMessage MSG_ANALYSING false p in
    let p := send (rapidapi_request SENTIMENT_HOST "/analyze/" apiKey text) p in
    send (rapidapi_request KEYWORDS_HOST "/extract/" apiKey text) p.

Section WithEngine.
Context {E : Engine}.

(** [(a, b) => b.weight - a.weight] *)
Definition by_weight (a b : keyword) : num :=
  num_sub (weight b) (weight a).

Definition keyword_of (entry : string * value) : result keyword :=
  let* weight := number_or_zero (snd entry) in
  Ok (mkKeyword (fst entry) weight "Twinword").

(** The list [extractKeywords] hands to [sort]. *)
Definition labelled_keywords (data : value) : result (list keyword) :=
  let* keyword := get data "keyword" in
  let keywordMap := or_else keyword (VObj []) in
  let* items := mapM keyword_of (entries keywordMap) in
  Ok (filter (fun item => negb (str_is_empty (label item))) items).

Definition extractKeywords (data : value) : result (list keyword) :=
  let* items := labelled_keywords data in
  Ok (sort by_weight items).

Definition keyword_row (item : keyword) : result string :=
  let* label_cell := escapeHtml (VStr (label item)) in
  Ok (NL +:+ "        <tr>" +:+ NL +:+
      "          <td>" +:+ label_cell +:+ "</td>" +:+ NL +:+
      "          <td>" +:+ source item +:+ "</td>" +:+ NL +:+
      "          <td>" +:+ show_score 3 (weight item) +:+ "</td>" +:+ NL +:+
      "        </tr>").

Definition renderKeywords (data : value) (p : page) : result page :=
  let* keywords := extractKeywords data in
  if Nat.eqb (List.length keywords) 0
  then Ok (set_keywords ROW_NO_KEYWORDS None p)
  else
    let* rows := mapM keyword_row keywords in
    let html := concat_strings rows in
    let topKeywords := firstn 7 keywords in
    Ok (set_keywords html
          (Some (mkChart (map (fun item => VStr (label item)) topKeywords)
                         (map weight topKeywords))) p).

(** The shape of a keyword answer: anything but [null], the weights under
    [keyword] values that can be converted to numbers. *)
Definition keyword_payload (data : value) : bool :=
  negb (nullish data)
  && forallb (fun entry => printable (snd entry))
       (entries (or_else (get_opt data "keyword") (VObj []))).
End WithEngine.
End Twinword.

(** * An engine to run the examples

    Decimal numbers, code-unit order for the collation, time values written
    as integers. *)

Fixpoint fraction_digits (fuel : nat) (r d : Z) : string :=
  match fuel with
  | O => EmptyString
  | S fuel' =>
      if (r =? 0)%Z then EmptyString
      else Z_to_string (10 * r / d) +:+ fraction_digits fuel' ((10 * r) mod d) d
  end.

Definition print_Q (q : Q) : string :=
  let q := Qred q in
  let n := Z.abs (Qnum q) in
  let d := Z.pos (Qden q) in
  (if (Qnum q <? 0)%Z then "-" else EmptyString)
  +:+ Z_to_string (n / d)
  +:+ (if (n mod d =? 0)%Z then EmptyString
       else "." +:+ fraction_digits 20 (n mod d) d).

Definition print_num (n : num) : string :=
  match n with
  | NaN => "NaN"
  | Inf true => "-Infinity"
  | Inf false => "Infinity"
  | Fin q => print_Q q
  end.

Fixpoint all_digits (s : string) : bool :=
  match s with
  | EmptyString => true
  | String c rest =>
      match digit_of c with Some _ => all_digits rest | None => false end
  end.

Fixpoint split_at_dot (s : string) : string * option string :=
  match s with
  | EmptyString => (EmptyString, None)
  | String c rest =>
      if Ascii.eqb c "." then (EmptyString, Some rest)
      else let (a, b) := split_at_dot rest in (String c a, b)
  end.

Definition read_unsigned (s : string) : num :=
  let (whole, frac) := split_at_dot s in
  let frac := default EmptyString frac in
  if str_is_empty (whole +:+ frac) || negb (all_digits whole && all_digits frac)
  then NaN
  else
    Fin (inject_Z (default 0%Z (digits_prefix (whole +:+ frac) None))
         / inject_Z (10 ^ Z.of_nat (String.length frac)))%Q.

Definition read_num (s : string) : num :=
  match trim s with
  | EmptyString => Fin 0%Q
  | String "-" rest =>
      match read_unsigned rest with
      | Fin q => Fin (- q)%Q
      | other => other
      end
  | other => read_unsigned other
  end.

Definition compare_code_units (a b : string) : num :=
  match String.compare a b with
  | Lt => Fin (-1)%Q
  | Eq => Fin 0%Q
  | Gt => Fin 1%Q
  end.

Definition print_fixed (digits : nat) (n : num) : string :=
  match n with
  | Fin q =>
      let scale := (10 ^ Z.of_nat digits)%Z in
      let r := Qfloor (Qabs q * inject_Z scale + (1 # 2))%Q in
      print_Q (inject_Z ((if Qle_bool 0%Q q then 1 else -1) * r) / inject_Z scale)%Q
  | other => print_num other
  end.

Definition test_engine : Engine := {|
  StringToNumber := read_num;
  NumberToString := print_num;
  localeCompare := compare_code_units;
  parseDate := read_num;
  toLocaleDateString := print_num;
  localDateTime := print_num;
  toFixed := print_fixed;
  parseFloat := read_num;
|}.

(** * Sample inputs *)

Module Samples.

(** A NASA search answer with one image. *)
Definition nasa_payload (title : string) : value :=
  VObj [("collection",
         VObj [("items",
                VArr [VObj [("data",
                             VArr [VObj [("title", VStr title);
                                         ("nasa_id", VStr "PIA00001")]]);
                            ("links",
                             VArr [VObj [("render", VStr "image");
                                         ("href", VStr "https://images.nasa.gov/p.jpg")]])]])])].

(** The NASA page after one valid submission. *)
Definition nasa_loading : Nasa.page :=
  Nasa.handleSubmit "apollo" "image" "2020" Nasa.initial.

Definition node (id : Z) (lat lon : Q) (tags : list (string * value)) : value :=
  VObj [("type", VStr "node"); ("id", VNum (num_of_Z id));
        ("lat", VNum (Fin lat)); ("lon", VNum (Fin lon));
        ("tags", VObj tags)].

(** Two places of the same name a tenth of a micro-degree apart, then an
    exact repetition of the first, then a way without a centre. *)
Definition overpass_payload : value :=
  VObj [("elements",
         VArr [node 1 (557512440 # 10000000) (376184230 # 10000000)
                 [("name", VStr "Museum"); ("tourism", VStr "museum")];
               node 2 (557512441 # 10000000) (376184230 # 10000000)
                 [("name", VStr "Museum"); ("tourism", VStr "museum")];
               node 3 (557512440 # 10000000) (376184230 # 10000000)
                 [("name", VStr "Museum"); ("tourism", VStr "museum")];
               VObj [("type", VStr "way"); ("id", VNum (num_of_Z 4))];
               node 5 (10 # 1) (20 # 1) []])].

(** A MeaningCloud topics answer, relevances out of order and tied. *)
Definition topics_payload : value :=
  VObj [("concept_list",
         VArr [VObj [("form", VStr "moon"); ("relevance", VStr "50")];
               VObj [("form", VStr "orbit"); ("relevance", VStr "100")];
               VObj [("form", VStr "crater")]]);
        ("entity_list",
         VArr [VObj [("form", VStr "NASA"); ("relevance", VStr "100");
                     ("sementity", VObj [("type", VStr "Top>Organization")])];
               VObj [("form", VStr "Apollo"); ("relevance", VStr "50")]])].

(** A Twinword keyword answer. *)
Definition twinword_payload : value :=
  VObj [("keyword",
         VObj [("moon", VNum (Fin 1)); ("orbit", VNum (Fin 3));
               ("crater", VStr "n/a"); ("lander", VNum (Fin 3))])].

(** The weather page with a key, a city and the second metric chosen, a
    period that contains the forecast below, and an empty storage that takes
    every write. *)
Definition weather_page : Weather.page :=
  Weather.mkPage "  KEY123 " "Oslo"
    (Weather.mkSelect ["temp"; "feels_like"; "temp_min"; "temp_max"] (Some 1))
    "1700000000000" "1700400000000" EmptyString EmptyString false false None []
    (Weather.mkStorage ∅ true (fun _ _ => true)) [].

Definition forecast_payload : value :=
  VObj [("list",
         VArr [VObj [("dt", VNum (num_of_Z 1700010000));
                     ("main", VObj [("temp", VNum (Fin (25 # 10)));
                                    ("feels_like", VNum (Fin (-1234 # 1000)))])];
               VObj [("dt", VNum (num_of_Z 1700020800));
                     ("main", VObj [("temp", VNum (Fin (3 # 1)));
                                    ("feels_like", VNum (Fin (1 # 2)))])]])].

(** The same page with the city wiped out. *)
Definition weather_page_no_city : Weather.page :=
  Weather.set_cityInput "   " weather_page.

Definition geo_page : Geo.page :=
  Geo.mkPage EmptyString "info" false [].

Definition text_page : TextLab.page :=
  TextLab.mkPage EmptyString false false EmptyString None [].

(** A text of 201 characters. *)
Definition long_text : string := concat_strings (repeat "a" 201).
End Samples.

(** * The vocabulary of the properties *)

Definition nonnan (n : num) : Prop := num_is_nan n = false.

(** The comparator [(a, b) => key(b) - key(a)]. *)
Definition by_key {A : Type} (key : A -> num) (a b : A) : num :=
  num_sub (key b) (key a).

(** [l] is in descending order of [key]: every element is at least every
    later one. *)
Definition descending {A : Type} (key : A -> num) (l : list A) : Prop :=
  StronglySorted (fun a b => num_leb (key b) (key a) = true) l.

(** The elements of equal key come in [out] in the order they have in
    [arrival]. *)
Definition ties_keep_order {A : Type} (key : A -> num) (arrival out : list A) : Prop :=
  forall w : num,
    filter (fun x => num_eqb (key x) w) out
    = filter (fun x => num_eqb (key x) w) arrival.

(** No character of [s] opens or closes markup or an attribute value. *)
Definition markup_free (s : string) : Prop :=
  TextLab.string_forallb (fun c => negb (TextLab.is_markup c)) s = true.

(** * The rest of the labs *)

From Stdlib Require DecimalPos.

(** ** What a [fetch] comes back with *)

(** The promise rejects, or a response arrives: its [ok] flag, its status
    and what [response.json()] settles to. *)
Inductive fetched :=
| Rejected (e : error)
| Responded (ok : bool) (status : Z) (json : result value).

(** How many characters of [s] satisfy [f]. *)
Fixpoint count_chars (f : ascii -> bool) (s : string) : nat :=
  match s with
  | EmptyString => 0
  | String c rest => (if f c then 1 else 0) + count_chars f rest
  end.

Definition is_text (v : value) : bool :=
  match v with VStr _ => true | _ => false end.

(** [Math.min] and [Math.max] of two numbers. *)
Definition num_min (a b : num) : num :=
  match a, b with
  | NaN, _ | _, NaN => NaN
  | _, _ => if num_leb a b then a else b
  end.

Definition num_max (a b : num) : num :=
  match a, b with
  | NaN, _ | _, NaN => NaN
  | _, _ => if num_leb a b then b else a
  end.

(** [Math.round]: the nearest integer, a half going up.  (The embedding
    has one zero.) *)
Definition num_round (n : num) : num :=
  match n with
  | Fin q => Fin (inject_Z (Qfloor (q + (1 # 2))%Q))
  | other => other
  end.

(** Division and multiplication of doubles round their result; they are
    left to the runtime. *)
Class FloatOps : Type := {
  divide : num -> num -> num;
  multiply : num -> num -> num;
}.

(** ** Lab 4: the statistics of the text *)

Module TextStats.

(** [s.split(re)] for a pattern that matches the non-empty runs of the
    characters [sep]: the pieces of [s] between the maximal runs.
    [in_run] tells that the character before was a separator. *)
Fixpoint split_runs (sep : ascii -> bool) (in_run : bool) (s : string)
    : list string :=
  match s with
  | EmptyString => [EmptyString]
  | String c rest =>
      if sep c then
        if in_run then split_runs sep true rest
        else EmptyString :: split_runs sep true rest
      else
        match split_runs sep false rest with
        | piece :: pieces => String c piece :: pieces
        | [] => [String c EmptyString]
        end
  end.

(** [s.replace(re, '')] for the same kind of pattern, with the [g] flag. *)
Fixpoint remove (sep : ascii -> bool) (s : string) : string :=
  match s with
  | EmptyString => EmptyString
  | String c rest => if sep c then remove sep rest else String c (remove sep rest)
  end.

(** The class [.!?] of the sentence pattern. *)
Definition is_sentence_end (c : ascii) : bool :=
  Ascii.eqb c "." || Ascii.eqb c "!" || Ascii.eqb c "?".

(** [.filter(Boolean)] on strings. *)
Definition nonempty (l : list string) : list string :=
  filter (fun s => negb (str_is_empty s)) l.

Definition words (text : string) : list string :=
  nonempty (split_runs is_js_space false (trim text)).

Definition sentences (text : string) : list string :=
  nonempty (map trim (split_runs is_sentence_end false text)).

Record stats := mkStats {
  charCount : nat;
  charCountNoSpaces : nat;
  wordCount : nat;
  sentenceCount : nat;
  avgWordLength : num;
  readingMinutes : num;
  readingSeconds : num;
}.

Section WithFloats.
Context {F : FloatOps}.

Definition computeStats (text : string) : stats :=
  let charCount := String.length text in
  let charCountNoSpaces := String.length (remove is_js_space text) in
  let wordCount := List.length (words text) in
  let sentenceCount := List.length (sentences text) in
  let avgWordLength :=
    if Nat.eqb wordCount 0 then Fin 0%Q
    else divide (num_of_nat charCountNoSpaces) (num_of_nat wordCount) in
  let readingMinutes :=
    if Nat.eqb wordCount 0 then Fin 0%Q
    else divide (num_of_nat wordCount) (num_of_Z 200) in
  let readingSeconds :=
    num_max (num_of_Z 5) (num_round (multiply readingMinutes (num_of_Z 60))) in
  mkStats charCount charCountNoSpaces wordCount sentenceCount
          avgWordLength readingMinutes readingSeconds.
End WithFloats.

End TextStats.

(** ** Lab 4: what the services answer *)

(** What [throw new Error(v)] throws, for a value that is not [undefined]:
    the error with [v] as its message, or the [TypeError] of a [v] that
    cannot be converted to a string. *)
Definition Error_of {E : Engine} (v : value) : error :=
  match ToString v with
  | Ok message => PlainError message
  | Throw e => e
  end.

Definition MSG_REQUEST_FAILED : string := "Ошибка запроса: ".

Module MeaningCloudApi.

Definition MSG_API_ERROR : string := "API MeaningCloud вернуло ошибку.".
Definition MSG_NO_KEYWORDS : string := "Не удалось извлечь ключевые слова.".

Section WithEngine.
Context {E : Engine}.

(** The body shared by [fetchSentiment] and [fetchTopics], from the
    settling of [fetch] on; [fallback] is the message of the second
    [throw]. *)
Definition checked (fallback : string) (r : fetched) : result value :=
  match r with
  | Rejected e => Throw e
  | Responded ok status json =>
      let* data := json in
      if negb ok then
        let* status_field := get data "status" in
        let msg := get_opt status_field "msg" in
        Throw (Error_of
                 (or_else msg (VStr (MSG_REQUEST_FAILED +:+ Z_to_string status))))
      else
        let* status_field := get data "status" in
        let code := get_opt status_field "code" in
        if truthy code && negb (is_str code "0") then
          let* msg := get status_field "msg" in
          Throw (Error_of (or_else msg (VStr fallback)))
        else Ok data
  end.

Definition fetchSentiment (r : fetched) : result value := checked MSG_API_ERROR r.
Definition fetchTopics (r : fetched) : result value := checked MSG_NO_KEYWORDS r.
End WithEngine.
End MeaningCloudApi.

Module TwinwordApi.

Definition MSG_SENTIMENT_ERROR : string :=
  "Twinword вернуло ошибку анализа тональности.".
Definition MSG_NO_KEYWORDS : string := "Не удалось извлечь ключевые слова.".

Section WithEngine.
Context {E : Engine}.

Definition checked (fallback : string) (r : fetched) : result value :=
  match r with
  | Rejected e => Throw e
  | Responded ok status json =>
      let* data := json in
      if negb ok then
        let* message := get data "message" in
        Throw (Error_of
                 (or_else message
                    (VStr (MSG_REQUEST_FAILED +:+ Z_to_string status))))
      else
        let* result_code := get data "result_code" in
        if truthy result_code && negb (is_str result_code "200") then
          let* result_msg := get data "result_msg" in
          Throw (Error_of (or_else result_msg (VStr fallback)))
        else Ok data
  end.

Definition fetchSentiment (r : fetched) : result value :=
  checked MSG_SENTIMENT_ERROR r.
Definition fetchKeywords (r : fetched) : result value :=
  checked MSG_NO_KEYWORDS r.
End WithEngine.

(** [clampScore]: the bar the sentiment chart draws on its axis from -1
    to 1. *)
Definition clampScore (score : value) : num :=
  match score with
  | VNum n =>
      if num_is_nan n then Fin 0%Q
      else num_max (Fin (-1)%Q) (num_min (Fin 1%Q) n)
  | _ => Fin 0%Q
  end.
End TwinwordApi.

(** ** Lab 1: the shape of a search item, the bookkeeping of the page *)

Module NasaShape.

(** A field that is a string, or missing, [null] or otherwise falsy. *)
Definition text_or_falsy (v : value) : bool := negb (truthy v) || is_text v.

(** The entry [renderItems] takes for the metadata of an item. *)
Definition meta_of (item : value) : value :=
  match get_opt item "data" with
  | VArr l => hd VUndef l
  | _ => VNull
  end.

(** A link as the search service sends it: not [null], its [href] a
    string or falsy. *)
Definition link_ok (link : value) : bool :=
  negb (nullish link) && text_or_falsy (get_opt link "href").

(** An item as the search service sends it: not [null]; when it has
    metadata, their [title], [description], [date_created] and [nasa_id]
    are strings or falsy; its [links], when an array, are links as above. *)
Definition item_ok (item : value) : bool :=
  negb (nullish item)
  && (negb (truthy (meta_of item))
      || (text_or_falsy (get_opt (meta_of item) "title")
          && text_or_falsy (get_opt (meta_of item) "description")
          && text_or_falsy (get_opt (meta_of item) "date_created")
          && text_or_falsy (get_opt (meta_of item) "nasa_id")))
  && match get_opt item "links" with
     | VArr l => forallb link_ok l
     | _ => true
     end.
End NasaShape.

Module NasaPage.
Import Nasa.

(** Controllers are numbered in the order of their creation: the active
    one and the aborted ones exist. *)
Record tidy (p : page) : Prop := mkTidy {
  tidy_inv : inv p;
  tidy_active : forall c, activeController p = Some c -> c < controllers p;
  tidy_aborted : forall c, In c (aborted p) -> c < controllers p;
}.

(** At most [MAX_RESULTS] cards are shown, and none while a request can
    still fulfil. *)
Definition capped (p : page) : Prop :=
  List.length (results p) <= MAX_RESULTS
  /\ (live p <> [] -> results p = []).
End NasaPage.

(** ** Query strings *)

(** The characters that end or split a parameter of a query string. *)
Definition is_delimiter (c : ascii) : bool :=
  Ascii.eqb c "&" || Ascii.eqb c "=" || Ascii.eqb c "?" || Ascii.eqb c "#".

(** ** Lab 3: from the geocoder's answer to the list and the markers *)

(** What the map library does with the coordinates it is handed: it takes
    them, or refuses them with an exception. *)
Class Leaflet : Type := {
  setView_error : num -> num -> option error;
  circleMarker_error : num -> num -> option error;
  marker_error : value -> value -> option error;
}.

Module GeoSearch.
Import Geo.

Definition MSG_NOT_FOUND : string :=
  "Не удалось найти указанный адрес. Попробуйте уточнить запрос.".
Definition MSG_SEARCHING : string := "Ищем достопримечательности поблизости...".
Definition MSG_FOUND : string := "Найдено объектов: ".
Definition MSG_NOTHING : string :=
  "В указанном радиусе ничего не найдено. Попробуйте увеличить радиус или выбрать другой адрес.".
Definition MSG_FAILED : string :=
  "Произошла ошибка при загрузке данных. Попробуйте позже.".
Definition ITEM_EMPTY : string := "Объекты не найдены в указанном радиусе.".
Definition POPUP_CENTER : string := "Искомое местоположение".
Definition DOT : string := " · ".
Definition NL : string := String "010" EmptyString.
Definition QUOTE : string := String "034" EmptyString.

(** *** The Overpass request *)

(** [encodeURIComponent]: letters, digits and [-_.!~*'()] stay. *)
Definition is_uri_unreserved (c : ascii) : bool :=
  let n := nat_of_ascii c in
  ((48 <=? n) && (n <=? 57)) || ((65 <=? n) && (n <=? 90))
  || ((97 <=? n) && (n <=? 122))
  || existsb (Nat.eqb n) [45; 95; 46; 33; 126; 42; 39; 40; 41].

Definition encode_uri_char (c : ascii) : string :=
  let n := nat_of_ascii c in
  if is_uri_unreserved c then String c EmptyString
  else if n <? 128 then percent_byte n
  else percent_byte (192 + n / 64) +:+ percent_byte (128 + n mod 64).

Fixpoint encodeURIComponent (s : string) : string :=
  match s with
  | EmptyString => EmptyString
  | String c rest => encode_uri_char c +:+ encodeURIComponent rest
  end.

Definition TOURISM_FILTER : string :=
  "[" +:+ QUOTE +:+ "tourism" +:+ QUOTE +:+ "~" +:+ QUOTE
  +:+ "^(attraction|museum|art_gallery|zoo|theme_park)$" +:+ QUOTE +:+ "];".

Definition AMENITY_FILTER : string :=
  "[" +:+ QUOTE +:+ "amenity" +:+ QUOTE +:+ "~" +:+ QUOTE
  +:+ "^(theatre|arts_centre)$" +:+ QUOTE +:+ "];".

Definition queryParts (around : string) : list string :=
  ["node(" +:+ around +:+ ")" +:+ TOURISM_FILTER;
   "node(" +:+ around +:+ ")" +:+ AMENITY_FILTER;
   "way(" +:+ around +:+ ")" +:+ TOURISM_FILTER;
   "way(" +:+ around +:+ ")" +:+ AMENITY_FILTER;
   "relation(" +:+ around +:+ ")" +:+ TOURISM_FILTER;
   "relation(" +:+ around +:+ ")" +:+ AMENITY_FILTER].

Section WithEngine.
Context {E : Engine}.

Definition overpassQuery (lat lon radius : num) : string :=
  let around :=
    "around:" +:+ NumberToString radius +:+ "," +:+ NumberToString lat
    +:+ "," +:+ NumberToString lon in
  "[out:json][timeout:25];(" +:+ join EmptyString (queryParts around)
  +:+ ");out center 40;".

Definition endpoint (lat lon radius : num) : string :=
  "https://overpass-api.de/api/interpreter?data="
  +:+ encodeURIComponent (overpassQuery lat lon radius).

(** *** The two fetches, from the settling of [fetch] on *)

(** [data[0]] *)
Definition first_element (data : value) : value :=
  match data with
  | VArr l => hd VUndef l
  | VObj props => default VUndef (assoc "0" props)
  | VStr (String c _) => VStr (String c EmptyString)
  | _ => VUndef
  end.

Definition geocode (r : fetched) : result value :=
  match r with
  | Rejected e => Throw e
  | Responded ok status json =>
      if negb ok then
        Throw (PlainError ("Geocoding failed with status " +:+ Z_to_string status))
      else
        let* data := json in
        let* len := get data "length" in
        let* n := ToNumber len in
        if num_ltb (Fin 0%Q) n then Ok (first_element data)
        else Ok VNull
  end.

Definition fetchPlaces (r : fetched) : result (list place) :=
  match r with
  | Rejected e => Throw e
  | Responded ok status json =>
      if negb ok then
        Throw (PlainError
                 ("Overpass request failed with status " +:+ Z_to_string status))
      else
        let* data := json in
        normalizePlaces data
  end.

(** *** The list of places *)

(** An item of the list: a plain notice, or a place with its name, its
    line of category and coordinates, and its line of address and links
    when there is one. *)
Inductive entry :=
| Notice (text : string)
| PlaceEntry (name meta : string) (tagsLine : option string).

Definition entry_name (item : entry) : string :=
  match item with
  | Notice text => text
  | PlaceEntry name _ _ => name
  end.

(** [element.textContent = v] *)
Definition textContent (v : value) : result string :=
  if nullish v then Ok EmptyString else ToString v.

(** [v.toFixed(5)] *)
Definition toFixed5 (v : value) : result string :=
  match v with
  | VNum n => Ok (toFixed 5 n)
  | VUndef | VNull =>
      Throw (TypeError "Cannot read properties of undefined (reading 'toFixed')")
  | _ => Throw (TypeError "toFixed is not a function")
  end.

Definition place_entry (pl : place) : result entry :=
  let* name := textContent (place_name pl) in
  let* lat := toFixed5 (place_lat pl) in
  let* lon := toFixed5 (place_lon pl) in
  let meta := place_category pl +:+ DOT +:+ lat +:+ ", " +:+ lon in
  let* wikipedia := get (place_tags pl) "wikipedia" in
  let* wikidata := get (place_tags pl) "wikidata" in
  let* texts :=
    mapM ToString
      (filter truthy [VStr (place_address pl); wikipedia; wikidata]) in
  let extra := join DOT texts in
  Ok (PlaceEntry name meta (if str_is_empty extra then None else Some extra)).

(** The items [forEach] appends, one by one, until a place makes the
    callback throw. *)
Fixpoint append_entries (places : list place) (done : list entry)
    : list entry * option error :=
  match places with
  | [] => (done, None)
  | pl :: rest =>
      match place_entry pl with
      | Ok item => append_entries rest (done ++ [item])
      | Throw e => (done, Some e)
      end
  end.

(** [renderPlaces]: the content of the list it leaves and the exception it
    raised, if any. *)
Definition renderPlaces (places : list place) : list entry * option error :=
  if Nat.eqb (List.length places) 0 then ([Notice ITEM_EMPTY], None)
  else append_entries places [].

(** *** The markers *)

Inductive layer :=
| Circle (lat lon : num) (popup : string)
| Marker (lat lon : value) (popup : string).

Definition popup (pl : place) : result string :=
  let* name := ToString (place_name pl) in
  Ok (NL +:+ "        <strong>" +:+ name +:+ "</strong><br />"
      +:+ NL +:+ "        " +:+ place_category pl
      +:+ (if str_is_empty (place_address pl) then EmptyString
           else "<br />" +:+ place_address pl)
      +:+ NL +:+ "      ").

Context {L : Leaflet}.

Fixpoint add_markers (places : list place) (done : list layer)
    : list layer * option error :=
  match places with
  | [] => (done, None)
  | pl :: rest =>
      match marker_error (place_lat pl) (place_lon pl) with
      | Some e => (done, Some e)
      | None =>
          match popup pl with
          | Throw e => (done, Some e)
          | Ok content =>
              add_markers rest
                (done ++ [Marker (place_lat pl) (place_lon pl) content])
          end
      end
  end.

(** [updateMarkers]: the layers it leaves and the exception it raised. *)
Definition updateMarkers (lat lon : num) (places : list place)
    : list layer * option error :=
  match circleMarker_error lat lon with
  | Some e => ([], Some e)
  | None => add_markers places [Circle lat lon POPUP_CENTER]
  end.

(** *** The submit listener after its first await *)

(** An activation waiting for the Overpass answer, with the centre its
    closure holds. *)
Record waiting := mkWaiting {
  w_request : request;
  w_lat : num;
  w_lon : num;
}.

(** The form with its status line, the view of the map, the list, the
    layer of markers, and the activations waiting for Overpass. *)
Record screen := mkScreen {
  form : Geo.page;
  mapView : num * num * Z;
  placesList : list entry;
  layers : list layer;
  overpass : list waiting;
}.

Definition set_form (f : Geo.page) (s : screen) : screen :=
  mkScreen f (mapView s) (placesList s) (layers s) (overpass s).

Definition set_mapView (v : num * num * Z) (s : screen) : screen :=
  mkScreen (form s) v (placesList s) (layers s) (overpass s).

Definition set_placesList (l : list entry) (s : screen) : screen :=
  mkScreen (form s) (mapView s) l (layers s) (overpass s).

Definition set_layers (l : list layer) (s : screen) : screen :=
  mkScreen (form s) (mapView s) (placesList s) l (overpass s).

Definition set_overpass (l : list waiting) (s : screen) : screen :=
  mkScreen (form s) (mapView s) (placesList s) (layers s) l.

Definition set_searches (l : list search) (p : Geo.page) : Geo.page :=
  Geo.mkPage (statusText p) (statusTone p) (submitDisabled p) l.

Definition set_status (message tone : string) (s : screen) : screen :=
  set_form (status message tone (form s)) s.

(** [catch (error) { ... status(..., 'error') }] *)
Definition failed (s : screen) : screen := set_status MSG_FAILED "error" s.

(** [finally { submitButton.disabled = false }] *)
Definition finally (s : screen) : screen :=
  set_form (set_submitDisabled false (form s)) s.

(** The listener of the oldest waiting search, from the settling of the
    geocoder's [fetch] to the call of Overpass's or to its end. *)
Definition on_geocoded (r : fetched) (s : screen) : screen :=
  match searches (form s) with
  | [] => s
  | sr :: rest =>
      let s := set_form (set_searches rest (form s)) s in
      match geocode r with
      | Throw _ => finally (failed s)
      | Ok geocodeResult =>
          if negb (truthy geocodeResult)
          then finally (set_status MSG_NOT_FOUND "error" s)
          else
            match
              (let* lat := get geocodeResult "lat" in
               let* lat := ToNumber lat in
               let* lon := get geocodeResult "lon" in
               let* lon := ToNumber lon in
               Ok (lat, lon))
            with
            | Ok (lat, lon) =>
                match setView_error lat lon with
                | Some _ => finally (failed s)
                | None =>
                    let s := set_mapView (lat, lon, 14%Z) s in
                    let s := set_status MSG_SEARCHING "info" s in
                    set_overpass
                      (overpass s
                       ++ [mkWaiting
                             (GET (endpoint lat lon (search_radius sr)))
                             lat lon]) s
                end
            | Throw _ => finally (failed s)
            end
      end
  end.

(** The same listener from the settling of Overpass's [fetch] to its
    end. *)
Definition on_places (r : fetched) (s : screen) : screen :=
  match overpass s with
  | [] => s
  | w :: rest =>
      let s := set_overpass rest s in
      finally
        (match fetchPlaces r with
        | Throw _ => failed s
        | Ok places =>
            let (items, thrown) := renderPlaces places in
            let s := set_placesList items s in
            match thrown with
            | Some _ => failed s
            | None =>
                let (marks, thrown) := updateMarkers (w_lat w) (w_lon w) places in
                let s := set_layers marks s in
                match thrown with
                | Some _ => failed s
                | None =>
                    if Nat.eqb (List.length places) 0
                    then set_status MSG_NOTHING "warning" s
                    else
                      set_status
                        (MSG_FOUND +:+ nat_to_string (List.length places)
                         +:+ ".") "success" s
                end
            end
         end)
  end.

(** *** The order of the list *)

(** The name of a place as a text (the empty one for a name that cannot
    be converted). *)
Definition name_text (pl : place) : string :=
  match ToString (place_name pl) with
  | Ok name => name
  | Throw _ => EmptyString
  end.

(** The comparator of [fetchPlaces] on places whose names are strings. *)
Definition by_name (a b : place) : num :=
  localeCompare (name_text a) (name_text b).

(** No place stands before one it should come after. *)
Definition in_name_order (l : list place) : Prop :=
  StronglySorted (fun a b => num_sign (by_name a b) <> Gt) l.

(** A collation that is an order: of two texts one is not after the
    other, and not being after is transitive. *)
Definition collation_is_an_order : Prop :=
  (forall a b : string,
     num_sign (localeCompare a b) = Gt -> num_sign (localeCompare b a) <> Gt)
  /\ (forall a b c : string,
        num_sign (localeCompare a b) <> Gt ->
        num_sign (localeCompare b c) <> Gt ->
        num_sign (localeCompare a c) <> Gt).
End WithEngine.

(** A map library that takes whatever it is handed, as a sample. *)
Definition accepting_leaflet : Leaflet := {|
  setView_error _ _ := None;
  circleMarker_error _ _ := None;
  marker_error _ _ := None;
|}.

End GeoSearch.

(** ** Lab 4: the submit listener after its await *)

Module TextFlow.
Import TextLab.

Definition MSG_DONE : string := "Анализ завершён успешно.".
Definition MSG_ANALYSIS_FAILED : string :=
  "Не удалось выполнить анализ. Попробуйте позже.".

(** [Promise.all] of two promises: both values, or the reason of the one
    that rejected first. *)
Definition Promise_all (first_rejects_first : bool) (a b : result value)
    : result (value * value) :=
  match a, b with
  | Ok x, Ok y => Ok (x, y)
  | Throw e, Ok _ => Throw e
  | Ok _, Throw e => Throw e
  | Throw e1, Throw e2 => Throw (if first_rejects_first then e1 else e2)
  end.

(** [catch (error) { showMessage(error.message || ..., true) }] *)
Definition report (e : error) (p : page) : page :=
  showMessage
    (if str_is_empty (err_message e) then MSG_ANALYSIS_FAILED else err_message e)
    true p.

Section Listener.

(** The cells and the chart of the sentiment and the cells of the
    statistics, with what [renderSentiment] and [renderStats] do to them:
    they write nothing else, and what they write is left open here. *)
Variable panel : Type.
Variable renderSentiment : value -> panel -> panel * option error.
Variable renderStats : string -> panel -> panel * option error.

(** The two fetches and the keyword table of the variant. *)
Variable fetchSentiment : fetched -> result value.
Variable fetchKeywords : fetched -> result value.
Variable renderKeywords : value -> page -> result page.

(** The listener from the settling of the two fetches to its end, on the
    text that was submitted. *)
Definition on_replies (sentiment_first : bool) (sentiment keywords : fetched)
    (text : string) (p : page) (d : panel) : page * panel :=
  let (p, d) :=
    match Promise_all sentiment_first
            (fetchSentiment sentiment) (fetchKeywords keywords) with
    | Throw e => (report e p, d)
    | Ok (sentimentData, keywordData) =>
        match renderSentiment sentimentData d with
        | (d, Some e) => (report e p, d)
        | (d, None) =>
            match renderKeywords keywordData p with
            | Throw e => (report e p, d)
            | Ok p =>
                match renderStats text d with
                | (d, Some e) => (report e p, d)
                | (d, None) => (showMessage MSG_DONE false p, d)
                end
            end
        end
    end in
  (toggleLoading false p, d).
End Listener.

Section Variants.
Context {E : Engine}.
Variable panel : Type.
Variable renderSentiment : value -> panel -> panel * option error.
Variable renderStats : string -> panel -> panel * option error.

Definition meaningcloud :=
  on_replies panel renderSentiment renderStats
    MeaningCloudApi.fetchSentiment MeaningCloudApi.fetchTopics
    MeaningCloud.renderKeywords.

Definition twinword :=
  on_replies panel renderSentiment renderStats
    TwinwordApi.fetchSentiment TwinwordApi.fetchKeywords
    Twinword.renderKeywords.
End Variants.
End TextFlow.

(** ** Lab 5: the listener of the metric and period controls *)

Module WeatherEvents.
Import Weather.

Section WithEngine.
Context {E : Engine}.

(** [handleQuickUpdate].  An exception of [updateChart] ends the listener;
    the page stays as [updateChart] left it. *)
Definition handleQuickUpdate (p : page) : page :=
  if Nat.eqb (List.length (lastForecast p)) 0 then p
  else fst (updateChart p).

(** The point of the chart that stands for a forecast entry, within the
    period from [start] to [stop]. *)
Definition point_for (start stop : num) (entry : value) (pt : num * num) : Prop :=
  exists dt seconds,
    get entry "dt" = Ok dt
    /\ ToNumber dt = Ok seconds
    /\ fst pt = num_mul seconds (num_of_Z 1000)
    /\ num_leb start (TimeClip (fst pt)) = true
    /\ num_leb (TimeClip (fst pt)) stop = true.
End WithEngine.
End WeatherEvents.

(** ** More sample inputs *)

Module MoreSamples.

(** Float operations that do not round, for the examples. *)
Definition exact_floats : FloatOps := {|
  divide a b :=
    match a, b with
    | Fin x, Fin y => if Qeq_bool y 0%Q then NaN else Fin (x / y)%Q
    | _, _ => NaN
    end;
  multiply := num_mul;
|}.

(** The place-search screen after the script has run. *)
Definition geo_idle : GeoSearch.screen :=
  GeoSearch.mkScreen Samples.geo_page (num_of_Z 20, num_of_Z 0, 2%Z) [] [] [].

(** The place-search screen after the script has run and a search for
    Oslo was submitted, the list still empty. *)
Definition geo_searching : GeoSearch.screen :=
  GeoSearch.mkScreen
    (@Geo.onSubmit test_engine "Oslo" "1500" Samples.geo_page)
    (num_of_Z 20, num_of_Z 0, 2%Z) [] [] [].

(** What Nominatim answers for it. *)
Definition nominatim_payload : value :=
  VArr [VObj [("lat", VStr "59.9"); ("lon", VStr "10.7");
              ("display_name", VStr "Oslo")]].

(** The screen when the geocoder has answered. *)
Definition geo_waiting : GeoSearch.screen :=
  @GeoSearch.on_geocoded test_engine GeoSearch.accepting_leaflet
    (Responded true 200 (Ok nominatim_payload)) geo_searching.

(** A search item without links and one without metadata. *)
Definition nasa_items : list value :=
  [VObj [("data", VArr [VObj [("title", VStr "Moon"); ("description", VNull)]])];
   VObj [("links", VArr [])]].

(** A Twinword keyword answer that arrived. *)
Definition twinword_reply : fetched :=
  Responded true 200 (Ok Samples.twinword_payload).

(** The weather page while its request waits. *)
Definition weather_waiting : Weather.page :=
  Weather.handleSubmit Samples.weather_page.

End MoreSamples.

(** * Facts about the embedding *)

(** ** Strings *)

Lemma append_nil (b : string) : EmptyString +:+ b = b.
Proof. reflexivity. Qed.

Lemma append_cons (c : ascii) (a b : string) :
  String c a +:+ b = String c (a +:+ b).
Proof. reflexivity. Qed.

Lemma append_assoc (a b c : string) : (a +:+ b) +:+ c = a +:+ (b +:+ c).
Proof.
  induction a as [|ch a IH]; [reflexivity|].
  rewrite !append_cons. now rewrite IH.
Qed.

Lemma append_empty_r (a : string) : a +:+ EmptyString = a.
Proof.
  induction a as [|ch a IH]; [reflexivity|].
  rewrite append_cons. now rewrite IH.
Qed.

Lemma length_append (a b : string) :
  String.length (a +:+ b) = String.length a + String.length b.
Proof.
  induction a as [|ch a IH]; [reflexivity|].
  rewrite append_cons. simpl. now rewrite IH.
Qed.

Lemma append_nonempty (a b : string) : a <> EmptyString -> a +:+ b <> EmptyString.
Proof. destruct a; [congruence|]. rewrite append_cons. discriminate. Qed.

Lemma str_is_empty_true (s : string) : str_is_empty s = true <-> s = EmptyString.
Proof. destruct s; simpl; split; congruence. Qed.

Lemma str_is_empty_false (s : string) : str_is_empty s = false <-> s <> EmptyString.
Proof. destruct s; simpl; split; congruence. Qed.

Lemma length_substring_le (n : nat) (s : string) :
  String.length (String.substring 0 n s) <= n.
Proof.
  revert s; induction n as [|n IH]; intros [|c s]; simpl; try lia.
  specialize (IH s); lia.
Qed.

Lemma length_trimStart_le (s : string) :
  String.length (trimStart s) <= String.length s.
Proof.
  induction s as [|c s IH]; simpl; [lia|].
  destruct (is_js_space c); simpl; lia.
Qed.

Lemma length_trimEnd_le (s : string) :
  String.length (trimEnd s) <= String.length s.
Proof.
  induction s as [|c s IH]; simpl; [lia|].
  destruct (is_js_space c && str_is_empty (trimEnd s)); simpl; lia.
Qed.

Lemma length_trim_le (s : string) : String.length (trim s) <= String.length s.
Proof.
  unfold trim.
  pose proof (length_trimEnd_le (trimStart s)).
  pose proof (length_trimStart_le s). lia.
Qed.

(** ** Numbers *)

Lemma num_leb_of_Z (a b : Z) : num_leb (num_of_Z a) (num_of_Z b) = (a <=? b)%Z.
Proof.
  unfold num_leb, num_of_Z.
  destruct (a <=? b)%Z eqn:H.
  - apply Qle_bool_iff. rewrite <- Zle_Qle. lia.
  - destruct (Qle_bool (inject_Z a) (inject_Z b)) eqn:H'; [|reflexivity].
    apply Qle_bool_iff in H'. rewrite <- Zle_Qle in H'. lia.
Qed.

Lemma slice_prefix (s : string) (n : nat) :
  n <= String.length s ->
  slice s 0 (Z.of_nat n) = String.substring 0 n s.
Proof.
  intros H. unfold slice.
  replace (0 <? 0)%Z with false by reflexivity.
  destruct (Z.of_nat n <? 0)%Z eqn:Hneg; [lia|].
  rewrite Z.min_l by lia. rewrite Z.min_l by lia.
  rewrite Z.sub_0_r, Z.max_l by lia.
  now rewrite Nat2Z.id.
Qed.

(** ** Lists *)

Lemma NoDup_snoc {A : Type} (l : list A) (x : A) :
  NoDup l -> ~ In x l -> NoDup (l ++ [x]).
Proof.
  induction l as [|y l IH]; intros Hnd Hx; cbn.
  - constructor; [tauto | constructor].
  - inversion Hnd; subst. constructor.
    + intros Hin. apply in_app_or in Hin as [Hin|[<-|[]]]; [tauto|].
      apply Hx. now left.
    + apply IH; [assumption|]. intros Hin. apply Hx. now right.
Qed.

(** ** Conversions *)

Lemma value_nested_ind (P : value -> Prop) :
  P VUndef -> P VNull -> (forall b, P (VBool b)) -> (forall n, P (VNum n)) ->
  (forall s, P (VStr s)) ->
  (forall items, Forall P items -> P (VArr items)) ->
  (forall props, P (VObj props)) ->
  forall v, P v.
Proof.
  intros Hu Hn Hb Hnum Hs Ha Ho. fix IH 1.
  intros [| |b|n|s|items|props];
    [exact Hu | exact Hn | apply Hb | apply Hnum | apply Hs | | apply Ho].
  apply Ha. induction items as [|x rest IHrest]; constructor.
  - apply IH.
  - exact IHrest.
Qed.

Section ConversionFacts.
Context {E : Engine}.

Lemma mapM_returns_iff {A B : Type} (f : A -> result B) (l : list A) :
  (exists ys, mapM f l = Ok ys) <-> Forall (fun x => exists y, f x = Ok y) l.
Proof.
  induction l as [|x l IH]; cbn.
  - split; [constructor | eauto].
  - split.
    + intros [ys H]. destruct (f x) as [y|e] eqn:Hx; cbn in H; [|discriminate].
      destruct (mapM f l) as [ys'|e]; cbn in H; [|discriminate].
      constructor; [eauto | apply IH; eauto].
    + intros H. inversion H as [|? ? [y Hy] Hl]; subst.
      apply IH in Hl as [ys Hys]. rewrite Hy, Hys. cbn. eauto.
Qed.

(** [String] converts exactly the printable values. *)
Lemma ToString_returns_iff (v : value) :
  (exists s, ToString v = Ok s) <-> printable v = true.
Proof.
  induction v as [| |b|n|s|items IH|props] using value_nested_ind;
    cbn [ToString printable]; try (split; eauto; fail).
  - destruct b; split; eauto.
  - transitivity (exists parts,
                    mapM (fun x => if nullish x then Ok EmptyString else ToString x)
                      items = Ok parts).
    + split.
      * intros [s H].
        destruct (mapM _ items) as [parts|e]; cbn in H; [eauto | discriminate].
      * intros [parts ->]. cbn. eauto.
    + rewrite mapM_returns_iff, forallb_forall, Forall_forall.
      rewrite Forall_forall in IH.
      split; intros H x Hx.
      * apply IH; [exact Hx|]. destruct (H x Hx) as [y Hy].
        destruct x; cbn in Hy; eauto.
      * destruct (nullish x) eqn:Hn; [eauto|]. apply IH; auto.
  - destruct (assoc "toString" props); split; eauto; try discriminate.
    intros [s H]. discriminate.
Qed.

(** The only exception of the conversion. *)
Lemma ToString_throws (v : value) (e : error) :
  ToString v = Throw e ->
  e = TypeError "Cannot convert object to primitive value".
Proof.
  revert e.
  induction v as [| |b|n|s|items IH|props] using value_nested_ind;
    intros e; cbn [ToString]; try discriminate.
  - destruct b; discriminate.
  - intros H.
    destruct (mapM (fun x => if nullish x then Ok EmptyString else ToString x) items)
      as [parts|e'] eqn:Hm; cbn [bind] in H; [discriminate|].
    injection H as <-. clear - IH Hm. revert Hm.
    induction IH as [|x rest Hx _ IHrest]; cbn [mapM]; [discriminate|].
    destruct (nullish x); cbn [bind].
    + destruct (mapM _ rest); cbn [bind]; [discriminate|].
      intros H. injection H as <-. now apply IHrest.
    + destruct (ToString x) as [y|ex] eqn:Hy; cbn [bind].
      * destruct (mapM _ rest); cbn [bind]; [discriminate|].
        intros H. injection H as <-. now apply IHrest.
      * intros H. injection H as <-. now apply Hx.
  - destruct (assoc "toString" props); [|discriminate].
    intros H. now injection H as <-.
Qed.

Lemma printable_ToString (v : value) :
  printable v = true -> exists s, ToString v = Ok s.
Proof. apply ToString_returns_iff. Qed.

Lemma ToString_printable (v : value) (s : string) :
  ToString v = Ok s -> printable v = true.
Proof. intros H. apply ToString_returns_iff. eauto. Qed.

(** [Number] converts the same values. *)
Lemma ToNumber_returns_iff (v : value) :
  (exists n, ToNumber v = Ok n) <-> printable v = true.
Proof.
  destruct v as [| |b|n|s|items|props];
    try (cbn; split; eauto; fail).
  - destruct b; cbn; split; eauto.
  - rewrite <- ToString_returns_iff. unfold ToNumber. split.
    + intros [n H]. destruct (ToString (VArr items)); [eauto | discriminate].
    + intros [s ->]. cbn. eauto.
  - rewrite <- ToString_returns_iff. unfold ToNumber. split.
    + intros [n H]. destruct (ToString (VObj props)); [eauto | discriminate].
    + intros [s ->]. cbn. eauto.
Qed.

Lemma printable_ToNumber (v : value) :
  printable v = true -> exists n, ToNumber v = Ok n.
Proof. apply ToNumber_returns_iff. Qed.

Lemma printable_number_or_zero (v : value) :
  printable v = true -> exists n, number_or_zero v = Ok n.
Proof.
  intros H. unfold number_or_zero.
  destruct (printable_ToNumber v H) as [n ->]. cbn. eauto.
Qed.

(** A value that is not an object or an array is always converted. *)
Lemma text_printable (v : value) :
  match v with VArr _ | VObj _ => False | _ => True end -> printable v = true.
Proof. destruct v; cbn; tauto. Qed.

(** The values of a list of printable properties are printable, also the
    [undefined] of a missing one. *)
Lemma assoc_printable (k : string) (props : list (string * value)) :
  forallb (fun kv => printable (snd kv)) props = true ->
  printable (default VUndef (assoc k props)) = true.
Proof.
  induction props as [|[k' v] props IH]; cbn; [reflexivity|].
  intros H. apply andb_true_iff in H as [Hv Hr].
  destruct (String.eqb k k'); [exact Hv | now apply IH].
Qed.
End ConversionFacts.

(** ** Lab 1: truncation of descriptions *)

Section NasaTruncate.
Context {E : Engine}.

Lemma truncate_falsy (text : value) (limit : Z) :
  truthy text = false ->
  Nasa.truncate text limit = Ok (VStr Nasa.MSG_NO_DESCRIPTION).
Proof. intros H. unfold Nasa.truncate. now rewrite H. Qed.

Lemma truncate_string (s : string) :
  Nasa.truncate (VStr s) 200 =
  Ok (VStr (if str_is_empty s then Nasa.MSG_NO_DESCRIPTION
            else if String.length s <=? 200 then s
            else trim (slice s 0 199) +:+ "...")).
Proof.
  unfold Nasa.truncate. cbn [truthy]. destruct (str_is_empty s) eqn:Hs.
  - reflexivity.
  - change (get (VStr s) "length")
      with (Ok (VNum (num_of_nat (String.length s)))).
    cbn [negb bind ToNumber]. unfold num_of_nat. rewrite num_leb_of_Z.
    destruct (String.length s <=? 200) eqn:Hl.
    + apply Nat.leb_le in Hl.
      destruct (Z.of_nat (String.length s) <=? 200)%Z eqn:Hz; [reflexivity | lia].
    + apply Nat.leb_gt in Hl.
      destruct (Z.of_nat (String.length s) <=? 200)%Z eqn:Hz; [lia | reflexivity].
Qed.
End NasaTruncate.

Lemma trimEnd_idempotent (s : string) : trimEnd (trimEnd s) = trimEnd s.
Proof.
  induction s as [|c rest IH]; [reflexivity|]. cbn [trimEnd].
  destruct (is_js_space c && str_is_empty (trimEnd rest)) eqn:Hc; [reflexivity|].
  cbn [trimEnd]. now rewrite IH, Hc.
Qed.

Lemma trimStart_cases (s : string) :
  trimStart s = EmptyString
  \/ exists c rest, trimStart s = String c rest /\ is_js_space c = false.
Proof.
  induction s as [|c rest IH]; [now left|]. cbn [trimStart].
  destruct (is_js_space c) eqn:Hc; [exact IH|]. right. eauto.
Qed.

(** What [trim] returns has no white space left around it. *)
Lemma trim_idempotent (s : string) : trim (trim s) = trim s.
Proof.
  unfold trim. destruct (trimStart_cases s) as [->|(c & rest & -> & Hc)];
    [reflexivity|].
  cbn [trimEnd]. rewrite Hc. cbn [andb trimStart]. rewrite Hc.
  cbn [trimEnd]. rewrite Hc. cbn [andb]. now rewrite trimEnd_idempotent.
Qed.

(** C9, as amended.  Long descriptions are cut to a budget of 200 characters,
    the cut ending at a word boundary where it falls on white space.  An
    empty description is replaced by the placeholder; a text that is not
    empty and has at most 200 characters is returned unchanged; of a longer
    text the first 199 characters are kept, trimmed of the white space
    around them, so that what is kept of the text is within the budget, and
    the ellipsis marker follows. *)
Theorem truncate_budget (E : Engine) (s : string) :
  (s = EmptyString ->
     Nasa.truncate (VStr s) 200 = Ok (VStr Nasa.MSG_NO_DESCRIPTION))
  /\ (s <> EmptyString -> String.length s <= 200 ->
        Nasa.truncate (VStr s) 200 = Ok (VStr s))
  /\ (200 < String.length s ->
        exists kept : string,
          Nasa.truncate (VStr s) 200 = Ok (VStr (kept +:+ "..."))
          /\ kept = trim (String.substring 0 199 s)
          /\ String.length kept <= 199
          /\ trim kept = kept).
Proof.
  rewrite truncate_string. repeat split.
  - intros ->. reflexivity.
  - intros Hne Hlen. apply str_is_empty_false in Hne. rewrite Hne.
    apply Nat.leb_le in Hlen. now rewrite Hlen.
  - intros Hlen. exists (trim (String.substring 0 199 s)).
    assert (Hne : str_is_empty s = false) by (destruct s; simpl in *; [lia | reflexivity]).
    assert (Hl : (String.length s <=? 200) = false) by (apply Nat.leb_gt; lia).
    rewrite Hne, Hl.
    change 199%Z with (Z.of_nat 199). rewrite slice_prefix by lia.
    assert (Hk : String.length (trim (String.substring 0 199 s)) <= 199).
    { pose proof (length_trim_le (String.substring 0 199 s)).
      pose proof (length_substring_le 199 s). lia. }
    split; [reflexivity|]. split; [reflexivity|]. split; [exact Hk|].
    apply trim_idempotent.
Qed.

Lemma truncate_budget_witness :
  @Nasa.truncate test_engine (VStr EmptyString) 200
  = Ok (VStr Nasa.MSG_NO_DESCRIPTION)
  /\ @Nasa.truncate test_engine (VStr "Apollo 11") 200 = Ok (VStr "Apollo 11")
  /\ exists kept : string,
       @Nasa.truncate test_engine (VStr Samples.long_text) 200
       = Ok (VStr (kept +:+ "..."))
       /\ String.length kept <= 199
       /\ trim kept = kept.
Proof.
  split.
  { apply (proj1 (truncate_budget test_engine EmptyString)). reflexivity. }
  split.
  { apply (proj1 (proj2 (truncate_budget test_engine "Apollo 11"))).
    - discriminate.
    - simpl. lia. }
  destruct (proj2 (proj2 (truncate_budget test_engine Samples.long_text)))
    as (kept & Hk & _ & Hlen & Htrim).
  { apply Nat.ltb_lt. vm_compute. reflexivity. }
  exists kept. split; [exact Hk|]. split; [exact Hlen | exact Htrim].
Defined.

(** C9 as stated fails on the empty text: it is within the budget and is
    not returned unchanged. *)
Lemma truncate_empty_text_replaced :
  String.length EmptyString <= 200
  /\ @Nasa.truncate test_engine (VStr EmptyString) 200 <> Ok (VStr EmptyString).
Proof. split; [simpl; lia | discriminate]. Qed.

(** The marker comes after the 199 kept characters: a text of 201
    characters without white space gives 202. *)
Example truncate_marker_after_kept :
  exists s r,
    String.length s = 201
    /\ @Nasa.truncate test_engine (VStr s) 200 = Ok (VStr r)
    /\ String.length r = 202.
Proof.
  exists Samples.long_text. eexists.
  split; [reflexivity|]. split; [vm_compute; reflexivity | reflexivity].
Qed.

(** ** Lab 1: validation, the year filter, cancelled requests *)

Lemma nasa_handleSubmit_empty_query (p : Nasa.page) (searchValue mediaType yearValue : string) :
  trim searchValue = EmptyString ->
  Nasa.handleSubmit searchValue mediaType yearValue p
  = Nasa.set_status Nasa.MSG_ENTER_QUERY p.
Proof. intros H. unfold Nasa.handleSubmit. now rewrite H. Qed.

Lemma nasa_handleSubmit_bad_year (p : Nasa.page) (searchValue mediaType yearValue : string) :
  trim searchValue <> EmptyString ->
  Nasa.check_year (trim yearValue) = None ->
  Nasa.handleSubmit searchValue mediaType yearValue p
  = Nasa.focus_year (Nasa.set_status Nasa.MSG_BAD_YEAR p).
Proof.
  intros Hq Hy. unfold Nasa.handleSubmit.
  apply str_is_empty_false in Hq. now rewrite Hq, Hy.
Qed.

(** What a submission that passes validation does to the page. *)
Lemma nasa_handleSubmit_valid (p : Nasa.page) (searchValue mediaType yearValue year : string) :
  trim searchValue <> EmptyString ->
  Nasa.check_year (trim yearValue) = Some year ->
  Nasa.handleSubmit searchValue mediaType yearValue p
  = Nasa.mkPage Nasa.MSG_LOADING [] (Nasa.yearFocused p)
      (Some (Nasa.controllers p)) (S (Nasa.controllers p))
      (match Nasa.activeController p with
       | Some c => c :: Nasa.aborted p
       | None => Nasa.aborted p
       end)
      (Nasa.inflight p ++
       [Nasa.mkActivation (Nasa.controllers p)
          (GET (Nasa.buildQuery (trim searchValue) mediaType year))
          Nasa.AwaitFetch]).
Proof.
  intros Hq Hy. unfold Nasa.handleSubmit.
  apply str_is_empty_false in Hq. rewrite Hq, Hy.
  destruct (Nasa.activeController p); reflexivity.
Qed.

Lemma buildQuery_with_year (query mediaType year : string) :
  year <> EmptyString ->
  Nasa.buildQuery query mediaType year
  = Nasa.API_ENDPOINT +:+ "?q=" +:+ urlencode query
    +:+ "&page=1&media_type="
    +:+ urlencode (if String.eqb mediaType "all" then "image,video" else mediaType)
    +:+ "&year_start=" +:+ urlencode year +:+ "&year_end=" +:+ urlencode year.
Proof.
  intros Hy. apply str_is_empty_false in Hy.
  unfold Nasa.buildQuery. rewrite Hy. cbn [negb].
  cbn [params_set String.eqb Ascii.eqb Bool.eqb filter fst snd negb].
  unfold params_toString. cbn [map join fst snd].
  change (urlencode "q") with "q".
  change (urlencode "page") with "page".
  change (urlencode "1") with "1".
  change (urlencode "media_type") with "media_type".
  change (urlencode "year_start") with "year_start".
  change (urlencode "year_end") with "year_end".
  rewrite ?append_assoc. reflexivity.
Qed.

(** C6.  With a query typed in, the year 1850 is refused with the year
    message and no request leaves; the year 2020 passes and the request sent
    carries it in both [year_start] and [year_end]. *)
Theorem year_filter_1850_and_2020
    (p : Nasa.page) (searchValue mediaType : string) :
  trim searchValue <> EmptyString ->
  (let p' := Nasa.handleSubmit searchValue mediaType "1850" p in
   Nasa.statusText p' = Nasa.MSG_BAD_YEAR
   /\ Nasa.inflight p' = Nasa.inflight p
   /\ Nasa.activeController p' = Nasa.activeController p
   /\ Nasa.aborted p' = Nasa.aborted p
   /\ Nasa.results p' = Nasa.results p)
  /\ (let p' := Nasa.handleSubmit searchValue mediaType "2020" p in
      exists url : string,
        Nasa.inflight p'
        = Nasa.inflight p
          ++ [Nasa.mkActivation (Nasa.controllers p) (GET url) Nasa.AwaitFetch]
        /\ url = Nasa.buildQuery (trim searchValue) mediaType "2020"
        /\ url = Nasa.API_ENDPOINT +:+ "?q=" +:+ urlencode (trim searchValue)
                 +:+ "&page=1&media_type="
                 +:+ urlencode (if String.eqb mediaType "all"
                                then "image,video" else mediaType)
                 +:+ "&year_start=2020&year_end=2020").
Proof.
  intros Hq. split.
  - rewrite (nasa_handleSubmit_bad_year p searchValue mediaType "1850" Hq)
      by reflexivity.
    cbn. repeat split; reflexivity.
  - rewrite (nasa_handleSubmit_valid p searchValue mediaType "2020" "2020" Hq)
      by reflexivity.
    cbn zeta. eexists. split; [reflexivity|]. split; [reflexivity|].
    rewrite buildQuery_with_year by discriminate.
    change (urlencode "2020") with "2020".
    rewrite ?append_assoc. reflexivity.
Qed.

Lemma year_filter_1850_and_2020_witness :
  Nasa.statusText (Nasa.handleSubmit "apollo" "image" "1850" Nasa.initial)
  = Nasa.MSG_BAD_YEAR
  /\ exists url : string,
       Nasa.inflight (Nasa.handleSubmit "apollo" "image" "2020" Nasa.initial)
       = [Nasa.mkActivation 0 (GET url) Nasa.AwaitFetch]
       /\ url = "https://images-api.nasa.gov/search?q=apollo&page=1&media_type=image&year_start=2020&year_end=2020".
Proof.
  assert (Hq : trim "apollo" <> EmptyString) by discriminate.
  destruct (year_filter_1850_and_2020 Nasa.initial "apollo" "image" Hq)
    as [[Hs _] [url [Hi [_ Hu]]]].
  split; [exact Hs|]. exists url. split; [exact Hi | exact Hu].
Defined.

(** The year filter in general: exactly the years 1920 to 2100 pass. *)
Lemma check_year_range (rawYear : string) (y : Z) :
  rawYear <> EmptyString ->
  parseInt rawYear = Some y ->
  Nasa.check_year rawYear
  = if ((1920 <=? y) && (y <=? 2100))%Z then Some (Z_to_string y) else None.
Proof.
  intros Hne Hp. apply str_is_empty_false in Hne.
  unfold Nasa.check_year. rewrite Hne, Hp. cbn [negb].
  destruct (y <? 1920)%Z eqn:H1, (2100 <? y)%Z eqn:H2,
           (1920 <=? y)%Z eqn:H3, (y <=? 2100)%Z eqn:H4; simpl; try reflexivity; lia.
Qed.

(** C8.  [handleError] returns without touching the page when the error is
    an [AbortError]; in the event loop, the rejection of a request whose
    signal was aborted is such an error, and leaves the status text and the
    results as they were. *)
Theorem cancelled_fetch_is_silent (E : Engine) (p : Nasa.page) :
  (forall error : error,
     err_name error = "AbortError" -> Nasa.handleError error p = p)
  /\ (forall (signal : nat) (e : error) (p' : Nasa.page),
        Nasa.is_aborted signal p = true ->
        Nasa.step p (Nasa.FetchRejected signal e) = Some p'
        \/ Nasa.step p (Nasa.JsonRejected signal e) = Some p' ->
        err_name e = "AbortError"
        /\ Nasa.statusText p' = Nasa.statusText p
        /\ Nasa.results p' = Nasa.results p).
Proof.
  split.
  - intros error H. unfold Nasa.handleError. now rewrite H.
  - intros signal e p' Hab Hstep.
    assert (Hgen : forall st,
      match Nasa.take_activation signal st (Nasa.inflight p) with
      | Some (_, rest) =>
          if Nasa.rejection_allowed signal e p
          then Some (Nasa.handleError e (Nasa.set_inflight rest p)) else None
      | None => None
      end = Some p' ->
      err_name e = "AbortError"
      /\ Nasa.statusText p' = Nasa.statusText p
      /\ Nasa.results p' = Nasa.results p).
    { intros st H.
      destruct (Nasa.take_activation signal st (Nasa.inflight p)) as [[a rest]|];
        [|discriminate].
      unfold Nasa.rejection_allowed in H. rewrite Hab in H.
      destruct (String.eqb (err_name e) "AbortError") eqn:Hn; simpl in H;
        [|discriminate].
      injection H as <-. unfold Nasa.handleError. rewrite Hn.
      apply String.eqb_eq in Hn. repeat split; [exact Hn]. }
    destruct Hstep as [H|H]; simpl in H; eapply Hgen; exact H.
Qed.

Lemma cancelled_fetch_is_silent_witness :
  Nasa.handleError AbortError Samples.nasa_loading = Samples.nasa_loading
  /\ forall p' : Nasa.page,
       @Nasa.step test_engine
         (Nasa.handleSubmit "moon" "all" EmptyString Samples.nasa_loading)
         (Nasa.FetchRejected 0 AbortError) = Some p' ->
       Nasa.statusText p' = Nasa.MSG_LOADING.
Proof.
  split.
  { apply (proj1 (cancelled_fetch_is_silent test_engine Samples.nasa_loading)).
    reflexivity. }
  intros p' Hstep.
  destruct (proj2 (cancelled_fetch_is_silent test_engine
                     (Nasa.handleSubmit "moon" "all" EmptyString
                        Samples.nasa_loading))
              0 AbortError p' eq_refl (or_introl Hstep)) as (_ & Hs & _).
  exact Hs.
Defined.

(** ** Empty required fields: no network call, a validation message *)

Lemma weather_handleSubmit_empty (p : Weather.page) :
  trim (Weather.apiKeyInput p) = EmptyString
  \/ trim (Weather.cityInput p) = EmptyString ->
  Weather.handleSubmit p
  = Weather.renderStatus Weather.MSG_ENTER_KEY_AND_CITY true false p.
Proof.
  intros H. unfold Weather.handleSubmit.
  destruct H as [H|H]; rewrite H; simpl;
    [reflexivity | now rewrite orb_true_r].
Qed.

(** The handlers do send when the fields are filled in. *)
Lemma weather_handleSubmit_sends (p : Weather.page) :
  trim (Weather.apiKeyInput p) <> EmptyString ->
  trim (Weather.cityInput p) <> EmptyString ->
  Weather.inflight (Weather.handleSubmit p)
  = Weather.inflight p
    ++ [Weather.mkActivation
          (GET (Weather.forecast_url (trim (Weather.cityInput p))
                  (trim (Weather.apiKeyInput p))))
          (trim (Weather.apiKeyInput p)) (trim (Weather.cityInput p))].
Proof.
  intros Hk Hc. unfold Weather.handleSubmit.
  apply str_is_empty_false in Hk, Hc. rewrite Hk, Hc. reflexivity.
Qed.

Lemma geo_onSubmit_sends (E : Engine) (p : Geo.page) (queryValue radiusValue : string) :
  trim queryValue <> EmptyString ->
  exists radius,
    Geo.searches (Geo.onSubmit queryValue radiusValue p)
    = Geo.searches p ++ [Geo.mkSearch (Geo.geocode_request (trim queryValue)) radius].
Proof.
  intros Hq. unfold Geo.onSubmit. apply str_is_empty_false in Hq. rewrite Hq.
  eexists. reflexivity.
Qed.

Lemma meaningcloud_onSubmit_sends (p : TextLab.page) (apiKeyValue language textValue : string) :
  trim textValue <> EmptyString ->
  trim apiKeyValue <> EmptyString ->
  TextLab.sent (MeaningCloud.onSubmit apiKeyValue language textValue p)
  = TextLab.sent p
    ++ [MeaningCloud.sentiment_request (trim apiKeyValue) language (trim textValue);
        MeaningCloud.topics_request (trim apiKeyValue) language (trim textValue)].
Proof.
  intros Ht Hk. unfold MeaningCloud.onSubmit.
  apply str_is_empty_false in Ht, Hk. rewrite Ht, Hk. simpl.
  now rewrite <- app_assoc.
Qed.

(** C5.  In each lab, when the required query field is empty (or only white
    space), the submit handler sends nothing and writes its validation
    message into the status text. *)
Theorem empty_query_sends_nothing (E : Engine) :
  (forall (p : Nasa.page) (searchValue mediaType yearValue : string),
     trim searchValue = EmptyString ->
     let p' := Nasa.handleSubmit searchValue mediaType yearValue p in
     Nasa.inflight p' = Nasa.inflight p
     /\ Nasa.aborted p' = Nasa.aborted p
     /\ Nasa.statusText p' = Nasa.MSG_ENTER_QUERY)
  /\ (forall (p : Geo.page) (queryValue radiusValue : string),
        trim queryValue = EmptyString ->
        let p' := Geo.onSubmit queryValue radiusValue p in
        Geo.searches p' = Geo.searches p
        /\ Geo.statusText p' = Geo.MSG_ENTER_ADDRESS
        /\ Geo.statusTone p' = "error")
  /\ (forall p : Weather.page,
        trim (Weather.cityInput p) = EmptyString
        \/ trim (Weather.apiKeyInput p) = EmptyString ->
        let p' := Weather.handleSubmit p in
        Weather.inflight p' = Weather.inflight p
        /\ Weather.statusText p' = Weather.MSG_ENTER_KEY_AND_CITY
        /\ Weather.statusColor p' = Weather.COLOR_ERROR)
  /\ (forall (p : TextLab.page) (apiKeyValue language textValue : string),
        trim textValue = EmptyString ->
        let p' := MeaningCloud.onSubmit apiKeyValue language textValue p in
        TextLab.sent p' = TextLab.sent p
        /\ TextLab.messageText p' = TextLab.MSG_ENTER_TEXT
        /\ TextLab.messageError p' = true)
  /\ (forall (p : TextLab.page) (apiKeyValue textValue : string),
        trim textValue = EmptyString ->
        let p' := Twinword.onSubmit apiKeyValue textValue p in
        TextLab.sent p' = TextLab.sent p
        /\ TextLab.messageText p' = TextLab.MSG_ENTER_TEXT
        /\ TextLab.messageError p' = true).
Proof.
  repeat split.
  - rewrite nasa_handleSubmit_empty_query by assumption. reflexivity.
  - rewrite nasa_handleSubmit_empty_query by assumption. reflexivity.
  - rewrite nasa_handleSubmit_empty_query by assumption. reflexivity.
  - unfold Geo.onSubmit. rewrite H. reflexivity.
  - unfold Geo.onSubmit. rewrite H. reflexivity.
  - unfold Geo.onSubmit. rewrite H. reflexivity.
  - rewrite weather_handleSubmit_empty by tauto. reflexivity.
  - rewrite weather_handleSubmit_empty by tauto. reflexivity.
  - rewrite weather_handleSubmit_empty by tauto. reflexivity.
  - unfold MeaningCloud.onSubmit. rewrite H. reflexivity.
  - unfold MeaningCloud.onSubmit. rewrite H. reflexivity.
  - unfold MeaningCloud.onSubmit. rewrite H. reflexivity.
  - unfold Twinword.onSubmit. rewrite H. reflexivity.
  - unfold Twinword.onSubmit. rewrite H. reflexivity.
  - unfold Twinword.onSubmit. rewrite H. reflexivity.
Qed.

Lemma empty_query_sends_nothing_witness :
  (Nasa.inflight (Nasa.handleSubmit "   " "image" "2020" Samples.nasa_loading)
   = Nasa.inflight Samples.nasa_loading
   /\ Nasa.statusText (Nasa.handleSubmit "   " "image" "2020" Samples.nasa_loading)
      = Nasa.MSG_ENTER_QUERY)
  /\ (Geo.searches (@Geo.onSubmit test_engine EmptyString "500" Samples.geo_page)
      = Geo.searches Samples.geo_page
      /\ Geo.statusText (@Geo.onSubmit test_engine EmptyString "500" Samples.geo_page)
         = Geo.MSG_ENTER_ADDRESS)
  /\ (Weather.inflight (Weather.handleSubmit Samples.weather_page_no_city)
      = Weather.inflight Samples.weather_page_no_city
      /\ Weather.statusText (Weather.handleSubmit Samples.weather_page_no_city)
         = Weather.MSG_ENTER_KEY_AND_CITY)
  /\ (TextLab.sent (MeaningCloud.onSubmit "KEY" "en" "  " Samples.text_page)
      = TextLab.sent Samples.text_page
      /\ TextLab.messageText (MeaningCloud.onSubmit "KEY" "en" "  " Samples.text_page)
         = TextLab.MSG_ENTER_TEXT)
  /\ (TextLab.sent (Twinword.onSubmit "KEY" EmptyString Samples.text_page)
      = TextLab.sent Samples.text_page
      /\ TextLab.messageText (Twinword.onSubmit "KEY" EmptyString Samples.text_page)
         = TextLab.MSG_ENTER_TEXT).
Proof.
  destruct (empty_query_sends_nothing test_engine) as (Hn & Hg & Hw & Hm & Ht).
  split.
  { destruct (Hn Samples.nasa_loading "   " "image" "2020" eq_refl)
      as (H1 & _ & H2).
    split; [exact H1 | exact H2]. }
  split.
  { destruct (Hg Samples.geo_page EmptyString "500" eq_refl) as (H1 & H2 & _).
    split; [exact H1 | exact H2]. }
  split.
  { destruct (Hw Samples.weather_page_no_city (or_introl eq_refl))
      as (H1 & H2 & _).
    split; [exact H1 | exact H2]. }
  split.
  { destruct (Hm Samples.text_page "KEY" "en" "  " eq_refl) as (H1 & H2 & _).
    split; [exact H1 | exact H2]. }
  destruct (Ht Samples.text_page "KEY" EmptyString eq_refl) as (H1 & H2 & _).
  split; [exact H1 | exact H2].
Defined.

(** ** Lab 1: at most one live request *)

Section SingleFlight.
Context {E : Engine}.
Import Nasa.

Lemma inv_initial : inv initial.
Proof. split; simpl; [tauto | constructor | tauto]. Qed.

Lemma is_aborted_cons (c s : nat) (p : page) :
  is_aborted s (abort c p) = Nat.eqb s c || is_aborted s p.
Proof. reflexivity. Qed.

Lemma handleError_frame (e : error) (p : page) :
  results (handleError e p) = results p
  /\ activeController (handleError e p) = activeController p
  /\ controllers (handleError e p) = controllers p
  /\ aborted (handleError e p) = aborted p
  /\ inflight (handleError e p) = inflight p.
Proof.
  unfold handleError. destruct (String.eqb (err_name e) "AbortError");
    repeat split; reflexivity.
Qed.

(** What [show_payload] under [try]/[catch] leaves: the results grow by the
    cards of the payload, or stay. *)
Lemma try_catch_show_payload (payload : value) (p : page) :
  let p' := try_catch (show_payload payload) p in
  activeController p' = activeController p
  /\ controllers p' = controllers p
  /\ aborted p' = aborted p
  /\ inflight p' = inflight p
  /\ (results p' = results p
      \/ exists cards, payload_cards payload = Ok cards
                       /\ results p' = results p ++ cards).
Proof.
  unfold try_catch, show_payload, payload_cards.
  destruct (payload_items payload) as [[items total]|e]; cbn [bind].
  - destruct (Nat.eqb (List.length items) 0).
    + cbn. repeat split; try reflexivity. now left.
    + destruct (ToString total) as [shown|e].
      2:{ destruct (handleError_frame e p) as (H1 & H2 & H3 & H4 & H5).
          rewrite H1, H2, H3, H4, H5. repeat split; try reflexivity. now left. }
      unfold renderItems.
      destruct (build_cards (firstn MAX_RESULTS items)) as [cards|e]; cbn [bind].
      * cbn. repeat split; try reflexivity. right. now exists cards.
      * destruct (handleError_frame e (set_status (MSG_FOUND +:+ shown) p))
          as (H1 & H2 & H3 & H4 & H5).
        rewrite H1, H2, H3, H4, H5. cbn. repeat split; try reflexivity. now left.
  - destruct (handleError_frame e p) as (H1 & H2 & H3 & H4 & H5).
    rewrite H1, H2, H3, H4, H5. repeat split; try reflexivity. now left.
Qed.

Lemma take_activation_spec (signal : nat) (st : stage) (l : list activation)
    (a : activation) (rest : list activation) :
  take_activation signal st l = Some (a, rest) ->
  Permutation l (a :: rest) /\ act_signal a = signal /\ act_stage a = st.
Proof.
  revert a rest. induction l as [|b l IH]; intros a rest H; simpl in H;
    [discriminate|].
  destruct (Nat.eqb (act_signal b) signal) eqn:Hb.
  - apply Nat.eqb_eq in Hb.
    destruct (act_stage b) eqn:Hs, st; try discriminate;
      injection H as <- <-; repeat split; auto.
  - destruct (take_activation signal st l) as [[c rest']|]; [|discriminate].
    injection H as <- <-.
    destruct (IH c rest' eq_refl) as (HP & Hc & Hst).
    repeat split; auto.
    rewrite HP. apply perm_swap.
Qed.

(** A page that differs from [p] only in its waiting activations, status
    and results, the activations being among those of [p] up to their
    stage. *)
Lemma inv_shrink (p p' : page) :
  inv p ->
  activeController p' = activeController p ->
  controllers p' = controllers p ->
  aborted p' = aborted p ->
  (forall a, In a (inflight p') ->
     exists b, In b (inflight p) /\ act_signal b = act_signal a) ->
  NoDup (map act_signal (inflight p')) ->
  inv p'.
Proof.
  intros [Hb Hn Ha] Hac Hc Hab Hsub Hnd. split.
  - intros a Hin. destruct (Hsub a Hin) as (b & Hbin & <-).
    rewrite Hc. auto.
  - exact Hnd.
  - intros a Hin Hna. destruct (Hsub a Hin) as (b & Hbin & Heq).
    rewrite Hac, <- Heq. apply Ha; [exact Hbin|].
    rewrite Heq. unfold is_aborted in *. now rewrite <- Hab.
Qed.

Lemma NoDup_signals_rest (l : list activation) (a : activation) (rest : list activation) :
  Permutation l (a :: rest) ->
  NoDup (map act_signal l) ->
  NoDup (map act_signal rest) /\ ~ In (act_signal a) (map act_signal rest).
Proof.
  intros HP Hnd.
  assert (H : NoDup (map act_signal (a :: rest))).
  { eapply Permutation_NoDup; [|exact Hnd]. now apply Permutation_map. }
  inversion H; subst. split; assumption.
Qed.

Lemma inv_submit (q m y : string) (p : page) : inv p -> inv (handleSubmit q m y p).
Proof.
  intros Hinv. unfold handleSubmit.
  destruct (str_is_empty (trim q)).
  { destruct Hinv; split; assumption. }
  destruct (check_year (trim y)) as [year|].
  2:{ destruct Hinv; split; assumption. }
  destruct Hinv as [Hb Hn Ha].
  destruct (activeController p) as [c|] eqn:Hc; split; cbn.
  - intros a Hin. apply in_app_or in Hin as [Hin|[<-|[]]]; cbn;
      [apply Hb in Hin; lia | lia].
  - rewrite map_app. cbn. apply NoDup_snoc; [exact Hn|].
    intros Hx. apply in_map_iff in Hx as (a & Hs & Hin).
    apply Hb in Hin. lia.
  - intros a Hin Hna. apply in_app_or in Hin as [Hin|[<-|[]]]; [|reflexivity].
    exfalso. unfold is_aborted in Hna. cbn in Hna.
    apply orb_false_iff in Hna as [Hne Hna].
    specialize (Ha a Hin Hna). injection Ha as ->.
    now rewrite Nat.eqb_refl in Hne.
  - intros a Hin. apply in_app_or in Hin as [Hin|[<-|[]]]; cbn;
      [apply Hb in Hin; lia | lia].
  - rewrite map_app. cbn. apply NoDup_snoc; [exact Hn|].
    intros Hx. apply in_map_iff in Hx as (a & Hs & Hin).
    apply Hb in Hin. lia.
  - intros a Hin Hna. apply in_app_or in Hin as [Hin|[<-|[]]]; [|reflexivity].
    exfalso. specialize (Ha a Hin Hna). discriminate.
Qed.

(** A step that is not a submission keeps the controllers, and the waiting
    signals are among the former ones. *)
Lemma step_frame (p p' : page) (ev : event) :
  inv p -> is_submit ev = false -> step p ev = Some p' ->
  inv p'
  /\ activeController p' = activeController p
  /\ controllers p' = controllers p
  /\ aborted p' = aborted p
  /\ (forall a, In a (inflight p') ->
        exists b, In b (inflight p) /\ act_signal b = act_signal a).
Proof.
  intros Hinv Hns Hstep.
  assert (Hkey : forall signal st a rest q,
    take_activation signal st (inflight p) = Some (a, rest) ->
    activeController q = activeController p ->
    controllers q = controllers p ->
    aborted q = aborted p ->
    (inflight q = rest
     \/ inflight q = rest ++ [mkActivation signal (act_request a) AwaitJson]) ->
    inv q
    /\ activeController q = activeController p
    /\ controllers q = controllers p
    /\ aborted q = aborted p
    /\ (forall a, In a (inflight q) ->
          exists b, In b (inflight p) /\ act_signal b = act_signal a)).
  { intros signal st a rest q Ht H1 H2 H3 H4.
    apply take_activation_spec in Ht as (HP & Hsig & _).
    destruct (NoDup_signals_rest _ _ _ HP (inv_nodup p Hinv)) as [Hnd Hnin].
    assert (Hsub : forall x, In x (inflight q) ->
              exists b, In b (inflight p) /\ act_signal b = act_signal x).
    { intros x Hx. destruct H4 as [H4|H4]; rewrite H4 in Hx.
      - exists x. split; [|reflexivity].
        eapply Permutation_in; [symmetry; exact HP | now right].
      - apply in_app_or in Hx as [Hx|[<-|[]]].
        + exists x. split; [|reflexivity].
          eapply Permutation_in; [symmetry; exact HP | now right].
        + exists a. split; [|exact Hsig].
          eapply Permutation_in; [symmetry; exact HP | now left]. }
    split; [|repeat split; auto].
    apply (inv_shrink p q Hinv H1 H2 H3 Hsub).
    destruct H4 as [H4|H4]; rewrite H4; [exact Hnd|].
    rewrite map_app. cbn. apply NoDup_snoc; [exact Hnd|].
    now rewrite <- Hsig. }
  destruct ev as [q m y|signal ok status|signal e|signal payload|signal e];
    [discriminate| | | |]; cbn [step] in Hstep.
  - destruct (take_activation signal AwaitFetch (inflight p)) as [[a rest]|] eqn:Ht;
      [|discriminate].
    destruct (is_aborted signal p); [discriminate|].
    destruct ok; injection Hstep as <-.
    + eapply Hkey; eauto.
    + destruct (handleError_frame
                  (PlainError ("Unexpected response " +:+ Z_to_string status))
                  (set_inflight rest p)) as (_ & H2 & H3 & H4 & H5).
      eapply Hkey; eauto.
  - destruct (take_activation signal AwaitFetch (inflight p)) as [[a rest]|] eqn:Ht;
      [|discriminate].
    destruct (rejection_allowed signal e p); [|discriminate].
    injection Hstep as <-.
    destruct (handleError_frame e (set_inflight rest p)) as (_ & H2 & H3 & H4 & H5).
    eapply Hkey; eauto.
  - destruct (take_activation signal AwaitJson (inflight p)) as [[a rest]|] eqn:Ht;
      [|discriminate].
    destruct (is_aborted signal p); [discriminate|].
    injection Hstep as <-.
    destruct (try_catch_show_payload payload (set_inflight rest p))
      as (H2 & H3 & H4 & H5 & _).
    eapply Hkey; eauto.
  - destruct (take_activation signal AwaitJson (inflight p)) as [[a rest]|] eqn:Ht;
      [|discriminate].
    destruct (rejection_allowed signal e p); [|discriminate].
    injection Hstep as <-.
    destruct (handleError_frame e (set_inflight rest p)) as (_ & H2 & H3 & H4 & H5).
    eapply Hkey; eauto.
Qed.

Lemma inv_step (p p' : page) (ev : event) :
  inv p -> step p ev = Some p' -> inv p'.
Proof.
  intros Hinv Hstep. destruct (is_submit ev) eqn:Hs.
  - destruct ev; try discriminate. injection Hstep as <-.
    now apply inv_submit.
  - now apply (step_frame p p' ev Hinv Hs Hstep).
Qed.

Lemma inv_run (evs : list event) (p p' : page) :
  inv p -> run p evs = Some p' -> inv p'.
Proof.
  revert p. induction evs as [|ev evs IH]; intros p Hinv Hrun; simpl in Hrun.
  - now injection Hrun as <-.
  - destruct (step p ev) as [q|] eqn:Hstep; [|discriminate].
    eapply IH; [|exact Hrun]. eapply inv_step; eauto.
Qed.

Lemma live_at_most_one (p : page) : inv p -> List.length (live p) <= 1.
Proof.
  intros [Hb Hn Ha].
  assert (Hsig : forall a, In a (live p) ->
                   activeController p = Some (act_signal a)).
  { intros a Hin. apply filter_In in Hin as [Hin Hna].
    apply Ha; [exact Hin|]. now apply negb_true_iff in Hna. }
  assert (Hnd : NoDup (map act_signal (live p))).
  { unfold live. clear - Hn. induction (inflight p) as [|a l IH]; cbn.
    - constructor.
    - inversion Hn; subst.
      destruct (negb (is_aborted (act_signal a) p)); cbn; auto.
      constructor; auto.
      intros Hin. apply in_map_iff in Hin as (b & Hb & Hin).
      apply filter_In in Hin as [Hin _].
      apply H1. apply in_map_iff. eauto. }
  destruct (live p) as [|a [|b l]]; cbn; try lia.
  exfalso.
  pose proof (Hsig a (or_introl eq_refl)) as H1.
  pose proof (Hsig b (or_intror (or_introl eq_refl))) as H2.
  rewrite H1 in H2. injection H2 as H2.
  cbn in Hnd. inversion Hnd; subst. apply H3. left. now symmetry.
Qed.
End SingleFlight.

Section QuickSuccession.
Context {E : Engine}.
Import Nasa.

(** Only the fulfilment of a live request's body changes the results. *)
Lemma step_results (p p' : page) (ev : event) :
  inv p -> is_submit ev = false -> step p ev = Some p' ->
  results p' = results p
  \/ exists signal payload cards,
       ev = JsonResolved signal payload
       /\ is_aborted signal p = false
       /\ (exists a, In a (inflight p) /\ act_signal a = signal)
       /\ payload_cards payload = Ok cards
       /\ results p' = results p ++ cards
       /\ (forall a, In a (inflight p') -> act_signal a <> signal).
Proof.
  intros Hinv Hns Hstep.
  destruct ev as [q m y|signal ok status|signal e|signal payload|signal e];
    [discriminate| | | |]; cbn [step] in Hstep.
  - destruct (take_activation signal AwaitFetch (inflight p)) as [[a rest]|];
      [|discriminate].
    destruct (is_aborted signal p); [discriminate|].
    destruct ok; injection Hstep as <-; left; [reflexivity|].
    now rewrite (proj1 (handleError_frame _ _)).
  - destruct (take_activation signal AwaitFetch (inflight p)) as [[a rest]|];
      [|discriminate].
    destruct (rejection_allowed signal e p); [|discriminate].
    injection Hstep as <-. left. now rewrite (proj1 (handleError_frame _ _)).
  - destruct (take_activation signal AwaitJson (inflight p)) as [[a rest]|] eqn:Ht;
      [|discriminate].
    destruct (is_aborted signal p) eqn:Hab; [discriminate|].
    injection Hstep as <-.
    destruct (try_catch_show_payload payload (set_inflight rest p))
      as (_ & _ & _ & H5 & [Hr|(cards & Hc & Hr)]); [now left|].
    right. exists signal, payload, cards.
    apply take_activation_spec in Ht as (HP & Hsig & _).
    destruct (NoDup_signals_rest _ _ _ HP (inv_nodup p Hinv)) as [_ Hnin].
    repeat split; auto.
    + exists a. split; [|exact Hsig].
      eapply Permutation_in; [symmetry; exact HP | now left].
    + intros b Hb Heq. rewrite H5 in Hb. cbn in Hb.
      apply Hnin. rewrite Hsig, <- Heq. now apply in_map.
  - destruct (take_activation signal AwaitJson (inflight p)) as [[a rest]|];
      [|discriminate].
    destruct (rejection_allowed signal e p); [|discriminate].
    injection Hstep as <-. left. now rewrite (proj1 (handleError_frame _ _)).
Qed.

Lemma run_frame (evs : list event) (p p' : page) :
  inv p -> no_submit evs = true -> run p evs = Some p' ->
  inv p'
  /\ activeController p' = activeController p
  /\ controllers p' = controllers p
  /\ aborted p' = aborted p
  /\ (forall a, In a (inflight p') ->
        exists b, In b (inflight p) /\ act_signal b = act_signal a).
Proof.
  revert p. induction evs as [|ev evs IH]; intros p Hinv Hns Hrun; cbn in *.
  - injection Hrun as <-. split; [exact Hinv|]. repeat split; eauto.
  - apply andb_true_iff in Hns as [Hev Hns]. apply negb_true_iff in Hev.
    destruct (step p ev) as [q|] eqn:Hstep; [|discriminate].
    destruct (step_frame p q ev Hinv Hev Hstep) as (Hq & H1 & H2 & H3 & H4).
    destruct (IH q Hq Hns Hrun) as (Hp' & G1 & G2 & G3 & G4).
    split; [exact Hp'|]. repeat split; try congruence.
    intros a Ha. destruct (G4 a Ha) as (b & Hb & Hab).
    destruct (H4 b Hb) as (c & Hc & Hbc). exists c. split; congruence.
Qed.

(** Once every waiting activation is aborted, nothing is rendered until the
    next submission. *)
Lemma run_quiet (evs : list event) (p p' : page) :
  inv p ->
  (forall a, In a (inflight p) -> is_aborted (act_signal a) p = true) ->
  no_submit evs = true -> run p evs = Some p' ->
  results p' = results p.
Proof.
  revert p. induction evs as [|ev evs IH]; intros p Hinv Hall Hns Hrun; cbn in *.
  - now injection Hrun as <-.
  - apply andb_true_iff in Hns as [Hev Hns]. apply negb_true_iff in Hev.
    destruct (step p ev) as [q|] eqn:Hstep; [|discriminate].
    destruct (step_frame p q ev Hinv Hev Hstep) as (Hq & H1 & H2 & H3 & H4).
    destruct (step_results p q ev Hinv Hev Hstep)
      as [Hr|(signal & payload & cards & _ & Hna & (a & Ha & Hs) & _)].
    + rewrite <- Hr. apply IH; auto.
      intros a Ha. destruct (H4 a Ha) as (b & Hb & Hab).
      unfold is_aborted. rewrite H3, <- Hab. now apply Hall.
    + apply Hall in Ha. congruence.
Qed.

(** From a page whose active controller is [s], until the next submission
    the results either stay or grow by the cards of a payload delivered to
    the request of [s], which is then gone. *)
Lemma run_results (s : nat) (evs : list event) (p p' : page) :
  inv p -> activeController p = Some s ->
  no_submit evs = true -> run p evs = Some p' ->
  results p' = results p
  \/ exists payload cards,
       In (JsonResolved s payload) evs
       /\ payload_cards payload = Ok cards
       /\ results p' = results p ++ cards
       /\ (forall a, In a (inflight p') -> act_signal a <> s).
Proof.
  revert p. induction evs as [|ev evs IH]; intros p Hinv Hact Hns Hrun; cbn in *.
  - injection Hrun as <-. now left.
  - apply andb_true_iff in Hns as [Hev Hns]. pose proof Hev as Hev'.
    apply negb_true_iff in Hev.
    destruct (step p ev) as [q|] eqn:Hstep; [|discriminate].
    destruct (step_frame p q ev Hinv Hev Hstep) as (Hq & H1 & H2 & H3 & H4).
    destruct (step_results p q ev Hinv Hev Hstep)
      as [Hr|(signal & payload & cards & -> & Hna & (a & Ha & Hs) & Hc & Hr & Hgone)].
    + destruct (IH q Hq ltac:(congruence) Hns Hrun)
        as [G|(payload & cards & Hin & Hc & G & Hgone)].
      * left. congruence.
      * right. exists payload, cards. repeat split; auto. congruence.
    + assert (signal = s) as ->.
      { subst signal. pose proof (inv_active p Hinv a Ha Hna). congruence. }
      assert (Hall : forall b, In b (inflight q) ->
                       is_aborted (act_signal b) q = true).
      { intros b Hb. destruct (is_aborted (act_signal b) q) eqn:Hab; [reflexivity|].
        pose proof (inv_active q Hq b Hb Hab) as Hb'.
        exfalso. apply (Hgone b Hb). congruence. }
      destruct (run_frame evs q p' Hq Hns Hrun) as (_ & _ & _ & _ & Hsub).
      right. exists payload, cards. repeat split; auto.
      * rewrite (run_quiet evs q p' Hq Hall Hns Hrun). exact Hr.
      * intros b Hb Heq. destruct (Hsub b Hb) as (c & Hc' & Hcb).
        apply (Hgone c Hc'). congruence.
Qed.

Lemma passes_validation_spec (searchValue yearValue : string) :
  passes_validation searchValue yearValue = true ->
  trim searchValue <> EmptyString
  /\ exists year, check_year (trim yearValue) = Some year.
Proof.
  unfold passes_validation. intros H. apply andb_true_iff in H as [H1 H2].
  split.
  - apply str_is_empty_false. now apply negb_true_iff.
  - destruct (check_year (trim yearValue)) as [year|]; [eauto | discriminate].
Qed.
End QuickSuccession.

(** C1, as amended.  On every page reachable from the initial one at most
    one request is live.  When two submissions that pass validation follow
    each other while the request of the first is still waiting, nothing of
    the first has been rendered, the second aborts the first, the only live
    request is the second's, and until the next submission the results are
    empty or the cards of a payload delivered to the second request.  A
    submission that the validation refuses, on any page, issues no call and
    cancels nothing: the waiting and the live requests, the aborted
    signals, the controllers and the results stay as they were. *)
Theorem single_flight (E : Engine) :
  (forall (evs : list Nasa.event) (p : Nasa.page),
     Nasa.run Nasa.initial evs = Some p ->
     List.length (Nasa.live p) <= 1)
  /\ (forall (evs : list Nasa.event) (p : Nasa.page)
        (q1 m1 y1 q2 m2 y2 : string)
        (between : list Nasa.event) (p1 : Nasa.page),
        Nasa.run Nasa.initial evs = Some p ->
        Nasa.passes_validation q1 y1 = true ->
        Nasa.passes_validation q2 y2 = true ->
        Nasa.no_submit between = true ->
        Nasa.run (Nasa.handleSubmit q1 m1 y1 p) between = Some p1 ->
        (exists a, In a (Nasa.inflight p1)
                   /\ Nasa.act_signal a = Nasa.controllers p) ->
        let first := Nasa.controllers p in
        let second := S (Nasa.controllers p) in
        let p2 := Nasa.handleSubmit q2 m2 y2 p1 in
        Nasa.results p1 = []
        /\ Nasa.is_aborted first p2 = true
        /\ (forall a, In a (Nasa.live p2) -> Nasa.act_signal a = second)
        /\ (forall (after : list Nasa.event) (p' : Nasa.page),
              Nasa.no_submit after = true ->
              Nasa.run p2 after = Some p' ->
              Nasa.results p' = []
              \/ exists payload cards,
                   In (Nasa.JsonResolved second payload) after
                   /\ Nasa.payload_cards payload = Ok cards
                   /\ Nasa.results p' = cards))
  /\ (forall (p : Nasa.page) (q m y : string),
        Nasa.passes_validation q y = false ->
        let p' := Nasa.handleSubmit q m y p in
        Nasa.inflight p' = Nasa.inflight p
        /\ Nasa.live p' = Nasa.live p
        /\ Nasa.aborted p' = Nasa.aborted p
        /\ Nasa.activeController p' = Nasa.activeController p
        /\ Nasa.controllers p' = Nasa.controllers p
        /\ Nasa.results p' = Nasa.results p).
Proof.
  split; [|split].
  3:{ intros p q m y Hv p'. subst p'. unfold Nasa.passes_validation in Hv.
      destruct (str_is_empty (trim q)) eqn:Hq.
      - apply str_is_empty_true in Hq.
        rewrite (nasa_handleSubmit_empty_query p q m y Hq).
        repeat split.
      - apply str_is_empty_false in Hq. cbn [negb andb] in Hv.
        destruct (Nasa.check_year (trim y)) as [year|] eqn:Hy; [discriminate|].
        rewrite (nasa_handleSubmit_bad_year p q m y Hq Hy).
        repeat split. }
  - intros evs p Hrun. apply live_at_most_one.
    eapply inv_run; [apply inv_initial | exact Hrun].
  - intros evs p q1 m1 y1 q2 m2 y2 between p1 Hrun Hv1 Hv2 Hns Hbetween Hwait
           first second p2.
    pose proof (inv_run evs _ p inv_initial Hrun) as Hinv.
    apply passes_validation_spec in Hv1 as (Hq1 & year1 & Hy1).
    apply passes_validation_spec in Hv2 as (Hq2 & year2 & Hy2).
    pose proof (inv_submit q1 m1 y1 p Hinv) as Hinv1.
    pose proof (nasa_handleSubmit_valid p q1 m1 y1 year1 Hq1 Hy1) as Hs1.
    assert (Hact1 : Nasa.activeController (Nasa.handleSubmit q1 m1 y1 p) = Some first)
      by now rewrite Hs1.
    assert (Hres1 : Nasa.results (Nasa.handleSubmit q1 m1 y1 p) = [])
      by now rewrite Hs1.
    assert (Hctl1 : Nasa.controllers (Nasa.handleSubmit q1 m1 y1 p) = second)
      by now rewrite Hs1.
    destruct (run_frame between _ p1 Hinv1 Hns Hbetween)
      as (Hinvp1 & Hact & Hctl & Hab & _).
    rewrite Hact1 in Hact. rewrite Hctl1 in Hctl.
    assert (Hresp1 : Nasa.results p1 = []).
    { destruct (run_results first between _ p1 Hinv1 Hact1 Hns Hbetween)
        as [Hr|(payload & cards & _ & _ & _ & Hgone)]; [congruence|].
      destruct Hwait as (a & Ha & Hsig). exfalso. exact (Hgone a Ha Hsig). }
    pose proof (inv_submit q2 m2 y2 p1 Hinvp1) as Hinv2. fold p2 in Hinv2.
    pose proof (nasa_handleSubmit_valid p1 q2 m2 y2 year2 Hq2 Hy2) as Hs2.
    fold p2 in Hs2. rewrite Hact, Hctl in Hs2.
    assert (Hact2 : Nasa.activeController p2 = Some second) by now rewrite Hs2.
    assert (Hres2 : Nasa.results p2 = []) by now rewrite Hs2.
    split; [exact Hresp1|]. split; [|split].
    + rewrite Hs2. unfold Nasa.is_aborted. cbn. now rewrite Nat.eqb_refl.
    + intros a Ha. apply filter_In in Ha as [Ha Hna].
      apply negb_true_iff in Hna.
      pose proof (Nasa.inv_active p2 Hinv2 a Ha Hna). congruence.
    + intros after p' Hns' Hrun'.
      destruct (run_results second after p2 p' Hinv2 Hact2 Hns' Hrun')
        as [Hr|(payload & cards & Hin & Hc & Hr & _)].
      * left. congruence.
      * right. exists payload, cards. rewrite Hr, Hres2. auto.
Qed.

Lemma single_flight_witness :
  List.length (Nasa.live Samples.nasa_loading) <= 1
  /\ Nasa.is_aborted 0
       (Nasa.handleSubmit "moon" "all" EmptyString Samples.nasa_loading) = true
  /\ (forall a,
        In a (Nasa.live (Nasa.handleSubmit "moon" "all" EmptyString
                           Samples.nasa_loading)) ->
        Nasa.act_signal a = 1)
  /\ Nasa.aborted (Nasa.handleSubmit "moon" "all" "1850" Samples.nasa_loading)
     = Nasa.aborted Samples.nasa_loading.
Proof.
  split.
  { apply (proj1 (single_flight test_engine)
             [Nasa.Submit "apollo" "image" "2020"] Samples.nasa_loading).
    reflexivity. }
  assert (Hrefused :
            Nasa.aborted (Nasa.handleSubmit "moon" "all" "1850" Samples.nasa_loading)
            = Nasa.aborted Samples.nasa_loading).
  { pose proof (proj2 (proj2 (single_flight test_engine)) Samples.nasa_loading
                  "moon" "all" "1850" eq_refl) as H.
    cbv zeta in H. destruct H as (_ & _ & H & _). exact H. }
  pose proof (proj1 (proj2 (single_flight test_engine)) [] Nasa.initial
                "apollo" "image" "2020" "moon" "all" EmptyString
                [] Samples.nasa_loading
                eq_refl eq_refl eq_refl eq_refl eq_refl) as H.
  cbv zeta in H.
  assert (Hwait : exists a, In a (Nasa.inflight Samples.nasa_loading)
                            /\ Nasa.act_signal a = Nasa.controllers Nasa.initial).
  { eexists. split; [left; reflexivity | reflexivity]. }
  destruct (H Hwait) as (_ & Hab & Hlive & _).
  split; [exact Hab|]. split; [exact Hlive | exact Hrefused].
Defined.

(** C1 as stated fails when the second submission is refused by the
    validation: it sends nothing and aborts nothing, and the result set of
    the first submission is rendered afterwards. *)
Lemma refused_second_submission_keeps_first :
  exists p : Nasa.page,
    @Nasa.run test_engine Nasa.initial
      [Nasa.Submit "apollo" "image" EmptyString;
       Nasa.Submit "   " "image" EmptyString;
       Nasa.FetchResolved 0 true 200;
       Nasa.JsonResolved 0 (Samples.nasa_payload "Apollo 11")] = Some p
    /\ Nasa.is_aborted 0 p = false
    /\ Nasa.statusText p <> Nasa.MSG_ENTER_QUERY
    /\ map Nasa.card_title (Nasa.results p) = ["Apollo 11"].
Proof.
  eexists. split; [vm_compute; reflexivity|].
  split; [reflexivity|]. split; [discriminate | reflexivity].
Qed.

(** With two valid submissions the same answers render only the second. *)
Example two_valid_submissions :
  exists p : Nasa.page,
    @Nasa.run test_engine Nasa.initial
      [Nasa.Submit "apollo" "image" EmptyString;
       Nasa.Submit "moon" "image" EmptyString;
       Nasa.FetchRejected 0 AbortError;
       Nasa.FetchResolved 1 true 200;
       Nasa.JsonResolved 1 (Samples.nasa_payload "Moon")] = Some p
    /\ map Nasa.card_title (Nasa.results p) = ["Moon"]
    /\ @Nasa.step test_engine
         (Nasa.handleSubmit "moon" "image" EmptyString
            (Nasa.handleSubmit "apollo" "image" EmptyString Nasa.initial))
         (Nasa.FetchResolved 0 true 200) = None.
Proof.
  eexists. split; [vm_compute; reflexivity|]. split; reflexivity.
Qed.

(** A response that is not OK and a body that is not JSON end in the failure
    message; the form stays usable. *)
Example http_error_reports_failure :
  exists p : Nasa.page,
    @Nasa.run test_engine Nasa.initial
      [Nasa.Submit "apollo" "image" EmptyString;
       Nasa.FetchResolved 0 false 500] = Some p
    /\ Nasa.statusText p = Nasa.MSG_FAILED
    /\ Nasa.inflight p = [].
Proof. eexists. split; [vm_compute; reflexivity|]. split; reflexivity. Qed.

Example malformed_body_reports_failure :
  exists p : Nasa.page,
    @Nasa.run test_engine Nasa.initial
      [Nasa.Submit "apollo" "image" EmptyString;
       Nasa.FetchResolved 0 true 200;
       Nasa.JsonRejected 0 (SyntaxError "Unexpected token < in JSON")] = Some p
    /\ Nasa.statusText p = Nasa.MSG_FAILED
    /\ Nasa.inflight p = [].
Proof. eexists. split; [vm_compute; reflexivity|]. split; reflexivity. Qed.

(** ** Numbers as sort keys *)

Lemma num_sign_sub_gt (a b : num) :
  num_sign (num_sub b a) = Gt -> num_ltb a b = true.
Proof.
  destruct a as [|s|x], b as [|t|y]; cbn; try discriminate.
  - destruct s, t; cbn; congruence.
  - destruct s; cbn; congruence.
  - destruct t; cbn; congruence.
  - destruct (Qcompare_spec (y - x) 0), (Qcompare_spec x y);
      intros; try discriminate; try reflexivity; exfalso; lra.
Qed.

Lemma num_sign_sub_not_gt (a b : num) :
  nonnan a -> nonnan b ->
  num_sign (num_sub b a) <> Gt -> num_leb b a = true.
Proof.
  unfold nonnan.
  destruct a as [|s|x], b as [|t|y]; cbn; try discriminate; intros _ _.
  - destruct s, t; cbn; congruence.
  - destruct s; cbn; congruence.
  - destruct t; cbn; congruence.
  - intros H. apply Qle_bool_iff.
    destruct (Qcompare_spec (y - x) 0); try congruence; lra.
Qed.

Lemma num_ltb_leb (a b : num) : num_ltb a b = true -> num_leb a b = true.
Proof.
  destruct a as [|s|x], b as [|t|y]; cbn; try discriminate; try tauto.
  - destruct s, t; cbn; congruence.
  - intros H. apply Qle_bool_iff.
    destruct (Qcompare_spec x y); try discriminate. lra.
Qed.

Lemma num_leb_trans (a b c : num) :
  num_leb a b = true -> num_leb b c = true -> num_leb a c = true.
Proof.
  destruct a as [|s|x], b as [|t|y], c as [|u|z]; cbn; try discriminate; try tauto.
  - destruct s, t, u; cbn; congruence.
  - destruct s, t; cbn; congruence.
  - destruct s, u; cbn; congruence.
  - destruct t, u; cbn; congruence.
  - destruct t; cbn; congruence.
  - rewrite !Qle_bool_iff. intros; lra.
Qed.

Lemma num_ltb_not_both_eq (a b w : num) :
  num_ltb a b = true -> num_eqb a w = true -> num_eqb b w = true -> False.
Proof.
  destruct a as [|s|x], b as [|t|y], w as [|u|z]; cbn; try discriminate.
  - destruct s, t, u; cbn; congruence.
  - rewrite !Qeq_bool_iff.
    destruct (Qcompare_spec x y); try discriminate. intros; lra.
Qed.

Lemma number_or_zero_nonnan (E : Engine) (v : value) (n : num) :
  number_or_zero v = Ok n -> nonnan n.
Proof.
  unfold nonnan, number_or_zero. intros H.
  destruct (ToNumber v) as [m|e]; cbn [bind] in H; [|discriminate].
  injection H as <-.
  destruct (num_truthy m) eqn:Hm; [|reflexivity].
  destruct m; [discriminate | reflexivity | reflexivity].
Qed.

(** ** The sort by descending key *)

Section SortByKey.
Context {A : Type} (key : A -> num).

Lemma sort_permutation (cmp : A -> A -> num) (l : list A) :
  Permutation l (sort cmp l).
Proof.
  assert (Hins : forall x l, Permutation (x :: l) (insert_sorted cmp x l)).
  { intros x l0. induction l0 as [|y l0 IH]; cbn; [reflexivity|].
    destruct (after cmp x y); [|reflexivity].
    rewrite perm_swap. now constructor. }
  induction l as [|x l IH]; cbn; [reflexivity|].
  rewrite <- Hins. now constructor.
Qed.

Lemma insert_sorted_descending (x : A) (l : list A) :
  nonnan (key x) -> Forall (fun y => nonnan (key y)) l ->
  descending key l -> descending key (insert_sorted (by_key key) x l).
Proof.
  intros Hx Hl Hs. induction Hs as [|y l Hs IH Hy]; cbn.
  - constructor; constructor.
  - inversion Hl as [|? ? Hny Hl']; subst.
    unfold after, by_key at 1.
    destruct (num_sign (num_sub (key y) (key x))) eqn:Hc.
    + constructor; [now constructor|]. constructor.
      * apply num_sign_sub_not_gt; auto. congruence.
      * eapply Forall_impl; [|exact Hy]. cbn. intros z Hz.
        eapply num_leb_trans; [exact Hz|].
        apply num_sign_sub_not_gt; auto. congruence.
    + constructor; [now constructor|]. constructor.
      * apply num_sign_sub_not_gt; auto. congruence.
      * eapply Forall_impl; [|exact Hy]. cbn. intros z Hz.
        eapply num_leb_trans; [exact Hz|].
        apply num_sign_sub_not_gt; auto. congruence.
    + constructor; [now apply IH|].
      assert (Hin : forall z, In z (insert_sorted (by_key key) x l) -> z = x \/ In z l).
      { intros z Hz.
        assert (HP : Permutation (x :: l) (insert_sorted (by_key key) x l)).
        { clear. induction l as [|w l IH]; cbn; [reflexivity|].
          destruct (after (by_key key) x w); [|reflexivity].
          rewrite perm_swap. now constructor. }
        apply (Permutation_in _ (Permutation_sym HP)) in Hz.
        destruct Hz; auto. }
      apply Forall_forall. intros z Hz. apply Hin in Hz as [->|Hz].
      * apply num_ltb_leb. now apply num_sign_sub_gt.
      * rewrite Forall_forall in Hy. now apply Hy.
Qed.

Lemma sort_descending (l : list A) :
  Forall (fun y => nonnan (key y)) l -> descending key (sort (by_key key) l).
Proof.
  induction l as [|x l IH]; intros Hl; cbn.
  - constructor.
  - inversion Hl; subst. apply insert_sorted_descending; auto.
    eapply Permutation_Forall; [apply sort_permutation | assumption].
Qed.

Lemma insert_sorted_filter (w : num) (x : A) (l : list A) :
  filter (fun y => num_eqb (key y) w) (insert_sorted (by_key key) x l)
  = filter (fun y => num_eqb (key y) w) (x :: l).
Proof.
  induction l as [|y l IH]; [reflexivity|].
  cbn [insert_sorted]. unfold after, by_key at 1.
  destruct (num_sign (num_sub (key y) (key x))) eqn:Hc; try reflexivity.
  apply num_sign_sub_gt in Hc.
  cbn [filter] in *. rewrite IH.
  destruct (num_eqb (key y) w) eqn:Hy, (num_eqb (key x) w) eqn:Hx;
    try reflexivity.
  exfalso. eapply num_ltb_not_both_eq; eauto.
Qed.

Lemma sort_ties_keep_order (l : list A) : ties_keep_order key l (sort (by_key key) l).
Proof.
  intros w. induction l as [|x l IH]; [reflexivity|].
  cbn [sort]. rewrite insert_sorted_filter. cbn [filter]. now rewrite IH.
Qed.
End SortByKey.

(** The insertion sort puts no element before one it should come after,
    when the comparator is an order. *)
Section SortInOrder.
Context {A : Type} (cmp : A -> A -> num).
Hypothesis cmp_anti :
  forall a b, num_sign (cmp a b) = Gt -> num_sign (cmp b a) <> Gt.
Hypothesis cmp_trans :
  forall a b c, num_sign (cmp a b) <> Gt -> num_sign (cmp b c) <> Gt ->
                num_sign (cmp a c) <> Gt.

Lemma insert_sorted_in (x z : A) (l : list A) :
  In z (insert_sorted cmp x l) -> z = x \/ In z l.
Proof.
  induction l as [|y l IH]; cbn [insert_sorted]; intros H.
  - destruct H as [<-|[]]. now left.
  - destruct (after cmp x y).
    + destruct H as [<-|H]; [right; now left|].
      destruct (IH H) as [->|Hz]; [now left | right; now right].
    + destruct H as [<-|H]; [now left | now right].
Qed.

Lemma insert_sorted_in_order (x : A) (l : list A) :
  StronglySorted (fun a b => num_sign (cmp a b) <> Gt) l ->
  StronglySorted (fun a b => num_sign (cmp a b) <> Gt) (insert_sorted cmp x l).
Proof.
  induction 1 as [|y l Hs IH Hy]; cbn [insert_sorted].
  - constructor; constructor.
  - unfold after. destruct (num_sign (cmp x y)) eqn:Hc.
    + constructor; [now constructor|]. constructor; [congruence|].
      eapply Forall_impl; [|exact Hy]. cbn. intros z Hz.
      apply (cmp_trans x y z); [congruence | exact Hz].
    + constructor; [now constructor|]. constructor; [congruence|].
      eapply Forall_impl; [|exact Hy]. cbn. intros z Hz.
      apply (cmp_trans x y z); [congruence | exact Hz].
    + constructor; [exact IH|]. apply Forall_forall. intros z Hz.
      apply insert_sorted_in in Hz as [->|Hz]; [now apply cmp_anti|].
      rewrite Forall_forall in Hy. now apply Hy.
Qed.

Lemma sort_in_order (l : list A) :
  StronglySorted (fun a b => num_sign (cmp a b) <> Gt) (sort cmp l).
Proof.
  induction l as [|x l IH]; cbn [sort]; [constructor|].
  now apply insert_sorted_in_order.
Qed.
End SortInOrder.

Lemma string_compare_trans (a b c : string) :
  String.compare a b <> Gt -> String.compare b c <> Gt -> String.compare a c <> Gt.
Proof.
  revert b c. induction a as [|x a IH]; intros [|y b] [|z c]; cbn;
    try congruence.
  unfold Ascii.compare.
  destruct (N.compare_spec (N_of_ascii x) (N_of_ascii y)) as [Hxy|Hxy|Hxy];
    destruct (N.compare_spec (N_of_ascii y) (N_of_ascii z)) as [Hyz|Hyz|Hyz];
    destruct (N.compare_spec (N_of_ascii x) (N_of_ascii z)) as [Hxz|Hxz|Hxz];
    try congruence; try lia.
  apply IH.
Qed.

Lemma code_units_sign (a b : string) :
  num_sign (compare_code_units a b) = String.compare a b.
Proof. unfold compare_code_units. now destruct (String.compare a b). Qed.

(** The order of the code units, which the examples run with, is one. *)
Lemma code_units_are_an_order : @GeoSearch.collation_is_an_order test_engine.
Proof.
  split; cbn [localeCompare test_engine].
  - intros a b. rewrite !code_units_sign, (String.compare_antisym a b).
    destruct (String.compare b a); cbn; congruence.
  - intros a b c. rewrite !code_units_sign. apply string_compare_trans.
Qed.

(** ** Lab 4: keyword lists *)

Lemma mapM_Forall {A B : Type} (f : A -> result B) (P : B -> Prop)
    (l : list A) (ys : list B) :
  (forall x y, f x = Ok y -> P y) ->
  mapM f l = Ok ys -> Forall P ys.
Proof.
  intros Hf. revert ys. induction l as [|x l IH]; intros ys H; cbn in H.
  - injection H as <-. constructor.
  - destruct (f x) as [y|e] eqn:Hx; cbn in H; [|discriminate].
    destruct (mapM f l) as [ys'|e]; cbn in H; [|discriminate].
    injection H as <-. constructor; eauto.
Qed.

Lemma mapM_Forall2 {A B : Type} (f : A -> result B) (R : A -> B -> Prop)
    (l : list A) (ys : list B) :
  mapM f l = Ok ys ->
  (forall x y, f x = Ok y -> R x y) ->
  Forall2 R l ys.
Proof.
  intros H Hf. revert ys H. induction l as [|x l IH]; intros ys H; cbn in H.
  - injection H as <-. constructor.
  - destruct (f x) as [y|e] eqn:Hx; cbn in H; [|discriminate].
    destruct (mapM f l) as [ys'|e]; cbn in H; [|discriminate].
    injection H as <-. constructor; eauto.
Qed.

Lemma mapM_total {A B : Type} (f : A -> result B) (ok : A -> bool) (l : list A) :
  (forall x, ok x = true -> exists y, f x = Ok y) ->
  forallb ok l = true -> exists ys, mapM f l = Ok ys.
Proof.
  intros Hf. induction l as [|x l IH]; intros H; cbn in *.
  - eauto.
  - apply andb_true_iff in H as [Hx Hl].
    destruct (Hf x Hx) as [y ->]. destruct (IH Hl) as [ys ->].
    cbn. eauto.
Qed.

Lemma Forall_filter {A : Type} (P : A -> Prop) (f : A -> bool) (l : list A) :
  Forall P l -> Forall P (filter f l).
Proof.
  induction 1; cbn; [constructor|]. destruct (f x); auto.
Qed.

Section Keywords.
Context {E : Engine}.

Lemma meaningcloud_relevance_nonnan (data : value) (arrival : list MeaningCloud.keyword) :
  MeaningCloud.labelled_keywords data = Ok arrival ->
  Forall (fun k => nonnan (MeaningCloud.relevance k)) arrival.
Proof.
  unfold MeaningCloud.labelled_keywords, MeaningCloud.map_list.
  intros H.
  destruct (get data "concept_list") as [cl|e]; cbn in H; [|discriminate].
  destruct (or_else cl (VArr [])) as [| | | | |cs|]; cbn in H; try discriminate.
  destruct (mapM MeaningCloud.concept_of cs) as [concepts|e] eqn:Hc;
    cbn in H; [|discriminate].
  destruct (get data "entity_list") as [el|e]; cbn in H; [|discriminate].
  destruct (or_else el (VArr [])) as [| | | | |es|]; cbn in H; try discriminate.
  destruct (mapM MeaningCloud.entity_of es) as [entities|e] eqn:He;
    cbn in H; [|discriminate].
  injection H as <-. apply Forall_filter. apply Forall_app. split.
  - eapply mapM_Forall; [|exact Hc]. intros x y Hy.
    unfold MeaningCloud.concept_of in Hy.
    destruct (get x "form"); cbn in Hy; [|discriminate].
    destruct (get x "relevance") as [rel|]; cbn in Hy; [|discriminate].
    destruct (number_or_zero rel) as [n|] eqn:Hn; cbn in Hy; [|discriminate].
    injection Hy as <-. exact (number_or_zero_nonnan E rel n Hn).
  - eapply mapM_Forall; [|exact He]. intros x y Hy.
    unfold MeaningCloud.entity_of in Hy.
    destruct (get x "form"); cbn in Hy; [|discriminate].
    destruct (get x "sementity"); cbn in Hy; [|discriminate].
    destruct (get x "relevance") as [rel|]; cbn in Hy; [|discriminate].
    destruct (number_or_zero rel) as [n|] eqn:Hn; cbn in Hy; [|discriminate].
    injection Hy as <-. exact (number_or_zero_nonnan E rel n Hn).
Qed.

Lemma get_not_nullish (v : value) (k : string) :
  nullish v = false -> get v k = Ok (get_opt v k).
Proof.
  unfold get_opt. destruct v; try discriminate; intros _; cbn;
    try reflexivity; destruct (String.eqb k "length"); reflexivity.
Qed.

Lemma meaningcloud_list_total (v : value) (f : value -> result MeaningCloud.keyword) :
  (forall item, nullish item = false ->
                printable (get_opt item "relevance") = true ->
                exists k, f item = Ok k) ->
  MeaningCloud.list_ok v = true ->
  exists ks, MeaningCloud.map_list v f = Ok ks.
Proof.
  intros Hf Hv. unfold MeaningCloud.map_list.
  assert (Hfalsy : truthy v = false -> exists ks,
            match or_else v (VArr []) with
            | VArr l => mapM f l
            | _ => Throw (TypeError "(intermediate value).map is not a function")
            end = Ok ks).
  { intros Ht. unfold or_else. rewrite Ht. cbn. eauto. }
  destruct v as [| |b|n|s|l|props]; cbn in Hv;
    try (apply Hfalsy; now apply negb_true_iff); try discriminate.
  cbn. eapply mapM_total; [|exact Hv].
  intros item Hi. apply andb_true_iff in Hi as [Hi Hr].
  apply Hf; [now apply negb_true_iff | exact Hr].
Qed.

Lemma meaningcloud_labelled_total (data : value) :
  MeaningCloud.keyword_payload data = true ->
  exists arrival, MeaningCloud.labelled_keywords data = Ok arrival.
Proof.
  unfold MeaningCloud.keyword_payload. intros H.
  apply andb_true_iff in H as [H He]. apply andb_true_iff in H as [Hd Hc].
  apply negb_true_iff in Hd.
  unfold MeaningCloud.labelled_keywords.
  rewrite !(get_not_nullish data) by exact Hd. cbn [bind].
  destruct (meaningcloud_list_total (get_opt data "concept_list")
              MeaningCloud.concept_of) as [cs ->]; [|exact Hc|].
  { intros item Hi Hr. unfold MeaningCloud.concept_of.
    rewrite !(get_not_nullish item) by exact Hi. cbn [bind].
    destruct (printable_number_or_zero _ Hr) as [n ->]. cbn. eauto. }
  cbn [bind].
  destruct (meaningcloud_list_total (get_opt data "entity_list")
              MeaningCloud.entity_of) as [es ->]; [|exact He|].
  { intros item Hi Hr. unfold MeaningCloud.entity_of.
    rewrite !(get_not_nullish item) by exact Hi. cbn [bind].
    destruct (printable_number_or_zero _ Hr) as [n ->]. cbn. eauto. }
  cbn. eauto.
Qed.

Lemma twinword_weight_nonnan (data : value) (arrival : list Twinword.keyword) :
  Twinword.labelled_keywords data = Ok arrival ->
  Forall (fun k => nonnan (Twinword.weight k)) arrival.
Proof.
  unfold Twinword.labelled_keywords. intros H.
  destruct (get data "keyword") as [kw|e]; cbn [bind] in H; [|discriminate].
  destruct (mapM Twinword.keyword_of (entries (or_else kw (VObj [])))) as [items|e]
    eqn:Hitems; cbn [bind] in H; [|discriminate].
  injection H as <-. apply Forall_filter.
  eapply mapM_Forall; [|exact Hitems]. intros entry k Hk.
  unfold Twinword.keyword_of in Hk.
  destruct (number_or_zero (snd entry)) as [n|] eqn:Hn; cbn in Hk; [|discriminate].
  injection Hk as <-. exact (number_or_zero_nonnan E _ n Hn).
Qed.

Lemma twinword_labelled_total (data : value) :
  Twinword.keyword_payload data = true ->
  exists arrival, Twinword.labelled_keywords data = Ok arrival.
Proof.
  unfold Twinword.keyword_payload. intros H.
  apply andb_true_iff in H as [Hd Hw]. apply negb_true_iff in Hd.
  unfold Twinword.labelled_keywords.
  rewrite (get_not_nullish data) by exact Hd. cbn [bind].
  destruct (mapM_total Twinword.keyword_of (fun entry => printable (snd entry))
              (entries (or_else (get_opt data "keyword") (VObj []))))
    as [items ->]; [|exact Hw|cbn; eauto].
  intros entry He. unfold Twinword.keyword_of.
  destruct (printable_number_or_zero _ He) as [n ->]. cbn. eauto.
Qed.

(** Whatever the payload, a list [extractKeywords] returns is the stable
    descending sort of the labelled keywords. *)
Lemma meaningcloud_extract_sorted (data : value) (arrival : list MeaningCloud.keyword) :
  MeaningCloud.labelled_keywords data = Ok arrival ->
  exists out,
    MeaningCloud.extractKeywords data = Ok out
    /\ Permutation arrival out
    /\ descending MeaningCloud.relevance out
    /\ ties_keep_order MeaningCloud.relevance arrival out.
Proof.
  intros H. unfold MeaningCloud.extractKeywords. rewrite H. cbn [bind].
  change (sort MeaningCloud.by_relevance arrival)
    with (sort (by_key MeaningCloud.relevance) arrival).
  eexists. split; [reflexivity|]. split; [apply sort_permutation|]. split.
  - apply sort_descending. eapply meaningcloud_relevance_nonnan; eauto.
  - apply sort_ties_keep_order.
Qed.

Lemma twinword_extract_sorted (data : value) (arrival : list Twinword.keyword) :
  Twinword.labelled_keywords data = Ok arrival ->
  exists out,
    Twinword.extractKeywords data = Ok out
    /\ Permutation arrival out
    /\ descending Twinword.weight out
    /\ ties_keep_order Twinword.weight arrival out.
Proof.
  intros H. unfold Twinword.extractKeywords. rewrite H. cbn [bind].
  change (sort Twinword.by_weight arrival)
    with (sort (by_key Twinword.weight) arrival).
  eexists. split; [reflexivity|]. split; [apply sort_permutation|]. split.
  - apply sort_descending. eapply twinword_weight_nonnan; eauto.
  - apply sort_ties_keep_order.
Qed.
End Keywords.

(** C2.  Whenever [extractKeywords] of either service returns, its result
    is the list of labelled keywords in descending order of relevance
    (MeaningCloud) or weight (Twinword), and keywords of equal relevance or
    weight keep the order in which they arrived.  On a keyword payload it
    does return. *)
Theorem keywords_sorted_descending (E : Engine) (data : value) :
  (forall out : list MeaningCloud.keyword,
     MeaningCloud.extractKeywords data = Ok out ->
     exists arrival,
       MeaningCloud.labelled_keywords data = Ok arrival
       /\ Permutation arrival out
       /\ descending MeaningCloud.relevance out
       /\ ties_keep_order MeaningCloud.relevance arrival out)
  /\ (MeaningCloud.keyword_payload data = true ->
      exists out, MeaningCloud.extractKeywords data = Ok out)
  /\ (forall out : list Twinword.keyword,
        Twinword.extractKeywords data = Ok out ->
        exists arrival,
          Twinword.labelled_keywords data = Ok arrival
          /\ Permutation arrival out
          /\ descending Twinword.weight out
          /\ ties_keep_order Twinword.weight arrival out)
  /\ (Twinword.keyword_payload data = true ->
      exists out, Twinword.extractKeywords data = Ok out).
Proof.
  split; [|split; [|split]].
  - intros out Ho. unfold MeaningCloud.extractKeywords in Ho.
    destruct (MeaningCloud.labelled_keywords data) as [arrival|e] eqn:Ha;
      [|discriminate].
    destruct (meaningcloud_extract_sorted data arrival Ha) as (out' & Ho' & H).
    unfold MeaningCloud.extractKeywords in Ho'. rewrite Ha in Ho'.
    rewrite Ho in Ho'. injection Ho' as <-. eauto.
  - intros Hshape.
    destruct (meaningcloud_labelled_total data Hshape) as [arrival Ha].
    destruct (meaningcloud_extract_sorted data arrival Ha) as (out & Ho & _).
    eauto.
  - intros out Ho. unfold Twinword.extractKeywords in Ho.
    destruct (Twinword.labelled_keywords data) as [arrival|e] eqn:Ha;
      [|discriminate].
    destruct (twinword_extract_sorted data arrival Ha) as (out' & Ho' & H).
    unfold Twinword.extractKeywords in Ho'. rewrite Ha in Ho'.
    rewrite Ho in Ho'. injection Ho' as <-. eauto.
  - intros Hshape.
    destruct (twinword_labelled_total data Hshape) as [arrival Ha].
    destruct (twinword_extract_sorted data arrival Ha) as (out & Ho & _).
    eauto.
Qed.

Lemma keywords_sorted_descending_witness :
  (exists arrival out,
     @MeaningCloud.labelled_keywords test_engine Samples.topics_payload = Ok arrival
     /\ @MeaningCloud.extractKeywords test_engine Samples.topics_payload = Ok out
     /\ Permutation arrival out
     /\ descending MeaningCloud.relevance out
     /\ ties_keep_order MeaningCloud.relevance arrival out)
  /\ (exists arrival out,
        @Twinword.labelled_keywords test_engine Samples.twinword_payload = Ok arrival
        /\ @Twinword.extractKeywords test_engine Samples.twinword_payload = Ok out
        /\ Permutation arrival out
        /\ descending Twinword.weight out
        /\ ties_keep_order Twinword.weight arrival out).
Proof.
  split.
  - destruct (keywords_sorted_descending test_engine Samples.topics_payload)
      as (Hsorted & Hreturns & _).
    destruct (Hreturns eq_refl) as [out Ho].
    destruct (Hsorted out Ho) as (arrival & Ha & H).
    exists arrival, out. split; [exact Ha|]. split; [exact Ho | exact H].
  - destruct (keywords_sorted_descending test_engine Samples.twinword_payload)
      as (_ & _ & Hsorted & Hreturns).
    destruct (Hreturns eq_refl) as [out Ho].
    destruct (Hsorted out Ho) as (arrival & Ha & H).
    exists arrival, out. split; [exact Ha|]. split; [exact Ho | exact H].
Defined.

(** The fixed unordered lists, sorted. *)
Example topics_sorted :
  (let* out := @MeaningCloud.extractKeywords test_engine Samples.topics_payload in
   Ok (map MeaningCloud.label out))
  = Ok [VStr "orbit"; VStr "NASA"; VStr "moon"; VStr "Apollo"; VStr "crater"].
Proof. vm_compute. reflexivity. Qed.

Example twinword_sorted :
  (let* out := @Twinword.extractKeywords test_engine Samples.twinword_payload in
   Ok (map Twinword.label out))
  = Ok ["orbit"; "lander"; "moon"; "crater"].
Proof. vm_compute. reflexivity. Qed.

(** ** Lab 4: escaping of table cells *)

Lemma string_forallb_app (f : ascii -> bool) (a b : string) :
  TextLab.string_forallb f (a +:+ b)
  = TextLab.string_forallb f a && TextLab.string_forallb f b.
Proof.
  induction a as [|c a IH]; [reflexivity|].
  rewrite append_cons. cbn. rewrite IH. now rewrite andb_assoc.
Qed.

Lemma entity_special (c : ascii) :
  TextLab.entity c
  = if Ascii.eqb c "&" then "&amp;"
    else if Ascii.eqb c "<" then "&lt;"
    else if Ascii.eqb c ">" then "&gt;"
    else if Ascii.eqb c "034" then "&quot;"
    else if Ascii.eqb c "'" then "&#39;"
    else String c EmptyString.
Proof. reflexivity. Qed.

Lemma entity_other (c : ascii) :
  TextLab.is_special c = false -> TextLab.entity c = String c EmptyString.
Proof.
  unfold TextLab.is_special, TextLab.entity. intros H.
  repeat (apply orb_false_iff in H as [H ?]).
  now repeat match goal with Hc : Ascii.eqb _ _ = false |- _ => rewrite Hc; clear Hc end.
Qed.

Lemma entity_markup_free (c : ascii) : markup_free (TextLab.entity c).
Proof.
  unfold markup_free, TextLab.entity.
  destruct (Ascii.eqb c "&"); [reflexivity|].
  destruct (Ascii.eqb c "<") eqn:H1; [reflexivity|].
  destruct (Ascii.eqb c ">") eqn:H2; [reflexivity|].
  destruct (Ascii.eqb c "034") eqn:H3; [reflexivity|].
  destruct (Ascii.eqb c "'") eqn:H4; [reflexivity|].
  cbn. unfold TextLab.is_markup. now rewrite H1, H2, H3, H4.
Qed.

Lemma replace_special_markup_free (s : string) :
  markup_free (TextLab.replace_special s).
Proof.
  unfold markup_free. induction s as [|c s IH]; [reflexivity|].
  cbn [TextLab.replace_special]. rewrite string_forallb_app, IH.
  now rewrite (entity_markup_free c).
Qed.

Lemma replace_special_concat (s : string) :
  TextLab.replace_special s
  = concat_strings (map TextLab.entity (list_ascii_of_string s)).
Proof.
  induction s as [|c s IH]; [reflexivity|]. cbn. now rewrite IH.
Qed.

Section EscapeHtml.
Context {E : Engine}.

Lemma escapeHtml_text (text : value) (safe : string) :
  nullish text = false -> ToString text = Ok safe ->
  TextLab.escapeHtml text = Ok (TextLab.replace_special safe).
Proof.
  intros Hn Hs. unfold TextLab.escapeHtml, coalesce. now rewrite Hn, Hs.
Qed.

Lemma escapeHtml_nullish (text : value) :
  nullish text = true -> TextLab.escapeHtml text = Ok EmptyString.
Proof. intros Hn. unfold TextLab.escapeHtml, coalesce. now rewrite Hn. Qed.

Lemma escapeHtml_returns_iff (text : value) :
  (exists out, TextLab.escapeHtml text = Ok out) <-> printable text = true.
Proof.
  destruct (nullish text) eqn:Hn.
  - rewrite (escapeHtml_nullish text Hn). destruct text; try discriminate;
      split; eauto.
  - rewrite <- ToString_returns_iff. unfold TextLab.escapeHtml, coalesce.
    rewrite Hn. split.
    + intros [out H]. destruct (ToString text); [eauto | discriminate].
    + intros [safe ->]. cbn. eauto.
Qed.

Lemma escapeHtml_markup_free (text : value) (out : string) :
  TextLab.escapeHtml text = Ok out -> markup_free out.
Proof.
  unfold TextLab.escapeHtml. intros H.
  destruct (ToString (coalesce text (VStr EmptyString))) as [safe|e];
    cbn [bind] in H; [|discriminate].
  injection H as <-. apply replace_special_markup_free.
Qed.

(** The table [renderKeywords] writes: the placeholder row without
    keywords, otherwise the rows of the keywords, in their order. *)
Lemma meaningcloud_table (data : value) (p p' : TextLab.page) :
  MeaningCloud.renderKeywords data p = Ok p' ->
  exists keywords,
    MeaningCloud.extractKeywords data = Ok keywords
    /\ (keywords = []
        /\ TextLab.keywordsTableBody p' = TextLab.ROW_NO_KEYWORDS
        /\ TextLab.keywordsChart p' = None
        \/ keywords <> []
           /\ exists rows,
                mapM MeaningCloud.keyword_row keywords = Ok rows
                /\ TextLab.keywordsTableBody p' = concat_strings rows
                /\ TextLab.keywordsChart p'
                   = Some (TextLab.mkChart
                             (map MeaningCloud.label (firstn 7 keywords))
                             (map MeaningCloud.relevance (firstn 7 keywords)))).
Proof.
  unfold MeaningCloud.renderKeywords. intros H.
  destruct (MeaningCloud.extractKeywords data) as [keywords|e];
    cbn [bind] in H; [|discriminate].
  exists keywords. split; [reflexivity|].
  destruct (Nat.eqb (List.length keywords) 0) eqn:Hn.
  - injection H as <-. left. apply Nat.eqb_eq, length_zero_iff_nil in Hn.
    repeat split; auto.
  - destruct (mapM MeaningCloud.keyword_row keywords) as [rows|e];
      cbn [bind] in H; [|discriminate].
    injection H as <-. right. split; [intros ->; discriminate|].
    exists rows. repeat split.
Qed.

Lemma twinword_table (data : value) (p p' : TextLab.page) :
  Twinword.renderKeywords data p = Ok p' ->
  exists keywords,
    Twinword.extractKeywords data = Ok keywords
    /\ (keywords = []
        /\ TextLab.keywordsTableBody p' = TextLab.ROW_NO_KEYWORDS
        /\ TextLab.keywordsChart p' = None
        \/ keywords <> []
           /\ exists rows,
                mapM Twinword.keyword_row keywords = Ok rows
                /\ TextLab.keywordsTableBody p' = concat_strings rows
                /\ TextLab.keywordsChart p'
                   = Some (TextLab.mkChart
                             (map (fun item => VStr (Twinword.label item))
                                (firstn 7 keywords))
                             (map Twinword.weight (firstn 7 keywords)))).
Proof.
  unfold Twinword.renderKeywords. intros H.
  destruct (Twinword.extractKeywords data) as [keywords|e];
    cbn [bind] in H; [|discriminate].
  exists keywords. split; [reflexivity|].
  destruct (Nat.eqb (List.length keywords) 0) eqn:Hn.
  - injection H as <-. left. apply Nat.eqb_eq, length_zero_iff_nil in Hn.
    repeat split; auto.
  - destruct (mapM Twinword.keyword_row keywords) as [rows|e];
      cbn [bind] in H; [|discriminate].
    injection H as <-. right. split; [intros ->; discriminate|].
    exists rows. repeat split.
Qed.

(** The label cell of a row is the escaped label, between the cell tags. *)
Lemma meaningcloud_row_cell (item : MeaningCloud.keyword) (row : string) :
  MeaningCloud.keyword_row item = Ok row ->
  exists cell rest : string,
    row = TextLab.NL +:+ "        <tr>" +:+ TextLab.NL +:+ "          <td>"
          +:+ cell +:+ "</td>" +:+ rest
    /\ TextLab.escapeHtml (MeaningCloud.label item) = Ok cell
    /\ markup_free cell.
Proof.
  unfold MeaningCloud.keyword_row. intros H.
  destruct (TextLab.escapeHtml (MeaningCloud.label item)) as [cell|e] eqn:Hc;
    cbn [bind] in H; [|discriminate].
  destruct (TextLab.escapeHtml (MeaningCloud.source item)) as [src|e];
    cbn [bind] in H; [|discriminate].
  injection H as <-. exists cell. eexists.
  split; [rewrite ?append_assoc; reflexivity|].
  split; [reflexivity | now apply escapeHtml_markup_free in Hc].
Qed.

Lemma twinword_row_cell (item : Twinword.keyword) (row : string) :
  Twinword.keyword_row item = Ok row ->
  exists cell rest : string,
    row = TextLab.NL +:+ "        <tr>" +:+ TextLab.NL +:+ "          <td>"
          +:+ cell +:+ "</td>" +:+ rest
    /\ TextLab.escapeHtml (VStr (Twinword.label item)) = Ok cell
    /\ markup_free cell.
Proof.
  unfold Twinword.keyword_row. intros H.
  destruct (TextLab.escapeHtml (VStr (Twinword.label item))) as [cell|e] eqn:Hc;
    cbn [bind] in H; [|discriminate].
  injection H as <-. exists cell. eexists.
  split; [rewrite ?append_assoc; reflexivity|].
  split; [reflexivity | now apply escapeHtml_markup_free in Hc].
Qed.
End EscapeHtml.

(** C10, as amended.  [escapeHtml] returns exactly on the values that
    [String] converts, those that hold no object with a property of its own
    named [toString].  What it returns is the text of the value
    ([undefined] and [null] giving the empty one, a string itself) with
    each of the five special characters replaced by its entity and the
    others left; it has no angle bracket and no quote.  The table
    [renderKeywords] writes, in both variants, is made of the rows of the
    keywords, and the label cell of each row is such an output of the label,
    standing between the cell tags. *)
Theorem escapeHtml_output_markup_free (E : Engine) :
  (forall text : value,
     (exists out, TextLab.escapeHtml text = Ok out) <-> printable text = true)
  /\ (forall (text : value) (out : string),
        TextLab.escapeHtml text = Ok out -> markup_free out)
  /\ (TextLab.escapeHtml VUndef = Ok EmptyString
      /\ TextLab.escapeHtml VNull = Ok EmptyString
      /\ (forall s : string,
            TextLab.escapeHtml (VStr s)
            = Ok (concat_strings (map TextLab.entity (list_ascii_of_string s))))
      /\ (forall (text : value) (safe : string),
            nullish text = false -> ToString text = Ok safe ->
            TextLab.escapeHtml text
            = Ok (concat_strings
                    (map TextLab.entity (list_ascii_of_string safe)))))
  /\ (TextLab.entity "&" = "&amp;"
      /\ TextLab.entity "<" = "&lt;"
      /\ TextLab.entity ">" = "&gt;"
      /\ TextLab.entity "034" = "&quot;"
      /\ TextLab.entity "'" = "&#39;"
      /\ (forall c : ascii,
            TextLab.is_special c = false ->
            TextLab.entity c = String c EmptyString))
  /\ (forall (data : value) (p p' : TextLab.page),
        MeaningCloud.renderKeywords data p = Ok p' ->
        TextLab.keywordsTableBody p' = TextLab.ROW_NO_KEYWORDS
        \/ exists keywords rows,
             MeaningCloud.extractKeywords data = Ok keywords
             /\ TextLab.keywordsTableBody p' = concat_strings rows
             /\ Forall2
                  (fun item row =>
                     exists cell rest : string,
                       row = TextLab.NL +:+ "        <tr>" +:+ TextLab.NL
                             +:+ "          <td>" +:+ cell +:+ "</td>" +:+ rest
                       /\ TextLab.escapeHtml (MeaningCloud.label item) = Ok cell
                       /\ markup_free cell)
                  keywords rows)
  /\ (forall (data : value) (p p' : TextLab.page),
        Twinword.renderKeywords data p = Ok p' ->
        TextLab.keywordsTableBody p' = TextLab.ROW_NO_KEYWORDS
        \/ exists keywords rows,
             Twinword.extractKeywords data = Ok keywords
             /\ TextLab.keywordsTableBody p' = concat_strings rows
             /\ Forall2
                  (fun item row =>
                     exists cell rest : string,
                       row = TextLab.NL +:+ "        <tr>" +:+ TextLab.NL
                             +:+ "          <td>" +:+ cell +:+ "</td>" +:+ rest
                       /\ TextLab.escapeHtml (VStr (Twinword.label item)) = Ok cell
                       /\ markup_free cell)
                  keywords rows).
Proof.
  split; [exact escapeHtml_returns_iff|].
  split; [exact escapeHtml_markup_free|].
  split.
  { split; [reflexivity|]. split; [reflexivity|]. split.
    - intros s. rewrite <- replace_special_concat. reflexivity.
    - intros text safe Hn Hs. rewrite <- replace_special_concat.
      now apply escapeHtml_text. }
  split.
  { repeat split; try reflexivity. apply entity_other. }
  split.
  - intros data p p' H.
    destruct (meaningcloud_table data p p' H)
      as (keywords & Hk & [(_ & Ht & _)|(_ & rows & Hr & Ht & _)]); [now left|].
    right. exists keywords, rows. split; [exact Hk|]. split; [exact Ht|].
    apply (mapM_Forall2 _ _ _ _ Hr). intros item row. apply meaningcloud_row_cell.
  - intros data p p' H.
    destruct (twinword_table data p p' H)
      as (keywords & Hk & [(_ & Ht & _)|(_ & rows & Hr & Ht & _)]); [now left|].
    right. exists keywords, rows. split; [exact Hk|]. split; [exact Ht|].
    apply (mapM_Forall2 _ _ _ _ Hr). intros item row. apply twinword_row_cell.
Qed.

Lemma escapeHtml_output_markup_free_witness :
  @TextLab.escapeHtml test_engine (VStr "<b>Tom & Jerry</b>")
  = Ok "&lt;b&gt;Tom &amp; Jerry&lt;/b&gt;"
  /\ markup_free "&lt;b&gt;Tom &amp; Jerry&lt;/b&gt;"
  /\ @TextLab.escapeHtml test_engine VNull = Ok EmptyString
  /\ exists out, @TextLab.escapeHtml test_engine (VArr [VNum (Fin 1); VNull]) = Ok out.
Proof.
  destruct (escapeHtml_output_markup_free test_engine)
    as (Hreturns & Hfree & (_ & Hnull & Hstring & _) & _).
  split; [exact (Hstring "<b>Tom & Jerry</b>")|].
  split; [|split; [exact Hnull|]].
  - apply (Hfree (VStr "<b>Tom & Jerry</b>")). exact (Hstring "<b>Tom & Jerry</b>").
  - apply Hreturns. reflexivity.
Defined.

(** C10 as stated fails on a value that [String] does not convert: a
    decoded object with a property named [toString] makes [escapeHtml]
    throw, and it returns no string. *)
Lemma escapeHtml_throws_on_unprintable :
  @TextLab.escapeHtml test_engine (VObj [("toString", VNum (Fin 1))])
  = Throw (TypeError "Cannot convert object to primitive value")
  /\ ~ exists out : string,
        @TextLab.escapeHtml test_engine (VObj [("toString", VNum (Fin 1))]) = Ok out.
Proof. split; [reflexivity|]. intros [out H]. discriminate. Qed.

Example escapeHtml_script :
  @TextLab.escapeHtml test_engine (VStr "<img src='x' onerror=alert(1)>")
  = Ok "&lt;img src=&#39;x&#39; onerror=alert(1)&gt;".
Proof. reflexivity. Qed.

(** ** Lab 3: the place normaliser *)

Section GeoNormaliser.
Context {E : Engine}.
Import Geo.

Lemma get_after_get (v : value) (k k' : string) (x : value) :
  get v k = Ok x -> exists y, get v k' = Ok y.
Proof.
  destruct v; cbn; try discriminate; intros _; eauto.
  - destruct (String.eqb k' "length"); eauto.
  - destruct (String.eqb k' "length"); eauto.
Qed.

(** The callback is [place_of] followed by the [seen] test. *)
Lemma visit_place_of (seen : gset string) (element : value) :
  visit seen element
  = let* built := place_of element in
    Ok (match built with
        | None => (seen, None)
        | Some pl =>
            if bool_decide (place_key pl ∈ seen) then (seen, None)
            else ({[place_key pl]} ∪ seen, Some pl)
        end).
Proof.
  unfold visit, place_of.
  destruct (get element "tags") as [tags|e] eqn:Htags; cbn [bind]; [|reflexivity].
  destruct (get_after_get element "tags" "id" tags Htags) as [id Hid].
  rewrite Hid.
  destruct (get element "type") as [type|e]; cbn [bind]; [|reflexivity].
  match goal with
  | |- context [bind ?r _] =>
      destruct r as [latLng|e]; cbn [bind]; [|reflexivity]
  end.
  set (tags' := match tags with VUndef => VObj [] | t => t end).
  destruct (negb (truthy latLng)); [reflexivity|].
  destruct (get tags' "name") as [name|e]; cbn [bind]; [|reflexivity].
  destruct (inferCategory tags') as [category|e]; cbn [bind]; [|reflexivity].
  destruct (buildAddress tags') as [address|e]; cbn [bind]; [|reflexivity].
  destruct (get latLng "lat") as [lat|e]; cbn [bind]; [|reflexivity].
  destruct (get latLng "lon") as [lon|e]; cbn [bind]; [|reflexivity].
  destruct (make_key (or_else name (VStr MSG_NO_NAME)) lat lon) as [key|e] eqn:Hk;
    cbn [bind]; [|reflexivity].
  unfold place_key. cbn [place_name place_lat place_lon]. rewrite Hk.
  destruct (bool_decide _); reflexivity.
Qed.

(** The key of a place that was built was made when it was built. *)
Lemma place_of_key (element : value) (pl : place) :
  place_of element = Ok (Some pl) ->
  make_key (place_name pl) (place_lat pl) (place_lon pl) = Ok (place_key pl).
Proof.
  unfold place_of. intros H.
  destruct (get element "tags") as [tags|e]; cbn [bind] in H; [|discriminate].
  destruct (get element "type") as [type|e]; cbn [bind] in H; [|discriminate].
  match type of H with
  | context [bind ?r _] =>
      destruct r as [latLng|e]; cbn [bind] in H; [|discriminate]
  end.
  destruct (negb (truthy latLng)); [discriminate|].
  repeat match type of H with
  | context [bind ?r _] =>
      let Hr := fresh "Hr" in
      destruct r as [?|?] eqn:Hr; cbn [bind] in H; [|discriminate]
  end.
  injection H as <-. unfold place_key. cbn [place_name place_lat place_lon].
  match goal with Hr : make_key _ _ _ = Ok _ |- _ => now rewrite Hr end.
Qed.

Lemma candidates_keys (data : value) (cands : list place) :
  candidates data = Ok cands ->
  Forall (fun c => make_key (place_name c) (place_lat c) (place_lon c)
                   = Ok (place_key c)) cands.
Proof.
  unfold candidates. intros H.
  destruct (get data "elements") as [elements|e]; cbn [bind] in H; [|discriminate].
  destruct elements as [| | | | |l|]; try discriminate.
  destruct (mapM place_of l) as [built|e] eqn:Hb; cbn [bind] in H; [|discriminate].
  injection H as <-. revert built Hb.
  induction l as [|element l IH]; intros built Hb; cbn in Hb.
  - injection Hb as <-. constructor.
  - destruct (place_of element) as [b|e] eqn:He; cbn [bind] in Hb; [|discriminate].
    destruct (mapM place_of l) as [bs|e]; cbn [bind] in Hb; [|discriminate].
    injection Hb as <-. destruct b as [pl|]; cbn [compact]; [|now apply IH].
    constructor; [now apply (place_of_key element) | now apply IH].
Qed.

Lemma visit_all_thread (seen : gset string) (elements : list value) :
  visit_all seen elements
  = let* built := mapM place_of elements in Ok (thread_seen seen built).
Proof.
  revert seen. induction elements as [|element rest IH]; intros seen; [reflexivity|].
  cbn [visit_all mapM]. rewrite visit_place_of.
  destruct (place_of element) as [[pl|]|e]; cbn [bind]; [| |reflexivity].
  - destruct (bool_decide (place_key pl ∈ seen)) eqn:Hs; rewrite IH;
      destruct (mapM place_of rest); cbn [bind thread_seen]; try reflexivity;
      now rewrite Hs.
  - rewrite IH. destruct (mapM place_of rest); reflexivity.
Qed.

(** Threading [seen] keeps the first place of each key, among the keys not
    seen before. *)
Lemma compact_thread_seen (seen : gset string) (built : list (option place)) :
  compact (thread_seen seen built)
  = filter (fun pl => negb (bool_decide (place_key pl ∈ seen)))
      (keep_first same_key (compact built)).
Proof.
  revert seen. induction built as [|[pl|] rest IH]; intros seen; [reflexivity| |].
  - cbn [thread_seen compact keep_first filter].
    assert (Hff : forall (S' : gset string) (keep : place -> bool) l,
              (forall y, negb (bool_decide (place_key y ∈ S')) = true ->
                         keep y = true) ->
              filter (fun y => negb (bool_decide (place_key y ∈ S')))
                (filter keep l)
              = filter (fun y => negb (bool_decide (place_key y ∈ S'))) l).
    { intros S' keep l Hk. induction l as [|y l IHl]; [reflexivity|]. cbn.
      destruct (keep y) eqn:Hy; cbn.
      - destruct (negb (bool_decide (place_key y ∈ S'))); now rewrite IHl.
      - destruct (negb (bool_decide (place_key y ∈ S'))) eqn:Hn; [|exact IHl].
        rewrite Hk in Hy by exact Hn. discriminate. }
    destruct (bool_decide (place_key pl ∈ seen)) eqn:Hs; cbn [negb compact].
    + rewrite IH. symmetry. apply Hff.
      intros y Hy. unfold same_key. apply negb_true_iff.
      apply String.eqb_neq. intros Heq. rewrite <- Heq in Hy.
      rewrite Hs in Hy. discriminate.
    + f_equal. rewrite IH.
      set (l := keep_first same_key (compact rest)). clearbody l.
      induction l as [|y l IHl]; [reflexivity|]. cbn [filter].
      unfold same_key at 1.
      destruct (String.eqb (place_key pl) (place_key y)) eqn:Hk; cbn [negb].
      * apply String.eqb_eq in Hk.
        rewrite bool_decide_eq_true_2
          by (rewrite <- Hk; apply elem_of_union; left; now apply elem_of_singleton).
        cbn [negb]. exact IHl.
      * apply String.eqb_neq in Hk. cbn [filter].
        destruct (bool_decide (place_key y ∈ seen)) eqn:Hy.
        -- apply bool_decide_eq_true in Hy.
           rewrite bool_decide_eq_true_2
             by (apply elem_of_union; now right).
           cbn [negb]. exact IHl.
        -- apply bool_decide_eq_false in Hy.
           rewrite bool_decide_eq_false_2.
           2:{ rewrite elem_of_union, elem_of_singleton.
               intros [Heq|Hin]; [congruence | contradiction]. }
           cbn [negb]. now rewrite IHl.
  - cbn [thread_seen compact]. apply IH.
Qed.

Lemma keep_first_subset {A : Type} (same : A -> A -> bool) (l : list A) (x : A) :
  In x (keep_first same l) -> In x l.
Proof.
  revert x. induction l as [|y l IH]; intros x Hx; [exact Hx|].
  cbn in Hx. destruct Hx as [->|Hx]; [now left|].
  apply filter_In in Hx as [Hx _]. right. auto.
Qed.

Lemma keep_first_keys_distinct (l : list place) :
  NoDup (map place_key (keep_first same_key l)).
Proof.
  induction l as [|x l IH]; cbn; [constructor|].
  constructor.
  - intros Hin. apply in_map_iff in Hin as (y & Hk & Hy).
    apply filter_In in Hy as [_ Hy]. unfold same_key in Hy.
    apply negb_true_iff, String.eqb_neq in Hy. congruence.
  - clear - IH. induction (keep_first same_key l) as [|y k IHk]; cbn; [constructor|].
    inversion IH; subst. destruct (negb (same_key x y)); cbn; auto.
    constructor; auto.
    intros Hin. apply in_map_iff in Hin as (z & Hz & Hin).
    apply filter_In in Hin as [Hin _]. apply H1. apply in_map_iff. eauto.
Qed.

(** Every candidate is represented by the first place of its key. *)
Lemma keep_first_covers (l : list place) (x : place) :
  In x l -> exists y, In y (keep_first same_key l) /\ place_key y = place_key x.
Proof.
  induction l as [|z l IH]; intros Hx; [destruct Hx|].
  cbn. destruct Hx as [->|Hx].
  - exists x. split; [now left | reflexivity].
  - destruct (IH Hx) as (y & Hy & Hk).
    destruct (same_key z y) eqn:Hs.
    + exists z. split; [now left|]. unfold same_key in Hs.
      apply String.eqb_eq in Hs. congruence.
    + exists y. split; [|exact Hk]. right. apply filter_In.
      split; [exact Hy | now rewrite Hs].
Qed.

Lemma sortM_permutation {A : Type} (cmp : A -> A -> result num) (l out : list A) :
  sortM cmp l = Ok out -> Permutation l out.
Proof.
  assert (Hins : forall x l out,
            insert_sortedM cmp x l = Ok out -> Permutation (x :: l) out).
  { intros x l0. induction l0 as [|y l0 IH]; intros out0 H; cbn in H.
    - injection H as <-. reflexivity.
    - destruct (cmp x y) as [c|e]; cbn in H; [|discriminate].
      destruct (num_sign c).
      + injection H as <-. reflexivity.
      + injection H as <-. reflexivity.
      + destruct (insert_sortedM cmp x l0) as [r|e]; cbn in H; [|discriminate].
        injection H as <-. rewrite perm_swap. constructor. now apply IH. }
  revert out. induction l as [|x l IH]; intros out H; cbn in H.
  - injection H as <-. reflexivity.
  - destruct (sortM cmp l) as [s|e]; cbn in H; [|discriminate].
    apply Hins in H. rewrite <- H. constructor. now apply IH.
Qed.

Lemma sortM_total {A : Type} (cmp : A -> A -> result num) (l : list A) :
  (forall x y, In x l -> In y l -> exists c, cmp x y = Ok c) ->
  exists out, sortM cmp l = Ok out.
Proof.
  assert (Hins : forall x l,
            (forall y, In y l -> exists c, cmp x y = Ok c) ->
            exists out, insert_sortedM cmp x l = Ok out).
  { intros x l0. induction l0 as [|y l0 IH]; intros Hc; cbn; [eauto|].
    destruct (Hc y (or_introl eq_refl)) as [c ->]. cbn.
    destruct (num_sign c); eauto.
    destruct IH as [r ->]; [intros z Hz; apply Hc; now right|]. cbn. eauto. }
  induction l as [|x l IH]; intros Hc; cbn; [eauto|].
  destruct IH as [s Hs]; [intros a b Ha Hb; apply Hc; now right|].
  rewrite Hs. cbn. apply Hins. intros y Hy. apply Hc; [now left|].
  right. eapply Permutation_in; [symmetry; eapply sortM_permutation; eauto|exact Hy].
Qed.
End GeoNormaliser.

(** The comparator of the sort, where it returns, is [by_name]. *)
Section GeoOrder.
Context {E : Engine}.
Import Geo GeoSearch.

Lemma compare_names_by_name (a b : place) (c : num) :
  compare_names a b = Ok c -> c = by_name a b.
Proof.
  unfold compare_names, by_name, name_text.
  destruct (place_name a); try discriminate. cbn [ToString].
  destruct (ToString (place_name b)) as [that|e]; cbn [bind]; [|discriminate].
  intros H. now injection H as <-.
Qed.

Lemma insert_sortedM_by_name (x : place) (l out : list place) :
  insert_sortedM compare_names x l = Ok out -> out = insert_sorted by_name x l.
Proof.
  revert out. induction l as [|y l IH]; intros out H; cbn in H.
  - now injection H as <-.
  - destruct (compare_names x y) as [c|e] eqn:Hc; cbn [bind] in H; [|discriminate].
    apply compare_names_by_name in Hc. subst c.
    cbn [insert_sorted]. unfold after.
    destruct (num_sign (by_name x y)); try (now injection H as <-).
    destruct (insert_sortedM compare_names x l) as [r|e]; cbn [bind] in H;
      [|discriminate].
    injection H as <-. now rewrite (IH r eq_refl).
Qed.

Lemma sortM_by_name (l out : list place) :
  sortM compare_names l = Ok out -> out = sort by_name l.
Proof.
  revert out. induction l as [|x l IH]; intros out H; cbn in H.
  - now injection H as <-.
  - destruct (sortM compare_names l) as [s|e]; cbn [bind] in H; [|discriminate].
    apply insert_sortedM_by_name in H. cbn [sort]. now rewrite <- (IH s eq_refl).
Qed.
End GeoOrder.

Section GeoShape.
Context {E : Engine}.
Import Geo.

Lemma tags_ok_printable (t : list (string * value)) (k : string) :
  tags_ok (VObj t) = true -> printable (default VUndef (assoc k t)) = true.
Proof.
  cbn. intros H. apply andb_true_iff in H as [_ H]. now apply assoc_printable.
Qed.

Lemma inferCategory_object (t : list (string * value)) :
  tags_ok (VObj t) = true ->
  exists c,
    inferCategory (VObj t) = Ok c
    /\ c <> EmptyString
    /\ (assoc "tourism" t = None -> assoc "amenity" t = None ->
        c = CATEGORY_DEFAULT).
Proof.
  intros Hok. unfold inferCategory. cbn [get bind].
  destruct (printable_ToString _ (tags_ok_printable t "tourism" Hok)) as [st Hst].
  destruct (printable_ToString _ (tags_ok_printable t "amenity" Hok)) as [sa Hsa].
  rewrite Hst, Hsa. cbn [bind].
  destruct (truthy (default VUndef (assoc "tourism" t))) eqn:Ht.
  - repeat match goal with
    | |- context [if ?b then _ else _] => destruct b
    end;
      (eexists; split; [reflexivity|]; split;
       [try discriminate; apply append_nonempty; discriminate
       |intros H; rewrite H in Ht; discriminate]).
  - destruct (truthy (default VUndef (assoc "amenity" t))) eqn:Ha.
    + repeat match goal with
      | |- context [if ?b then _ else _] => destruct b
      end;
        (eexists; split; [reflexivity|]; split;
         [try discriminate; apply append_nonempty; discriminate
         |intros _ H; rewrite H in Ha; discriminate]).
    + eexists. split; [reflexivity|]. split; [discriminate | reflexivity].
Qed.

Lemma mapM_ToString_printable (l : list value) :
  forallb printable l = true -> exists texts, mapM ToString l = Ok texts.
Proof.
  intros H. apply (mapM_total ToString printable); [|exact H].
  intros x. apply printable_ToString.
Qed.

Lemma address_parts (first : string) (t : list (string * value)) :
  tags_ok (VObj t) = true ->
  exists a,
    (let* texts :=
       mapM ToString
         (filter truthy
            [VStr first; default VUndef (assoc "addr:city" t);
             default VUndef (assoc "addr:state" t);
             default VUndef (assoc "addr:country" t)]) in
     Ok (join ", " texts)) = Ok a
    /\ (first = EmptyString -> assoc "addr:city" t = None ->
        assoc "addr:state" t = None -> assoc "addr:country" t = None ->
        a = EmptyString).
Proof.
  intros Hok.
  destruct (mapM_ToString_printable
              (filter truthy
                 [VStr first; default VUndef (assoc "addr:city" t);
                  default VUndef (assoc "addr:state" t);
                  default VUndef (assoc "addr:country" t)])) as [texts Ht].
  { apply forallb_forall. intros x Hx. apply filter_In in Hx as [Hx _].
    destruct Hx as [<-|[<-|[<-|[<-|[]]]]]; [reflexivity| | |];
      now apply tags_ok_printable. }
  rewrite Ht. cbn [bind]. eexists. split; [reflexivity|].
  intros -> H2 H3 H4. rewrite H2, H3, H4 in Ht. cbn in Ht.
  injection Ht as <-. reflexivity.
Qed.

Lemma buildAddress_object (t : list (string * value)) :
  tags_ok (VObj t) = true ->
  exists a,
    buildAddress (VObj t) = Ok a
    /\ (assoc "addr:street" t = None -> assoc "addr:city" t = None ->
        assoc "addr:state" t = None -> assoc "addr:country" t = None ->
        a = EmptyString).
Proof.
  intros Hok. unfold buildAddress. cbn [get bind].
  destruct (printable_ToString _ (tags_ok_printable t "addr:street" Hok))
    as [ss Hss].
  destruct (printable_ToString _ (tags_ok_printable t "addr:housenumber" Hok))
    as [sn Hsn].
  rewrite Hss, Hsn. cbn [bind].
  destruct (truthy (default VUndef (assoc "addr:street" t))) eqn:Hs.
  - destruct (truthy (default VUndef (assoc "addr:housenumber" t)));
      cbn [bind];
      match goal with
      | |- context [VStr ?first :: _] =>
          destruct (address_parts first t Hok) as (a & Ha & _)
      end;
      (exists a; split; [exact Ha|]; intros H; rewrite H in Hs; discriminate).
  - cbn [bind]. destruct (address_parts EmptyString t Hok) as (a & Ha & He).
    exists a. split; [exact Ha|]. intros _. now apply He.
Qed.

Lemma name_or_default (t : list (string * value)) :
  tags_ok (VObj t) = true ->
  exists s,
    or_else (default VUndef (assoc "name" t)) (VStr MSG_NO_NAME) = VStr s
    /\ s <> EmptyString
    /\ (assoc "name" t = None -> s = MSG_NO_NAME).
Proof.
  cbn. intros H. apply andb_true_iff in H as [H _]. revert H.
  destruct (assoc "name" t) as [[| | | |s| |]|]; try discriminate; intros _.
  - unfold or_else. cbn. destruct s; cbn.
    + eexists. split; [reflexivity|]. split; [discriminate|discriminate].
    + eexists. split; [reflexivity|]. split; [discriminate|discriminate].
  - eexists. split; [reflexivity|]. split; [discriminate|reflexivity].
Qed.

(** The rest of [place_of], once the tags and the coordinates are there. *)
Lemma place_of_tail (element tags type latLng : value)
    (t cp : list (string * value)) :
  tags = VObj t -> tags_ok tags = true ->
  latLng = VObj cp -> coords_ok latLng = true ->
  (exists id, get element "id" = Ok id) ->
  exists pl,
    (if negb (truthy latLng) then Ok None
     else
       let* name := get tags "name" in
       let name := or_else name (VStr MSG_NO_NAME) in
       let* category := inferCategory tags in
       let* address := buildAddress tags in
       let* lat := get latLng "lat" in
       let* lon := get latLng "lon" in
       let* key := make_key name lat lon in
       let* id := get element "id" in
       Ok (Some (mkPlace id type lat lon name category address tags)))
    = Ok (Some pl)
    /\ place_complete pl /\ place_defaulted pl
    /\ tags_ok (place_tags pl) = true.
Proof.
  intros -> Htags -> Hcoords [id Hid].
  cbn [truthy negb get bind].
  destruct (name_or_default t Htags) as (s & Hs & Hne & Hdef).
  destruct (inferCategory_object t Htags) as (c & Hc & Hcne & Hcdef).
  destruct (buildAddress_object t Htags) as (a & Ha & Hadef).
  rewrite Hc, Ha, Hid. cbn [bind]. rewrite Hs.
  cbn in Hcoords. apply andb_true_iff in Hcoords as [Hlat Hlon].
  destruct (default VUndef (assoc "lat" cp)) as [| | |lat| | |] eqn:Elat;
    try discriminate.
  destruct (default VUndef (assoc "lon" cp)) as [| | |lon| | |] eqn:Elon;
    try discriminate.
  cbn [make_key ToString bind].
  eexists. split; [reflexivity|].
  split; [|split].
  - unfold place_complete. cbn. repeat split; eauto.
  - exists t. cbn. repeat split; auto.
    intros Hn. f_equal. auto.
  - exact Htags.
Qed.

Lemma place_of_total (element : value) :
  element_ok element = true ->
  exists built,
    place_of element = Ok built
    /\ (forall pl, built = Some pl ->
          place_complete pl /\ place_defaulted pl
          /\ tags_ok (place_tags pl) = true).
Proof.
  destruct element as [| | | | | |props]; try discriminate.
  intros Hok. cbn in Hok. apply andb_true_iff in Hok as [Htags Hrest].
  assert (Hid : exists id, get (VObj props) "id" = Ok id) by (cbn; eauto).
  unfold place_of.
  change (get (VObj props) "tags") with (Ok (default VUndef (assoc "tags" props))).
  change (get (VObj props) "type") with (Ok (default VUndef (assoc "type" props))).
  change (get (VObj props) "lat") with (Ok (default VUndef (assoc "lat" props))).
  change (get (VObj props) "lon") with (Ok (default VUndef (assoc "lon" props))).
  change (get (VObj props) "center")
    with (Ok (default VUndef (assoc "center" props))).
  cbn [bind].
  set (tags0 := default VUndef (assoc "tags" props)) in *.
  assert (Ht : exists t,
            match tags0 with VUndef => VObj [] | other => other end = VObj t
            /\ tags_ok (VObj t) = true).
  { destruct tags0; try discriminate; eauto. }
  destruct Ht as (t & Ht & Htok). rewrite Ht. clearbody tags0.
  destruct (is_str (default VUndef (assoc "type" props)) "node").
  - cbn [bind].
    destruct (place_of_tail (VObj props) (VObj t)
                (default VUndef (assoc "type" props))
                (VObj [("lat", default VUndef (assoc "lat" props));
                       ("lon", default VUndef (assoc "lon" props))])
                t _ eq_refl Htok eq_refl Hrest Hid) as (pl & Hpl & Hc & Hd).
    exists (Some pl). split; [exact Hpl|].
    intros pl' Heq. injection Heq as <-. auto.
  - destruct (assoc "center" props) as [center|].
    + destruct center as [| | | | | |cp]; try discriminate.
      destruct (place_of_tail (VObj props) (VObj t)
                  (default VUndef (assoc "type" props)) (VObj cp)
                  t cp eq_refl Htok eq_refl Hrest Hid) as (pl & Hpl & Hc & Hd).
      exists (Some pl). split; [exact Hpl|].
      intros pl' Heq. injection Heq as <-. auto.
    + exists None. split; [reflexivity|]. discriminate.
Qed.

Lemma mapM_place_of_total (elements : list value) :
  forallb element_ok elements = true ->
  exists built,
    mapM place_of elements = Ok built
    /\ Forall (fun pl => place_complete pl /\ place_defaulted pl
                         /\ tags_ok (place_tags pl) = true) (compact built).
Proof.
  induction elements as [|element rest IH]; intros H; cbn in H.
  - exists []. split; [reflexivity | constructor].
  - apply andb_true_iff in H as [He Hr].
    destruct (place_of_total element He) as (b & Hb & Hpl).
    destruct (IH Hr) as (bs & Hbs & Hall).
    exists (b :: bs). split; [cbn; now rewrite Hb, Hbs|].
    destruct b as [pl|]; cbn; [constructor; auto | exact Hall].
Qed.

Lemma filter_not_seen_empty (l : list place) :
  filter (fun pl => negb (bool_decide (place_key pl ∈ (∅ : gset string)))) l = l.
Proof.
  induction l as [|x l IHl]; [reflexivity|]. cbn [filter].
  rewrite bool_decide_eq_false_2 by apply not_elem_of_empty.
  cbn [negb]. now rewrite IHl.
Qed.

(** Whatever the payload, a list the normaliser returns holds the first
    place of each key among the candidates. *)
Lemma normalizePlaces_keeps_first (data : value) (out : list place) :
  normalizePlaces data = Ok out ->
  exists cands,
    candidates data = Ok cands
    /\ Permutation (keep_first same_key cands) out
    /\ out = sort GeoSearch.by_name (keep_first same_key cands).
Proof.
  unfold normalizePlaces, candidates.
  destruct (get data "elements") as [elements|e]; cbn [bind]; [|discriminate].
  destruct elements as [| | | | |l|]; try discriminate.
  rewrite visit_all_thread.
  destruct (mapM place_of l) as [built|e]; cbn [bind]; [|discriminate].
  rewrite compact_thread_seen, filter_not_seen_empty. intros H.
  eexists. split; [reflexivity|].
  split; [now apply sortM_permutation in H | now apply sortM_by_name].
Qed.

(** On an Overpass-shaped payload the normaliser returns the first place of
    each key, in some order, every one complete, with its placeholders and
    with tags that can be printed. *)
Lemma normalizePlaces_shaped (data : value) :
  geo_payload data = true ->
  exists cands out,
    candidates data = Ok cands
    /\ normalizePlaces data = Ok out
    /\ Permutation (keep_first same_key cands) out
    /\ Forall (fun pl => place_complete pl /\ place_defaulted pl
                         /\ tags_ok (place_tags pl) = true) out.
Proof.
  destruct data as [| | | | | |props]; try discriminate.
  intros Hall. unfold geo_payload in Hall.
  destruct (assoc "elements" props) as [[| | | | |elements|]|] eqn:Hel;
    try discriminate.
  destruct (mapM_place_of_total elements Hall) as (built & Hb & Hcomplete).
  unfold candidates, normalizePlaces.
  change (get (VObj props) "elements")
    with (Ok (default VUndef (assoc "elements" props))).
  rewrite Hel. cbn [default from_option id bind].
  rewrite visit_all_thread, Hb. cbn [bind].
  rewrite compact_thread_seen.
  rewrite filter_not_seen_empty.
  assert (Hkept : Forall (fun pl => place_complete pl /\ place_defaulted pl
                                    /\ tags_ok (place_tags pl) = true)
                    (keep_first same_key (compact built))).
  { apply Forall_forall. intros x Hx. apply keep_first_subset in Hx.
    rewrite Forall_forall in Hcomplete. auto. }
  destruct (sortM_total compare_names (keep_first same_key (compact built)))
    as [out Hout].
  { intros x y Hx Hy. rewrite Forall_forall in Hkept.
    destruct (Hkept x Hx) as [[(s & Hs & _) _] _].
    destruct (Hkept y Hy) as [[(s' & Hs' & _) _] _].
    unfold compare_names. rewrite Hs, Hs'. cbn. eauto. }
  exists (compact built), out. split; [reflexivity|]. split; [exact Hout|].
  pose proof (sortM_permutation _ _ _ Hout) as HP.
  split; [exact HP|].
  eapply Permutation_Forall; [exact HP | exact Hkept].
Qed.
End GeoShape.

(** C3, as amended.  Whenever the normaliser returns, it has kept, of the
    places built from the elements that have coordinates, the first one of
    each key; the key is the text made of the name, the latitude and the
    longitude as received, with no rounding, and it was made for every
    candidate.  No two places returned share a key and every candidate's
    key is represented.  The places kept are returned sorted by their
    names, those the comparator does not tell apart staying in their
    order: with a collation that is an order, no place stands before one
    that the collation puts before it.  On an Overpass-shaped payload the
    normaliser does return. *)
Theorem places_deduplicated_by_key (E : Engine) (data : value) :
  (forall out : list Geo.place,
     Geo.normalizePlaces data = Ok out ->
     exists cands,
       Geo.candidates data = Ok cands
       /\ Forall (fun c =>
                    Geo.make_key (Geo.place_name c) (Geo.place_lat c)
                      (Geo.place_lon c) = Ok (Geo.place_key c)) cands
       /\ Permutation (Geo.keep_first Geo.same_key cands) out
       /\ out = sort GeoSearch.by_name (Geo.keep_first Geo.same_key cands)
       /\ (GeoSearch.collation_is_an_order -> GeoSearch.in_name_order out)
       /\ NoDup (map Geo.place_key out)
       /\ (forall c, In c cands ->
             exists o, In o out /\ Geo.place_key o = Geo.place_key c))
  /\ (Geo.geo_payload data = true ->
      exists out, Geo.normalizePlaces data = Ok out).
Proof.
  split.
  - intros out Ho.
    destruct (normalizePlaces_keeps_first data out Ho) as (cands & Hc & HP & Hs).
    exists cands. split; [exact Hc|]. split; [now apply (candidates_keys data)|].
    split; [exact HP|]. split; [exact Hs|]. split; [|split].
    + intros [Hanti Htrans]. rewrite Hs. unfold GeoSearch.in_name_order.
      apply sort_in_order.
      * intros a b. apply Hanti.
      * intros a b c. apply Htrans.
    + eapply Permutation_NoDup; [apply Permutation_map; exact HP|].
      apply keep_first_keys_distinct.
    + intros c Hin. destruct (keep_first_covers cands c Hin) as (y & Hy & Hk).
      exists y. split; [|exact Hk]. eapply Permutation_in; eauto.
  - intros Hshape.
    destruct (normalizePlaces_shaped data Hshape) as (cands & out & _ & Ho & _).
    eauto.
Qed.

Lemma places_deduplicated_by_key_witness :
  exists cands out,
    @Geo.candidates test_engine Samples.overpass_payload = Ok cands
    /\ @Geo.normalizePlaces test_engine Samples.overpass_payload = Ok out
    /\ Permutation (Geo.keep_first (@Geo.same_key test_engine) cands) out
    /\ @GeoSearch.in_name_order test_engine out
    /\ NoDup (map (@Geo.place_key test_engine) out).
Proof.
  destruct (places_deduplicated_by_key test_engine Samples.overpass_payload)
    as [Hkept Hreturns].
  destruct (Hreturns eq_refl) as [out Ho].
  destruct (Hkept out Ho) as (cands & Hc & _ & HP & _ & Hord & Hnd & _).
  exists cands, out. split; [exact Hc|]. split; [exact Ho|]. split; [exact HP|].
  split; [exact (Hord code_units_are_an_order) | exact Hnd].
Defined.

(** C3 as stated fails: two places of the same name whose latitudes agree
    to five decimals and differ in the seventh have the same rounded key, and
    both are returned. *)
Lemma places_same_rounded_key_both_kept :
  exists a b rest,
    @Geo.normalizePlaces test_engine Samples.overpass_payload = Ok (a :: b :: rest)
    /\ Geo.same_rounded_key a b = true
    /\ Geo.place_id a = VNum (num_of_Z 1)
    /\ Geo.place_id b = VNum (num_of_Z 2).
Proof.
  do 3 eexists. split; [vm_compute; reflexivity|].
  split; [vm_compute; reflexivity|]. split; reflexivity.
Qed.

(** The exact repetition of the first place is dropped. *)
Example places_exact_duplicate_dropped :
  (let* out := @Geo.normalizePlaces test_engine Samples.overpass_payload in
   Ok (map Geo.place_id out))
  = Ok [VNum (num_of_Z 1); VNum (num_of_Z 2); VNum (num_of_Z 5)].
Proof. vm_compute. reflexivity. Qed.

(** ** Totality of the normalisers on payloads of the expected shape *)

Section Totality.
Context {E : Engine}.

Lemma truncate_description (text : value) :
  text = VUndef \/ text = VNull \/ (exists s, text = VStr s) ->
  exists s,
    Nasa.truncate text 200 = Ok (VStr s)
    /\ s <> EmptyString
    /\ (truthy text = false -> s = Nasa.MSG_NO_DESCRIPTION).
Proof.
  intros [->|[->|[s ->]]].
  - eexists. split; [reflexivity|]. split; [discriminate | reflexivity].
  - eexists. split; [reflexivity|]. split; [discriminate | reflexivity].
  - rewrite truncate_string. eexists. split; [reflexivity|].
    destruct (str_is_empty s) eqn:Hs.
    + split; [discriminate | reflexivity].
    + split; [|cbn; rewrite Hs; discriminate].
      destruct (String.length s <=? 200).
      * now apply str_is_empty_false.
      * intros H. apply (f_equal String.length) in H.
        rewrite length_append in H. cbn in H. lia.
Qed.

Lemma twinword_extract_total (data : value) :
  Twinword.keyword_payload data = true ->
  let keywordMap := or_else (get_opt data "keyword") (VObj []) in
  exists out,
    Twinword.extractKeywords data = Ok out
    /\ Forall (fun k =>
                 nonnan (Twinword.weight k)
                 /\ Twinword.label k <> EmptyString
                 /\ Twinword.source k = "Twinword"
                 /\ exists raw n,
                      In (Twinword.label k, raw) (entries keywordMap)
                      /\ ToNumber raw = Ok n
                      /\ Twinword.weight k
                         = if num_truthy n then n else Fin 0%Q) out.
Proof.
  intros Hshape keywordMap.
  destruct (twinword_labelled_total data Hshape) as [arrival Ha].
  destruct (twinword_extract_sorted _ _ Ha) as (out & Ho & HP & _).
  exists out. split; [exact Ho|].
  eapply Permutation_Forall; [exact HP|].
  pose proof (twinword_weight_nonnan data arrival Ha) as Hnn.
  unfold Twinword.keyword_payload in Hshape.
  apply andb_true_iff in Hshape as [Hd _]. apply negb_true_iff in Hd.
  unfold Twinword.labelled_keywords in Ha.
  rewrite (get_not_nullish data) in Ha by exact Hd. cbn [bind] in Ha.
  fold keywordMap in Ha.
  destruct (mapM Twinword.keyword_of (entries keywordMap)) as [items|e] eqn:Hi;
    cbn [bind] in Ha; [|discriminate].
  injection Ha as <-.
  pose proof (mapM_Forall2 Twinword.keyword_of
                (fun entry k => Twinword.keyword_of entry = Ok k)
                _ _ Hi (fun x y H => H)) as Hall.
  apply Forall_forall. intros k Hk.
  rewrite Forall_forall in Hnn. split; [now apply Hnn|].
  apply filter_In in Hk as [Hk Hl].
  split; [apply str_is_empty_false; now apply negb_true_iff|].
  clear - Hall Hk. induction Hall as [|[label raw] k' entries' items' Hk' Hall IH].
  - destruct Hk.
  - destruct Hk as [<-|Hk].
    + unfold Twinword.keyword_of, number_or_zero in Hk'. cbn [fst snd] in Hk'.
      destruct (ToNumber raw) as [n|e] eqn:Hn; cbn [bind] in Hk'; [|discriminate].
      injection Hk' as <-. split; [reflexivity|]. exists raw, n.
      cbn [Twinword.label Twinword.weight].
      split; [now left|]. split; [exact Hn | reflexivity].
    + destruct (IH Hk) as (Hs & raw' & n' & Hin & Hr).
      split; [exact Hs|]. exists raw', n'. split; [now right | exact Hr].
Qed.

End Totality.





(** The placeholders at work: a card for an item without title and
    description, and the place built from a node without tags. *)
Example card_placeholders :
  (let* cards :=
     @Nasa.build_cards test_engine
       [VObj [("data", VArr [VObj [("nasa_id", VStr "PIA00002")]])]] in
   Ok (map (fun c => (Nasa.card_title c, Nasa.card_description c)) cards))
  = Ok [(Nasa.MSG_NO_TITLE, Nasa.MSG_NO_DESCRIPTION)].
Proof. vm_compute. reflexivity. Qed.

Example place_placeholders :
  (let* out := @Geo.normalizePlaces test_engine Samples.overpass_payload in
   Ok (map (fun pl => (Geo.place_name pl, Geo.place_category pl, Geo.place_address pl))
         (skipn 2 out)))
  = Ok [(VStr Geo.MSG_NO_NAME, Geo.CATEGORY_DEFAULT, EmptyString)].
Proof. vm_compute. reflexivity. Qed.

(** ** Lab 5: persisted preferences *)

Section Preferences.
Context {E : Engine}.
Import Weather.

Lemma settle_error (p : page) (e : error) : successful (settle (p, Some e)) = false.
Proof. reflexivity. Qed.

Lemma settle_frame (outcome : page * option error) :
  localStorage (settle outcome) = localStorage (fst outcome)
  /\ metricSelect (settle outcome) = metricSelect (fst outcome).
Proof. destruct outcome as [p [e|]]; split; reflexivity. Qed.

Lemma mapM_length {A B : Type} (f : A -> result B) (l : list A) (ys : list B) :
  mapM f l = Ok ys -> List.length ys = List.length l.
Proof.
  revert ys. induction l as [|x l IH]; intros ys H; cbn in H.
  - now injection H as <-.
  - destruct (f x); cbn in H; [|discriminate].
    destruct (mapM f l); cbn in H; [|discriminate].
    injection H as <-. cbn. f_equal. now apply IH.
Qed.

(** [updateChart] shows the success status only for one of the four
    metrics; it never touches the storage. *)
Lemma updateChart_success (p : page) :
  (localStorage (fst (updateChart p)) = localStorage p
   /\ metricSelect (fst (updateChart p)) = metricSelect p)
  /\ (successful (settle (updateChart p)) = true ->
      exists label field,
        metricConfig (select_value (metricSelect p)) = Config label field).
Proof.
  unfold updateChart.
  destruct (metricConfig (select_value (metricSelect p))) as [label field| |] eqn:Hc;
    cbn [config_truthy negb].
  - split; [|eauto].
    destruct (parseLocalDate (startInput p)) as [startDate|],
             (parseLocalDate (endInput p)) as [endDate|];
      try (split; reflexivity).
    destruct (num_leb endDate startDate); [split; reflexivity|].
    destruct (in_period startDate endDate (lastForecast p)) as [kept|e];
      [|split; reflexivity].
    destruct (mapM (point_of (Config label field)) kept) as [points|e];
      [|split; reflexivity].
    destruct (Nat.eqb (List.length points) 0); split; reflexivity.
  - destruct (parseLocalDate (startInput p)) as [startDate|],
             (parseLocalDate (endInput p)) as [endDate|];
      try (split; [split; reflexivity | discriminate]).
    destruct (num_leb endDate startDate); [split; [split; reflexivity | discriminate]|].
    destruct (in_period startDate endDate (lastForecast p)) as [kept|e];
      [|split; [split; reflexivity | discriminate]].
    destruct (mapM (point_of Inherited) kept) as [points|e] eqn:Hm;
      [|split; [split; reflexivity | discriminate]].
    destruct kept as [|entry kept].
    + cbn in Hm. injection Hm as <-. split; [split; reflexivity | discriminate].
    + exfalso. cbn in Hm. unfold point_of at 1 in Hm.
      destruct (get entry "dt") as [dt|]; cbn in Hm; [|discriminate].
      destruct (ToNumber dt); cbn in Hm; discriminate.
  - split; [split; reflexivity | discriminate].
Qed.

Lemma index_of_nth (v : string) (l : list string) (i : nat) :
  nth i l EmptyString = v -> v <> EmptyString ->
  exists j, index_of v l = Some j /\ nth j l EmptyString = v.
Proof.
  revert i. induction l as [|x l IH]; intros i Hn Hv.
  - destruct i; cbn in Hn; congruence.
  - cbn. destruct (String.eqb x v) eqn:Hx.
    + apply String.eqb_eq in Hx. exists 0. split; [reflexivity | exact Hx].
    + destruct i as [|i]; cbn in Hn.
      * apply String.eqb_neq in Hx. congruence.
      * destruct (IH i Hn Hv) as (j & -> & Hj). exists (S j). split; [reflexivity | exact Hj].
Qed.

(** Setting a [select] to the value it shows on a page with the same options
    shows that value again. *)
Lemma select_set_own_value (s : select) (selected : option nat) :
  select_value s <> EmptyString ->
  select_value (select_set_value (select_value s) (mkSelect (options s) selected))
  = select_value s.
Proof.
  intros Hv. unfold select_value in *. cbn.
  destruct (selectedIndex s) as [i|]; [|congruence].
  destruct (index_of_nth _ (options s) i eq_refl Hv) as (j & -> & Hj).
  exact Hj.
Qed.

Lemma metricConfig_nonempty (m label field : string) :
  metricConfig m = Config label field -> m <> EmptyString.
Proof. intros H ->. discriminate. Qed.

(** What [persistPreferences] leaves in a storage that takes the writes. *)
Lemma persistPreferences_items (apiKey city : string) (p : page) :
  available (localStorage p) = true ->
  accepts (localStorage p) "ow_apiKey" apiKey = true ->
  accepts (localStorage p) "ow_city" city = true ->
  accepts (localStorage p) "ow_metric" (select_value (metricSelect p)) = true ->
  let p' := persistPreferences apiKey city p in
  available (localStorage p') = true
  /\ items (localStorage p') !! "ow_apiKey" = Some apiKey
  /\ items (localStorage p') !! "ow_city" = Some city
  /\ items (localStorage p') !! "ow_metric" = Some (select_value (metricSelect p))
  /\ metricSelect p' = metricSelect p
  /\ statusColor p' = statusColor p.
Proof.
  intros Hav H1 H2 H3. unfold persistPreferences, setItem.
  destruct (localStorage p) as [stored av acc] eqn:Hst. cbn in Hav, H1, H2, H3.
  subst av. cbn. rewrite H1. cbn. rewrite H2. cbn. rewrite H3. cbn.
  repeat split; try reflexivity.
  - rewrite lookup_insert_ne by discriminate.
    rewrite lookup_insert_ne by discriminate. apply lookup_insert_eq.
  - rewrite lookup_insert_ne by discriminate. apply lookup_insert_eq.
  - apply lookup_insert_eq.
Qed.

(** What [restorePreferences] does with stored values that are not empty. *)
Lemma restorePreferences_stored (p : page) (apiKey city metric label field : string) :
  available (localStorage p) = true ->
  items (localStorage p) !! "ow_apiKey" = Some apiKey ->
  items (localStorage p) !! "ow_city" = Some city ->
  items (localStorage p) !! "ow_metric" = Some metric ->
  apiKey <> EmptyString -> city <> EmptyString ->
  metricConfig metric = Config label field ->
  let p' := restorePreferences p in
  apiKeyInput p' = apiKey
  /\ cityInput p' = city
  /\ metricSelect p' = select_set_value metric (metricSelect p).
Proof.
  intros Hav Hk Hc Hm Hkne Hcne Hcfg.
  unfold restorePreferences, getItem. rewrite Hav, Hk, Hc, Hm. cbn.
  apply str_is_empty_false in Hkne, Hcne. rewrite Hkne, Hcne.
  pose proof (metricConfig_nonempty _ _ _ Hcfg) as Hmne.
  apply str_is_empty_false in Hmne. rewrite Hmne, Hcfg. cbn.
  repeat split.
Qed.
End Preferences.

(** C7.  A submission on an idle page whose answer leads to the success
    status, with a storage that takes the three writes, leaves in the storage
    the API key and the city that were submitted and the metric selected;
    the next load of the page reads exactly these back and puts them into the
    form, whatever the browser had put there. *)
Theorem preferences_round_trip (E : Engine) (p : Weather.page) (data : value)
    (apiKeyValue cityValue : string) (selected : option nat) (now : num) :
  let apiKey := trim (Weather.apiKeyInput p) in
  let city := trim (Weather.cityInput p) in
  let metric := Weather.select_value (Weather.metricSelect p) in
  let done := Weather.on_answer (Weather.Body data) (Weather.handleSubmit p) in
  let next := Weather.init now (Weather.reload apiKeyValue cityValue selected done) in
  Weather.inflight p = [] ->
  Weather.available (Weather.localStorage p) = true ->
  Weather.accepts (Weather.localStorage p) "ow_apiKey" apiKey = true ->
  Weather.accepts (Weather.localStorage p) "ow_city" city = true ->
  Weather.accepts (Weather.localStorage p) "ow_metric" metric = true ->
  Weather.successful done = true ->
  Weather.getItem "ow_apiKey" (Weather.localStorage done) = Ok (Some apiKey)
  /\ Weather.getItem "ow_city" (Weather.localStorage done) = Ok (Some city)
  /\ Weather.getItem "ow_metric" (Weather.localStorage done) = Ok (Some metric)
  /\ Weather.apiKeyInput next = apiKey
  /\ Weather.cityInput next = city
  /\ Weather.select_value (Weather.metricSelect next) = metric.
Proof.
  intros apiKey city metric done next Hidle Hav Hw1 Hw2 Hw3 Hsucc.
  subst done next. unfold Weather.handleSubmit in *.
  fold apiKey city in Hsucc |- *.
  destruct (str_is_empty apiKey || str_is_empty city) eqn:Hvalid.
  { exfalso. unfold Weather.on_answer in Hsucc. cbn in Hsucc.
    rewrite Hidle in Hsucc. discriminate. }
  apply orb_false_iff in Hvalid as [Hk Hc].
  apply str_is_empty_false in Hk, Hc.
  unfold Weather.on_answer in *. cbn [Weather.inflight Weather.set_inflight] in *.
  cbn [Weather.toggleForm Weather.renderStatus Weather.inflight] in *.
  rewrite Hidle in *. cbn [app] in *.
  cbn [Weather.act_apiKey Weather.act_city] in *.
  match type of Hsucc with
  | Weather.successful (Weather.settle (Weather.on_data _ _ _ ?w)) = true =>
      set (waiting := w) in *
  end.
  assert (Hwst : Weather.localStorage waiting = Weather.localStorage p) by reflexivity.
  assert (Hwms : Weather.metricSelect waiting = Weather.metricSelect p) by reflexivity.
  clearbody waiting.
  unfold Weather.on_data in *.
  destruct (get data "list") as [[| | | | |entries|]|e]; try discriminate.
  set (persisted := Weather.persistPreferences apiKey city
                      (Weather.set_lastForecast entries waiting)) in *.
  destruct (persistPreferences_items apiKey city
              (Weather.set_lastForecast entries waiting))
    as (Pav & P1 & P2 & P3 & Pms & _).
  { cbn. now rewrite Hwst. }
  { cbn. now rewrite Hwst. }
  { cbn. now rewrite Hwst. }
  { cbn. now rewrite Hwst, Hwms. }
  fold persisted in Pav, P1, P2, P3, Pms. cbn in P3, Pms.
  rewrite Hwms in P3, Pms. fold metric in P3.
  destruct (updateChart_success persisted) as [[Ust Ums] Ucfg].
  destruct (Ucfg Hsucc) as (label & field & Hcfg).
  rewrite Pms in Hcfg. fold metric in Hcfg.
  destruct (settle_frame (Weather.updateChart persisted)) as [Sst Sms].
  rewrite Ust in Sst. rewrite Ums, Pms in Sms.
  set (done := Weather.settle (Weather.updateChart persisted)) in *.
  clearbody done persisted.
  assert (Hget : forall k v,
            Weather.items (Weather.localStorage persisted) !! k = Some v ->
            Weather.getItem k (Weather.localStorage done) = Ok (Some v)).
  { intros k v Hkv. unfold Weather.getItem. rewrite Sst, Pav. now rewrite Hkv. }
  split; [now apply Hget|]. split; [now apply Hget|]. split; [now apply Hget|].
  unfold Weather.init.
  destruct (restorePreferences_stored
              (Weather.reload apiKeyValue cityValue selected done)
              apiKey city metric label field)
    as (R1 & R2 & R3); try assumption.
  { cbn. now rewrite Sst. }
  { cbn. now rewrite Sst. }
  { cbn. now rewrite Sst. }
  { cbn. now rewrite Sst. }
  unfold Weather.setDefaultPeriod. cbn [Weather.set_period Weather.apiKeyInput
    Weather.cityInput Weather.metricSelect].
  split; [exact R1|]. split; [exact R2|].
  rewrite R3. cbn [Weather.reload Weather.metricSelect]. rewrite Sms.
  apply select_set_own_value.
  fold metric. eapply metricConfig_nonempty; eauto.
Qed.


Lemma preferences_round_trip_witness :
  Weather.apiKeyInput
    (@Weather.init test_engine (num_of_Z 1700500000000)
       (Weather.reload EmptyString EmptyString None
          (@Weather.on_answer test_engine (Weather.Body Samples.forecast_payload)
             (Weather.handleSubmit Samples.weather_page)))) = "KEY123"
  /\ Weather.cityInput
       (@Weather.init test_engine (num_of_Z 1700500000000)
          (Weather.reload EmptyString EmptyString None
             (@Weather.on_answer test_engine (Weather.Body Samples.forecast_payload)
                (Weather.handleSubmit Samples.weather_page)))) = "Oslo"
  /\ Weather.select_value
       (Weather.metricSelect
          (@Weather.init test_engine (num_of_Z 1700500000000)
             (Weather.reload EmptyString EmptyString None
                (@Weather.on_answer test_engine (Weather.Body Samples.forecast_payload)
                   (Weather.handleSubmit Samples.weather_page))))) = "feels_like".
Proof.
  pose proof (preferences_round_trip test_engine Samples.weather_page
                Samples.forecast_payload EmptyString EmptyString None
                (num_of_Z 1700500000000)) as H.
  cbv zeta in H.
  destruct H as (_ & _ & _ & H4 & H5 & H6);
    [reflexivity | reflexivity | reflexivity | reflexivity | reflexivity
     | vm_compute; reflexivity | ].
  split; [exact H4|]. split; [exact H5 | exact H6].
Defined.

(** The chart the sample answer draws. *)
Example forecast_chart :
  Weather.chartInstance
    (@Weather.on_answer test_engine (Weather.Body Samples.forecast_payload)
       (Weather.handleSubmit Samples.weather_page))
  = Some (Weather.mkDataset "Ощущается как, °C — Oslo"
            [(Fin (1700010000000 # 1), Fin (-123 # 100));
             (Fin (1700020800000 # 1), Fin (5 # 10))]).
Proof. vm_compute. reflexivity. Qed.

(** A metric the script does not know is stored and not restored. *)
Example unknown_metric_not_restored :
  let page :=
    Weather.set_metricSelect (Weather.mkSelect ["temp"; "humidity"] (Some 1))
      Samples.weather_page in
  let done :=
    @Weather.on_answer test_engine (Weather.Body Samples.forecast_payload)
      (Weather.handleSubmit page) in
  Weather.statusText done = Weather.MSG_UNKNOWN_METRIC
  /\ Weather.getItem "ow_metric" (Weather.localStorage done) = Ok (Some "humidity")
  /\ Weather.select_value
       (Weather.metricSelect
          (@Weather.init test_engine (num_of_Z 0)
             (Weather.reload EmptyString EmptyString (Some 0) done))) = "temp".
Proof. vm_compute. repeat split. Qed.

(** * Further properties of the labs *)

(** ** Lab 4: the statistics of the text *)

Section SplitRuns.
Import TextStats.
Variable sep : ascii -> bool.

Lemma split_runs_nonempty (b : bool) (s : string) : split_runs sep b s <> [].
Proof.
  revert b. induction s as [|c s IH]; intros b; cbn; [discriminate|].
  destruct (sep c).
  - destruct b; [apply IH | discriminate].
  - destruct (split_runs sep false s); discriminate.
Qed.

(** The pieces, put together again, are the text without its separators. *)
Lemma split_runs_concat (b : bool) (s : string) :
  concat_strings (split_runs sep b s) = remove sep s.
Proof.
  revert b. induction s as [|c s IH]; intros b; cbn [split_runs remove];
    [reflexivity|].
  destruct (sep c).
  - destruct b; [apply IH|].
    cbn [concat_strings fold_right]. rewrite append_nil. apply IH.
  - specialize (IH false).
    destruct (split_runs sep false s) as [|piece pieces] eqn:Hs.
    + exfalso. now apply (split_runs_nonempty false s).
    + cbn [concat_strings fold_right] in *. rewrite append_cons. now rewrite IH.
Qed.

Lemma split_runs_clean (b : bool) (s : string) :
  Forall (fun w => count_chars sep w = 0) (split_runs sep b s).
Proof.
  revert b. induction s as [|c s IH]; intros b; cbn [split_runs].
  - constructor; [reflexivity | constructor].
  - destruct (sep c) eqn:Hc.
    + destruct b; [apply IH|]. constructor; [reflexivity | apply IH].
    + specialize (IH false).
      destruct (split_runs sep false s) as [|piece pieces].
      * constructor; [|constructor]. cbn. now rewrite Hc.
      * inversion IH; subst. constructor; [|assumption].
        cbn. now rewrite Hc.
Qed.

Lemma split_runs_length (b : bool) (s : string) :
  List.length (split_runs sep b s) <= S (count_chars sep s).
Proof.
  revert b. induction s as [|c s IH]; intros b; cbn [split_runs count_chars];
    [cbn; lia|].
  destruct (sep c).
  - destruct b; [specialize (IH true); lia|].
    cbn [List.length]. specialize (IH true). lia.
  - specialize (IH false).
    destruct (split_runs sep false s) as [|piece pieces]; cbn in *; lia.
Qed.

(** A text without separators is its only piece. *)
Lemma split_runs_whole (s : string) :
  count_chars sep s = 0 -> split_runs sep false s = [s].
Proof.
  induction s as [|c s IH]; intros H; cbn in *; [reflexivity|].
  destruct (sep c); [discriminate|]. now rewrite IH.
Qed.

Lemma length_remove_le (s : string) :
  String.length (remove sep s) <= String.length s.
Proof.
  induction s as [|c s IH]; cbn; [lia|]. destruct (sep c); cbn; lia.
Qed.
End SplitRuns.

Section Words.
Import TextStats.

Lemma length_concat_strings (l : list string) :
  String.length (concat_strings l) = list_sum (map String.length l).
Proof.
  unfold concat_strings, list_sum. induction l as [|x l IH]; [reflexivity|].
  cbn [fold_right map]. now rewrite length_append, IH.
Qed.

Lemma list_sum_nonempty (l : list string) :
  list_sum (map String.length (nonempty l)) = list_sum (map String.length l).
Proof.
  unfold nonempty. induction l as [|x l IH]; [reflexivity|].
  cbn [filter]. destruct x as [|c x];
    cbn [str_is_empty negb map String.length];
    unfold list_sum in *; cbn [fold_right]; lia.
Qed.

Lemma nonempty_spec (l : list string) (w : string) :
  In w (nonempty l) <-> In w l /\ w <> EmptyString.
Proof.
  unfold nonempty. rewrite filter_In, negb_true_iff, str_is_empty_false.
  reflexivity.
Qed.

Lemma remove_trimStart (s : string) :
  remove is_js_space (trimStart s) = remove is_js_space s.
Proof.
  induction s as [|c s IH]; [reflexivity|]. cbn [trimStart].
  destruct (is_js_space c) eqn:Hc; [|reflexivity].
  cbn [remove]. now rewrite Hc.
Qed.

Lemma remove_trimEnd (s : string) :
  remove is_js_space (trimEnd s) = remove is_js_space s.
Proof.
  induction s as [|c s IH]; [reflexivity|]. cbn [trimEnd remove].
  destruct (is_js_space c) eqn:Hc; cbn [andb].
  - destruct (str_is_empty (trimEnd s)) eqn:He.
    + apply str_is_empty_true in He. rewrite He in IH. now rewrite <- IH.
    + cbn [remove]. now rewrite Hc.
  - cbn [remove]. rewrite Hc. now rewrite IH.
Qed.

Lemma remove_trim (s : string) :
  remove is_js_space (trim s) = remove is_js_space s.
Proof. unfold trim. now rewrite remove_trimEnd, remove_trimStart. Qed.

(** A text is blank exactly when nothing is left of it without its white
    space. *)
Lemma blank_iff (s : string) :
  trim s = EmptyString <-> remove is_js_space s = EmptyString.
Proof.
  split.
  - intros H. rewrite <- remove_trim. now rewrite H.
  - intros H. unfold trim.
    assert (Hs : trimStart s = EmptyString).
    { induction s as [|c s IH]; [reflexivity|]. cbn in *.
      destruct (is_js_space c); [now apply IH | discriminate]. }
    now rewrite Hs.
Qed.

Lemma words_total_length (text : string) :
  list_sum (map String.length (words text))
  = String.length (remove is_js_space text).
Proof.
  unfold words.
  rewrite list_sum_nonempty, <- length_concat_strings, split_runs_concat.
  now rewrite remove_trim.
Qed.

Lemma words_clean (text w : string) :
  In w (words text) -> w <> EmptyString /\ count_chars is_js_space w = 0.
Proof.
  unfold words. intros H. apply nonempty_spec in H as [Hin Hne].
  split; [exact Hne|].
  pose proof (split_runs_clean is_js_space false (trim text)) as Hall.
  rewrite Forall_forall in Hall. now apply Hall.
Qed.

Lemma words_count_le (text : string) :
  List.length (words text) <= list_sum (map String.length (words text)).
Proof.
  assert (H : forall l : list string,
            (forall w, In w l -> w <> EmptyString) ->
            List.length l <= list_sum (map String.length l)).
  { unfold list_sum.
    induction l as [|x l IH]; intros Hne; cbn [List.length map fold_right];
      [lia|].
    assert (Hx : x <> EmptyString) by (apply Hne; now left).
    assert (Hl : List.length l <= fold_right Nat.add 0 (map String.length l))
      by (apply IH; intros w Hw; apply Hne; now right).
    destruct x; [congruence|]. cbn [String.length]. lia. }
  apply H. intros w Hw. now apply words_clean in Hw.
Qed.
End Words.

(** X1.  The words partition what is left of the text without its white space:
    each is non-empty and free of white space, and their lengths add up to
    [charCountNoSpaces]; [wordCount] is their number. *)
Theorem words_partition_text (F : FloatOps) (text : string) :
  let st := TextStats.computeStats text in
  TextStats.wordCount st = List.length (TextStats.words text)
  /\ list_sum (map String.length (TextStats.words text))
     = TextStats.charCountNoSpaces st
  /\ Forall (fun w => w <> EmptyString /\ count_chars is_js_space w = 0)
       (TextStats.words text).
Proof.
  cbv zeta. split; [reflexivity|]. split.
  - apply words_total_length.
  - apply Forall_forall. intros w Hw. now apply words_clean in Hw.
Qed.

(** X2.  The counts are ordered, and there is no word exactly when the text is
    blank, which is also when no character is left without the white
    space; the average word length and the reading minutes are then zero. *)
Theorem stats_counts_ordered (F : FloatOps) (text : string) :
  let st := TextStats.computeStats text in
  TextStats.wordCount st <= TextStats.charCountNoSpaces st
  /\ TextStats.charCountNoSpaces st <= TextStats.charCount st
  /\ (TextStats.wordCount st = 0 <-> trim text = EmptyString)
  /\ (TextStats.charCountNoSpaces st = 0 <-> trim text = EmptyString)
  /\ (trim text = EmptyString ->
      TextStats.avgWordLength st = Fin 0%Q
      /\ TextStats.readingMinutes st = Fin 0%Q).
Proof.
  cbv zeta.
  pose proof (words_count_le text) as Hle.
  pose proof (words_total_length text) as Hsum.
  assert (Hblank : String.length (TextStats.remove is_js_space text) = 0
                   <-> trim text = EmptyString).
  { rewrite blank_iff.
    destruct (TextStats.remove is_js_space text); cbn; split;
      congruence || lia. }
  assert (Hwords : List.length (TextStats.words text) = 0
                   <-> trim text = EmptyString).
  { rewrite <- Hblank. split; [|lia].
    intros H0. rewrite <- Hsum.
    destruct (TextStats.words text); [reflexivity | discriminate]. }
  cbn [TextStats.computeStats TextStats.wordCount TextStats.charCount
       TextStats.charCountNoSpaces TextStats.avgWordLength
       TextStats.readingMinutes].
  split; [lia|]. split; [apply length_remove_le|].
  split; [exact Hwords|]. split; [exact Hblank|].
  intros Hb. apply Hwords in Hb. rewrite Hb. split; reflexivity.
Qed.

Lemma stats_counts_ordered_witness :
  trim "   " = EmptyString
  /\ TextStats.avgWordLength
       (@TextStats.computeStats MoreSamples.exact_floats "   ")
     = Fin 0%Q.
Proof.
  split; [reflexivity|].
  apply (stats_counts_ordered MoreSamples.exact_floats "   ").
  reflexivity.
Defined.

(** X3.  There is at most one sentence more than there are terminators; a blank
    text has none; a text that is not blank and has no terminator is one
    sentence. *)
Theorem sentence_count_bounds (F : FloatOps) (text : string) :
  let st := TextStats.computeStats text in
  TextStats.sentenceCount st
    <= S (count_chars TextStats.is_sentence_end text)
  /\ (count_chars TextStats.is_sentence_end text = 0 ->
      TextStats.sentenceCount st
      = if str_is_empty (trim text) then 0 else 1).
Proof.
  cbv zeta.
  cbn [TextStats.computeStats TextStats.sentenceCount]. unfold TextStats.sentences.
  split.
  - pose proof (split_runs_length TextStats.is_sentence_end false text) as H.
    unfold TextStats.nonempty.
    pose proof (filter_length_le (fun s => negb (str_is_empty s))
                  (map trim (TextStats.split_runs TextStats.is_sentence_end
                               false text))) as H'.
    rewrite length_map in H'. lia.
  - intros H0. rewrite (split_runs_whole _ _ H0).
    cbn [map TextStats.nonempty filter].
    destruct (str_is_empty (trim text)); reflexivity.
Qed.

Lemma sentence_count_bounds_witness :
  TextStats.sentenceCount
    (@TextStats.computeStats MoreSamples.exact_floats "no full stop here")
  = 1.
Proof.
  apply (proj2 (sentence_count_bounds MoreSamples.exact_floats
                  "no full stop here")).
  reflexivity.
Defined.

(** ** Lab 4: the score bar, the answers of the services, the chart *)

Lemma num_leb_Fin (a b : Q) : num_leb (Fin a) (Fin b) = true <-> (a <= b)%Q.
Proof. apply Qle_bool_iff. Qed.

Lemma num_leb_Fin_false (a b : Q) : num_leb (Fin a) (Fin b) = false -> (b < a)%Q.
Proof.
  cbn. intros H. apply Qnot_le_lt. intros Hle.
  apply Qle_bool_iff in Hle. congruence.
Qed.

(** X4.  [clampScore] always lands on the axis of the chart, from -1 to 1.
    A score that is missing, not a number or NaN gives 0; a number on the
    axis is drawn as it is; a number below -1 (also minus infinity) gives
    -1 and one above 1 (also infinity) gives 1. *)
Theorem clampScore_on_axis (score : value) :
  let bar := TwinwordApi.clampScore score in
  num_leb (Fin (-1)%Q) bar = true
  /\ num_leb bar (Fin 1%Q) = true
  /\ ((forall n : num, score = VNum n -> num_is_nan n = true) -> bar = Fin 0%Q)
  /\ (forall n : num,
        score = VNum n ->
        num_leb (Fin (-1)%Q) n = true -> num_leb n (Fin 1%Q) = true ->
        num_eqb bar n = true)
  /\ (forall n : num,
        score = VNum n -> num_ltb n (Fin (-1)%Q) = true -> bar = Fin (-1)%Q)
  /\ (forall n : num,
        score = VNum n -> num_ltb (Fin 1%Q) n = true -> bar = Fin 1%Q).
Proof.
  cbv zeta. unfold TwinwordApi.clampScore.
  destruct score as [| |b|n|s|l|props];
    try (split; [reflexivity|]; split; [reflexivity|]; split; [reflexivity|];
         split; [|split]; intros n0 H; discriminate).
  destruct n as [|neg|q]; cbn [num_is_nan].
  - split; [reflexivity|]. split; [reflexivity|]. split; [reflexivity|].
    split; [|split]; intros n0 H; injection H as <-; discriminate.
  - destruct neg; cbn; (split; [reflexivity|]; split; [reflexivity|]); (split;
      [intros H; specialize (H _ eq_refl); discriminate|]);
      (split; [|split]); intros n0 H; injection H as <-;
      try discriminate; reflexivity.
  - split; [|split; [|split; [|split; [|split]]]].
    5,6: intros n0 H Hlt; injection H as <-.
    3: intros H; specialize (H _ eq_refl); discriminate.
    3: intros n0 H Hlo Hhi; injection H as <-.
    all: unfold num_min, num_max.
    all: destruct (num_leb (Fin 1%Q) (Fin q)) eqn:H1;
      [replace (num_leb (Fin (-1)%Q) (Fin 1%Q)) with true by reflexivity
      |destruct (num_leb (Fin (-1)%Q) (Fin q)) eqn:H2].
    all: try reflexivity.
    all: try (apply num_leb_Fin in H1).
    all: try (apply num_leb_Fin_false in H1).
    all: try (apply num_leb_Fin in H2).
    all: try (apply num_leb_Fin_false in H2).
    all: try (apply num_leb_Fin; lra).
    all: try (apply num_leb_Fin in Hlo).
    all: try (apply num_leb_Fin in Hhi).
    all: try (cbn; apply Qeq_bool_iff; lra).
    all: try (exfalso; lra).
    all: cbn in Hlt; destruct (Qcompare_spec q (-1)%Q), (Qcompare_spec 1%Q q);
      try discriminate; exfalso; lra.
Qed.

Lemma clampScore_on_axis_witness :
  num_eqb (TwinwordApi.clampScore (VNum (Fin (1 # 4)))) (Fin (1 # 4)) = true
  /\ TwinwordApi.clampScore (VStr "0.9") = Fin 0%Q
  /\ TwinwordApi.clampScore (VNum (Fin 3)) = Fin 1%Q.
Proof.
  split.
  { apply (proj1 (proj2 (proj2 (proj2 (clampScore_on_axis (VNum (Fin (1 # 4)))))))
             (Fin (1 # 4))); reflexivity. }
  split.
  { apply (proj1 (proj2 (proj2 (clampScore_on_axis (VStr "0.9"))))).
    intros n H. discriminate. }
  apply (proj2 (proj2 (proj2 (proj2 (proj2 (clampScore_on_axis (VNum (Fin 3)))))))
           (Fin 3)); reflexivity.
Defined.

Section Replies.
Context {E : Engine}.

Lemma get_returns (v : value) (k : string) (x : value) :
  get v k = Ok x -> nullish v = false.
Proof. destruct v; cbn; intros H; congruence. Qed.

Lemma meaningcloud_checked (fallback : string) (r : fetched) (data : value) :
  MeaningCloudApi.checked fallback r = Ok data ->
  (exists status, r = Responded true status (Ok data))
  /\ nullish data = false
  /\ (truthy (get_opt (get_opt data "status") "code") = false
      \/ get_opt (get_opt data "status") "code" = VStr "0").
Proof.
  unfold MeaningCloudApi.checked. intros H.
  destruct r as [e|ok status [d|e]]; cbn [bind] in H; try discriminate.
  destruct ok; cbn [negb] in H.
  - destruct (get d "status") as [st|e] eqn:Hst; cbn [bind] in H; [|discriminate].
    assert (Hopt : get_opt d "status" = st) by (unfold get_opt; now rewrite Hst).
    destruct (truthy (get_opt st "code")) eqn:Ht; cbn [andb] in H.
    + destruct (is_str (get_opt st "code") "0") eqn:Hs; cbn [negb] in H.
      * injection H as <-. split; [eauto|]. split; [eapply get_returns; eauto|].
        right. rewrite Hopt. unfold is_str in Hs.
        destruct (get_opt st "code"); try discriminate.
        apply String.eqb_eq in Hs. now subst.
      * destruct (get st "msg"); cbn [bind] in H; discriminate.
    + injection H as <-. split; [eauto|]. split; [eapply get_returns; eauto|].
      left. now rewrite Hopt.
  - destruct (get d "status"); cbn [bind] in H; discriminate.
Qed.

Lemma twinword_checked (fallback : string) (r : fetched) (data : value) :
  TwinwordApi.checked fallback r = Ok data ->
  (exists status, r = Responded true status (Ok data))
  /\ nullish data = false
  /\ (truthy (get_opt data "result_code") = false
      \/ get_opt data "result_code" = VStr "200").
Proof.
  unfold TwinwordApi.checked. intros H.
  destruct r as [e|ok status [d|e]]; cbn [bind] in H; try discriminate.
  destruct ok; cbn [negb] in H.
  - destruct (get d "result_code") as [code|e] eqn:Hc; cbn [bind] in H;
      [|discriminate].
    assert (Hopt : get_opt d "result_code" = code)
      by (unfold get_opt; now rewrite Hc).
    destruct (truthy code) eqn:Ht; cbn [andb] in H.
    + destruct (is_str code "200") eqn:Hs; cbn [negb] in H.
      * injection H as <-. split; [eauto|]. split; [eapply get_returns; eauto|].
        right. rewrite Hopt. unfold is_str in Hs.
        destruct code; try discriminate.
        apply String.eqb_eq in Hs. now subst.
      * destruct (get d "result_msg"); cbn [bind] in H; discriminate.
    + injection H as <-. split; [eauto|]. split; [eapply get_returns; eauto|].
      left. now rewrite Hopt.
  - destruct (get d "message"); cbn [bind] in H; discriminate.
Qed.

Lemma meaningcloud_checked_back (fallback : string) (status : Z) (data : value) :
  nullish data = false ->
  truthy (get_opt (get_opt data "status") "code") = false
  \/ get_opt (get_opt data "status") "code" = VStr "0" ->
  MeaningCloudApi.checked fallback (Responded true status (Ok data)) = Ok data.
Proof.
  intros Hn Hc. unfold MeaningCloudApi.checked. cbn [bind negb].
  unfold get_opt at 2 4 in Hc.
  destruct (get data "status") as [st|e] eqn:Hst;
    [|destruct data; cbn in Hn, Hst; congruence].
  cbn [bind]. destruct Hc as [Hc|Hc]; rewrite Hc; reflexivity.
Qed.

Lemma twinword_checked_back (fallback : string) (status : Z) (data : value) :
  nullish data = false ->
  truthy (get_opt data "result_code") = false
  \/ get_opt data "result_code" = VStr "200" ->
  TwinwordApi.checked fallback (Responded true status (Ok data)) = Ok data.
Proof.
  intros Hn Hc. unfold TwinwordApi.checked. cbn [bind negb].
  unfold get_opt in Hc.
  destruct (get data "result_code") as [code|e] eqn:Hst;
    [|destruct data; cbn in Hn, Hst; congruence].
  cbn [bind]. destruct Hc as [Hc|Hc]; rewrite Hc; reflexivity.
Qed.

Lemma meaningcloud_checked_iff (fallback : string) (r : fetched) (data : value) :
  MeaningCloudApi.checked fallback r = Ok data <->
  (exists status, r = Responded true status (Ok data))
  /\ nullish data = false
  /\ (truthy (get_opt (get_opt data "status") "code") = false
      \/ get_opt (get_opt data "status") "code" = VStr "0").
Proof.
  split; [apply meaningcloud_checked|].
  intros ((status & ->) & Hn & Hc). now apply meaningcloud_checked_back.
Qed.

Lemma twinword_checked_iff (fallback : string) (r : fetched) (data : value) :
  TwinwordApi.checked fallback r = Ok data <->
  (exists status, r = Responded true status (Ok data))
  /\ nullish data = false
  /\ (truthy (get_opt data "result_code") = false
      \/ get_opt data "result_code" = VStr "200").
Proof.
  split; [apply twinword_checked|].
  intros ((status & ->) & Hn & Hc). now apply twinword_checked_back.
Qed.

(** A Twinword row is always made: its label is a string. *)
Lemma twinword_rows_total (keywords : list Twinword.keyword) :
  exists rows, mapM Twinword.keyword_row keywords = Ok rows.
Proof.
  induction keywords as [|k keywords [rows IH]]; cbn [mapM]; [eauto|].
  unfold Twinword.keyword_row at 1, TextLab.escapeHtml, coalesce.
  cbn [nullish ToString bind]. rewrite IH. cbn [bind]. eauto.
Qed.

Lemma twinword_render_of_extract (data : value) (p : TextLab.page)
    (keywords : list Twinword.keyword) :
  Twinword.extractKeywords data = Ok keywords ->
  exists p', Twinword.renderKeywords data p = Ok p'.
Proof.
  intros Ho. unfold Twinword.renderKeywords. rewrite Ho. cbn [bind].
  destruct (Nat.eqb (List.length keywords) 0); [eauto|].
  destruct (twinword_rows_total keywords) as [rows ->]. cbn [bind]. eauto.
Qed.

(** On a payload that is not [null], [extractKeywords] returns exactly
    when every weight can be converted to a number. *)
Lemma twinword_extract_returns_iff (data : value) :
  nullish data = false ->
  (exists keywords, Twinword.extractKeywords data = Ok keywords)
  <-> forallb (fun entry => printable (snd entry))
        (entries (or_else (get_opt data "keyword") (VObj []))) = true.
Proof.
  intros Hd. split.
  - intros [keywords H]. unfold Twinword.extractKeywords in H.
    destruct (Twinword.labelled_keywords data) as [arrival|e] eqn:Ha;
      cbn [bind] in H; [|discriminate].
    unfold Twinword.labelled_keywords in Ha.
    rewrite (get_not_nullish data) in Ha by exact Hd. cbn [bind] in Ha.
    destruct (mapM Twinword.keyword_of
                (entries (or_else (get_opt data "keyword") (VObj []))))
      as [items|e] eqn:Hi; cbn [bind] in Ha; [|discriminate].
    apply forallb_forall. intros entry Hin.
    assert (Hall : exists ys, mapM Twinword.keyword_of
                     (entries (or_else (get_opt data "keyword") (VObj []))) = Ok ys)
      by eauto.
    apply mapM_returns_iff in Hall. rewrite Forall_forall in Hall.
    destruct (Hall entry Hin) as [k Hk].
    unfold Twinword.keyword_of, number_or_zero in Hk.
    apply ToNumber_returns_iff.
    destruct (ToNumber (snd entry)); [eauto | discriminate].
  - intros Hw.
    destruct (twinword_extract_total data) as (out & Ho & _); [|eauto].
    unfold Twinword.keyword_payload. now rewrite Hd, Hw.
Qed.

Lemma StronglySorted_app_inv {A : Type} (R : A -> A -> Prop) (a b : list A) :
  StronglySorted R (a ++ b) -> forall x y, In x a -> In y b -> R x y.
Proof.
  induction a as [|z a IH]; intros Hs x y Hx Hy; [destruct Hx|].
  cbn in Hs. inversion Hs as [|? ? Hs' Hall]; subst.
  destruct Hx as [<-|Hx].
  - rewrite Forall_forall in Hall. apply Hall. apply in_or_app. now right.
  - now apply IH.
Qed.

(** The first seven of a list in descending order are at least as large as
    any of the rest. *)
Lemma top_seven {A : Type} (key : A -> num) (l : list A) :
  descending key l ->
  List.length (firstn 7 l) <= 7
  /\ forall k y, In k (skipn 7 l) -> In y (map key (firstn 7 l)) ->
       num_leb (key k) y = true.
Proof.
  intros Hs. split; [apply firstn_le_length|].
  intros k y Hk Hy. apply in_map_iff in Hy as (x & <- & Hx).
  rewrite <- (firstn_skipn 7 l) in Hs.
  exact (StronglySorted_app_inv _ _ _ Hs x k Hx Hk).
Qed.
End Replies.

(** X5.  A fetch helper of either variant returns a payload exactly for an
    answer with an ok status whose body decodes to something that is not
    [null] and carries no error code (MeaningCloud: [status.code] missing,
    falsy or ["0"]; Twinword: [result_code] missing, falsy or ["200"]);
    the payload is the decoded body.  Every other answer makes it throw. *)
Theorem fetch_returns_only_good_answers (E : Engine) (r : fetched) (data : value) :
  let arrived := exists status, r = Responded true status (Ok data) in
  let meaningcloud_good :=
    arrived
    /\ nullish data = false
    /\ (truthy (get_opt (get_opt data "status") "code") = false
        \/ get_opt (get_opt data "status") "code" = VStr "0") in
  let twinword_good :=
    arrived
    /\ nullish data = false
    /\ (truthy (get_opt data "result_code") = false
        \/ get_opt data "result_code" = VStr "200") in
  (MeaningCloudApi.fetchSentiment r = Ok data <-> meaningcloud_good)
  /\ (MeaningCloudApi.fetchTopics r = Ok data <-> meaningcloud_good)
  /\ (TwinwordApi.fetchSentiment r = Ok data <-> twinword_good)
  /\ (TwinwordApi.fetchKeywords r = Ok data <-> twinword_good).
Proof.
  cbv zeta.
  split; [apply meaningcloud_checked_iff|].
  split; [apply meaningcloud_checked_iff|].
  split; apply twinword_checked_iff.
Qed.

Lemma fetch_returns_only_good_answers_witness :
  @TwinwordApi.fetchKeywords test_engine MoreSamples.twinword_reply
  = Ok Samples.twinword_payload.
Proof.
  apply (proj2 (proj2 (proj2 (fetch_returns_only_good_answers test_engine
           MoreSamples.twinword_reply Samples.twinword_payload)))).
  split; [exists 200%Z; reflexivity|].
  split; [reflexivity | left; reflexivity].
Defined.

(** X6.  What the Twinword keyword service answers can be rendered
    exactly when its weights can be converted to numbers.  When
    [fetchKeywords] returns, the payload is not [null] and the labels are
    strings, so [extractKeywords] and [renderKeywords] return unless a
    weight is, or holds, an object with a property of its own named
    [toString]; then both throw. *)
Theorem twinword_keywords_render_after_fetch
    (E : Engine) (r : fetched) (data : value) (p : TextLab.page) :
  TwinwordApi.fetchKeywords r = Ok data ->
  let weights_convert :=
    forallb (fun entry => printable (snd entry))
      (entries (or_else (get_opt data "keyword") (VObj []))) = true in
  ((exists keywords, Twinword.extractKeywords data = Ok keywords)
   <-> weights_convert)
  /\ ((exists p', Twinword.renderKeywords data p = Ok p') <-> weights_convert).
Proof.
  intros H. cbv zeta. apply twinword_checked in H as (_ & Hd & _).
  pose proof (twinword_extract_returns_iff data Hd) as Hiff.
  split; [exact Hiff|]. rewrite <- Hiff. split.
  - intros [p' Hp]. unfold Twinword.renderKeywords in Hp.
    destruct (Twinword.extractKeywords data) as [keywords|e];
      [eauto | discriminate].
  - intros [keywords Hk]. now apply (twinword_render_of_extract data p keywords).
Qed.

Lemma twinword_keywords_render_after_fetch_witness :
  (exists keywords,
     @Twinword.extractKeywords test_engine Samples.twinword_payload = Ok keywords)
  /\ (exists p',
        @Twinword.renderKeywords test_engine Samples.twinword_payload
          Samples.text_page = Ok p').
Proof.
  destruct (twinword_keywords_render_after_fetch test_engine
              MoreSamples.twinword_reply Samples.twinword_payload Samples.text_page
              eq_refl) as [Hextract Hrender].
  split; [apply Hextract | apply Hrender]; reflexivity.
Defined.

(** X7.  The keyword table and chart.  When [renderKeywords] returns there
    is no chart exactly when there is no keyword, and the table then holds
    the placeholder row.  Otherwise the table is made of the rows of all
    the keywords, in their order, and the chart shows the first seven of
    them at most, in the same order: its labels are their labels and its
    data their relevances (weights); none of the keywords left out has a
    larger relevance (weight) than one that is shown. *)
Theorem chart_shows_top_keywords (E : Engine) (data : value) (p p' : TextLab.page) :
  (MeaningCloud.renderKeywords data p = Ok p' ->
   exists keywords,
     MeaningCloud.extractKeywords data = Ok keywords
     /\ match TextLab.keywordsChart p' with
        | None => keywords = [] /\ TextLab.keywordsTableBody p' = TextLab.ROW_NO_KEYWORDS
        | Some c =>
            keywords <> []
            /\ (exists rows,
                  mapM MeaningCloud.keyword_row keywords = Ok rows
                  /\ TextLab.keywordsTableBody p' = concat_strings rows)
            /\ TextLab.chart_labels c = map MeaningCloud.label (firstn 7 keywords)
            /\ TextLab.chart_data c = map MeaningCloud.relevance (firstn 7 keywords)
            /\ List.length (TextLab.chart_data c) = Nat.min 7 (List.length keywords)
            /\ forall k y, In k (skipn 7 keywords) -> In y (TextLab.chart_data c) ->
                 num_leb (MeaningCloud.relevance k) y = true
        end)
  /\ (Twinword.renderKeywords data p = Ok p' ->
      exists keywords,
        Twinword.extractKeywords data = Ok keywords
        /\ match TextLab.keywordsChart p' with
           | None => keywords = [] /\ TextLab.keywordsTableBody p' = TextLab.ROW_NO_KEYWORDS
           | Some c =>
               keywords <> []
               /\ (exists rows,
                     mapM Twinword.keyword_row keywords = Ok rows
                     /\ TextLab.keywordsTableBody p' = concat_strings rows)
               /\ TextLab.chart_labels c
                  = map (fun k => VStr (Twinword.label k)) (firstn 7 keywords)
               /\ TextLab.chart_data c = map Twinword.weight (firstn 7 keywords)
               /\ List.length (TextLab.chart_data c)
                  = Nat.min 7 (List.length keywords)
               /\ forall k y, In k (skipn 7 keywords) -> In y (TextLab.chart_data c) ->
                    num_leb (Twinword.weight k) y = true
           end).
Proof.
  split.
  - intros H.
    destruct (meaningcloud_table data p p' H)
      as (keywords & Hk & [(Hnil & Ht & ->)|(Hne & rows & Hr & Ht & ->)]);
      exists keywords; (split; [exact Hk|]); [split; assumption|].
    assert (Hs : descending MeaningCloud.relevance keywords).
    { unfold MeaningCloud.extractKeywords in Hk.
      destruct (MeaningCloud.labelled_keywords data) as [arrival|e] eqn:Ha;
        cbn [bind] in Hk; [|discriminate].
      destruct (meaningcloud_extract_sorted data arrival Ha) as (out & Ho & _ & Hd & _).
      unfold MeaningCloud.extractKeywords in Ho. rewrite Ha in Ho. cbn [bind] in Ho.
      congruence. }
    cbn [TextLab.chart_labels TextLab.chart_data].
    split; [exact Hne|]. split; [eauto|]. split; [reflexivity|].
    split; [reflexivity|]. split; [now rewrite length_map, length_firstn|].
    now apply top_seven.
  - intros H.
    destruct (twinword_table data p p' H)
      as (keywords & Hk & [(Hnil & Ht & ->)|(Hne & rows & Hr & Ht & ->)]);
      exists keywords; (split; [exact Hk|]); [split; assumption|].
    assert (Hs : descending Twinword.weight keywords).
    { unfold Twinword.extractKeywords in Hk.
      destruct (Twinword.labelled_keywords data) as [arrival|e] eqn:Ha;
        cbn [bind] in Hk; [|discriminate].
      destruct (twinword_extract_sorted data arrival Ha) as (out & Ho & _ & Hd & _).
      unfold Twinword.extractKeywords in Ho. rewrite Ha in Ho. cbn [bind] in Ho.
      congruence. }
    cbn [TextLab.chart_labels TextLab.chart_data].
    split; [exact Hne|]. split; [eauto|]. split; [reflexivity|].
    split; [reflexivity|]. split; [now rewrite length_map, length_firstn|].
    now apply top_seven.
Qed.

Lemma chart_shows_top_keywords_witness :
  exists keywords c,
    @Twinword.extractKeywords test_engine Samples.twinword_payload = Ok keywords
    /\ TextLab.chart_labels c
       = [VStr "orbit"; VStr "lander"; VStr "moon"; VStr "crater"]
    /\ TextLab.chart_labels c
       = map (fun k => VStr (Twinword.label k)) (firstn 7 keywords).
Proof.
  destruct (@Twinword.renderKeywords test_engine Samples.twinword_payload
              Samples.text_page) as [p'|e] eqn:Hr; [|discriminate].
  destruct (proj2 (chart_shows_top_keywords test_engine Samples.twinword_payload
                     Samples.text_page p') Hr) as (keywords & Hk & Hc).
  vm_compute in Hr. injection Hr as <-.
  cbn [TextLab.keywordsChart] in Hc. destruct Hc as (_ & _ & Hl & _).
  exists keywords. eexists. split; [exact Hk|]. split; [|exact Hl]. reflexivity.
Defined.

(** ** Lab 4: escaping loses nothing *)

Lemma ascii_eqb_false (a b : ascii) : Ascii.eqb a b = false -> a <> b.
Proof. intros H ->. now rewrite Ascii.eqb_refl in H. Qed.

(** An entity at the head of a text tells which character it stands for,
    and where it ends. *)
Lemma entity_head (c d : ascii) (x y : string) :
  TextLab.entity c +:+ x = TextLab.entity d +:+ y -> c = d /\ x = y.
Proof.
  unfold TextLab.entity.
  destruct (Ascii.eqb c "&") eqn:C1;
    [apply Ascii.eqb_eq in C1|apply ascii_eqb_false in C1];
  (destruct (Ascii.eqb c "<") eqn:C2;
    [apply Ascii.eqb_eq in C2|apply ascii_eqb_false in C2]);
  (destruct (Ascii.eqb c ">") eqn:C3;
    [apply Ascii.eqb_eq in C3|apply ascii_eqb_false in C3]);
  (destruct (Ascii.eqb c "034") eqn:C4;
    [apply Ascii.eqb_eq in C4|apply ascii_eqb_false in C4]);
  (destruct (Ascii.eqb c "'") eqn:C5;
    [apply Ascii.eqb_eq in C5|apply ascii_eqb_false in C5]);
  try congruence;
  (destruct (Ascii.eqb d "&") eqn:D1;
    [apply Ascii.eqb_eq in D1|apply ascii_eqb_false in D1]);
  (destruct (Ascii.eqb d "<") eqn:D2;
    [apply Ascii.eqb_eq in D2|apply ascii_eqb_false in D2]);
  (destruct (Ascii.eqb d ">") eqn:D3;
    [apply Ascii.eqb_eq in D3|apply ascii_eqb_false in D3]);
  (destruct (Ascii.eqb d "034") eqn:D4;
    [apply Ascii.eqb_eq in D4|apply ascii_eqb_false in D4]);
  (destruct (Ascii.eqb d "'") eqn:D5;
    [apply Ascii.eqb_eq in D5|apply ascii_eqb_false in D5]);
  try congruence;
  rewrite ?append_cons, ?append_nil; intros H; injection H; intros;
    subst; try congruence; try discriminate; split; congruence.
Qed.

Lemma replace_special_injective (a b : string) :
  TextLab.replace_special a = TextLab.replace_special b -> a = b.
Proof.
  revert b. induction a as [|c a IH]; intros [|d b] H; cbn in H.
  - reflexivity.
  - exfalso. unfold TextLab.entity in H.
    repeat (destruct (Ascii.eqb d _); [rewrite append_cons in H; discriminate|]).
    rewrite append_cons in H. discriminate.
  - exfalso. unfold TextLab.entity in H.
    repeat (destruct (Ascii.eqb c _); [rewrite append_cons in H; discriminate|]).
    rewrite append_cons in H. discriminate.
  - apply entity_head in H as [-> H]. f_equal. now apply IH.
Qed.

Lemma replace_special_plain (s : string) :
  TextLab.string_forallb (fun c => negb (TextLab.is_special c)) s = true ->
  TextLab.replace_special s = s.
Proof.
  induction s as [|c s IH]; intros H; [reflexivity|]. cbn in H.
  apply andb_true_iff in H as [Hc Hs]. apply negb_true_iff in Hc.
  cbn [TextLab.replace_special]. rewrite (entity_other c Hc), append_cons, append_nil.
  now rewrite IH.
Qed.

Lemma replace_special_length (s : string) :
  String.length s <= String.length (TextLab.replace_special s).
Proof.
  induction s as [|c s IH]; [cbn; lia|].
  cbn [TextLab.replace_special String.length]. rewrite length_append.
  assert (1 <= String.length (TextLab.entity c)).
  { unfold TextLab.entity.
    repeat (match goal with |- context [if ?b then _ else _] => destruct b end);
      cbn; lia. }
  lia.
Qed.

(** X8.  Escaping loses nothing: two texts with the same escaped form are
    the same text; a text without any of the five special characters is its
    own escaped form; the escaped form is never shorter than the text. *)
Theorem escapeHtml_keeps_text (E : Engine) :
  (forall a b : string,
     TextLab.escapeHtml (VStr a) = TextLab.escapeHtml (VStr b) -> a = b)
  /\ (forall s : string,
        TextLab.string_forallb (fun c => negb (TextLab.is_special c)) s = true ->
        TextLab.escapeHtml (VStr s) = Ok s)
  /\ (forall s : string,
        exists out : string,
          TextLab.escapeHtml (VStr s) = Ok out
          /\ String.length s <= String.length out).
Proof.
  unfold TextLab.escapeHtml, coalesce. cbn [nullish ToString bind].
  split.
  { intros a b H. injection H as H. now apply replace_special_injective. }
  split.
  - intros s H. now rewrite replace_special_plain.
  - intros s. eexists. split; [reflexivity | apply replace_special_length].
Qed.

Lemma escapeHtml_keeps_text_witness :
  @TextLab.escapeHtml test_engine (VStr "orbit 42") = Ok "orbit 42".
Proof.
  apply (proj1 (proj2 (escapeHtml_keeps_text test_engine)) "orbit 42").
  reflexivity.
Defined.

(** ** Lab 1: what the page shows while and after a search *)

Section NasaResults.
Context {E : Engine}.
Import Nasa NasaPage.

Lemma truthy_not_nullish (v : value) : truthy v = true -> nullish v = false.
Proof. destruct v; cbn; congruence. Qed.

Lemma get_truthy (v : value) (k : string) :
  truthy v = true -> get v k = Ok (get_opt v k).
Proof. intros H. apply get_not_nullish. now apply truthy_not_nullish. Qed.

Lemma get_opt_falsy (v : value) (k : string) :
  truthy v = false -> String.eqb k "length" = false -> get_opt v k = VUndef.
Proof.
  unfold get_opt. destruct v; cbn; intros H Hk; try reflexivity; try discriminate.
  now rewrite Hk.
Qed.

(** Reading the items off a payload never throws. *)
Lemma payload_items_total (payload : value) :
  exists total,
    payload_items payload
    = Ok (match get_opt (get_opt payload "collection") "items" with
          | VArr l => l
          | _ => []
          end, total).
Proof.
  unfold payload_items.
  destruct (truthy payload) eqn:Hp.
  - rewrite (get_truthy payload "collection" Hp). cbn [bind].
    destruct (truthy (get_opt payload "collection")) eqn:Hc; cbn [bind truthy].
    + rewrite Hc. rewrite !(get_truthy _ _ Hc). cbn [bind].
      destruct (truthy (get_opt (get_opt payload "collection") "metadata")) eqn:Hm.
      * rewrite (get_truthy _ "total_hits" Hm). cbn [bind]. eauto.
      * cbn [bind]. eauto.
    + rewrite (get_opt_falsy _ "items" Hc eq_refl). cbn. eauto.
  - cbn [bind truthy].
    rewrite (get_opt_falsy payload "collection" Hp eq_refl). cbn. eauto.
Qed.

Lemma build_cards_length (items : list value) (cards : list card) :
  build_cards items = Ok cards -> List.length cards <= List.length items.
Proof.
  revert cards. induction items as [|item items IH]; intros cards H;
    cbn [build_cards] in H.
  - injection H as <-. cbn. lia.
  - destruct (get item "data") as [data|e]; cbn [bind] in H; [|discriminate].
    destruct (negb (truthy match data with VArr l => hd VUndef l | _ => VNull end)).
    + apply IH in H. cbn. lia.
    + destruct (createCard _ item) as [c|e]; cbn [bind] in H; [|discriminate].
      destruct (build_cards items) as [cs|e]; cbn [bind] in H; [|discriminate].
      injection H as <-. specialize (IH cs eq_refl). cbn. lia.
Qed.

Lemma payload_cards_length (payload : value) (cards : list card) :
  payload_cards payload = Ok cards -> List.length cards <= MAX_RESULTS.
Proof.
  unfold payload_cards. intros H.
  destruct (payload_items payload) as [[items total]|e]; cbn [bind] in H;
    [|discriminate].
  apply build_cards_length in H.
  pose proof (firstn_le_length MAX_RESULTS items). lia.
Qed.

Lemma live_in (p : page) (a : activation) :
  In a (live p) <-> In a (inflight p) /\ is_aborted (act_signal a) p = false.
Proof. unfold live. now rewrite filter_In, negb_true_iff. Qed.

Lemma live_nonempty (p : page) :
  live p <> [] <->
  exists a, In a (inflight p) /\ is_aborted (act_signal a) p = false.
Proof.
  split.
  - intros H. destruct (live p) as [|a l] eqn:Hl; [congruence|].
    exists a. apply live_in. rewrite Hl. now left.
  - intros (a & Ha) Hl. apply live_in in Ha. rewrite Hl in Ha. destruct Ha.
Qed.

Lemma capped_submit (q m y : string) (p : page) :
  capped p -> capped (handleSubmit q m y p).
Proof.
  intros Hc. unfold handleSubmit.
  destruct (str_is_empty (trim q)); [exact Hc|].
  destruct (check_year (trim y)) as [year|]; [|exact Hc].
  split; cbn; [lia | reflexivity].
Qed.

Lemma capped_step (p p' : page) (ev : event) :
  inv p -> capped p -> step p ev = Some p' -> capped p'.
Proof.
  intros Hinv [Hlen Hempty] Hstep. destruct (is_submit ev) eqn:Hs.
  { destruct ev; try discriminate. injection Hstep as <-.
    apply capped_submit. now split. }
  destruct (step_frame p p' ev Hinv Hs Hstep) as (Hinv' & _ & _ & Hab & Hsub).
  assert (Hback : forall a, In a (inflight p') ->
            is_aborted (act_signal a) p' = false ->
            exists b, In b (inflight p)
                      /\ act_signal b = act_signal a
                      /\ is_aborted (act_signal b) p = false).
  { intros a Ha Hna. destruct (Hsub a Ha) as (b & Hb & Hba).
    exists b. split; [exact Hb|]. split; [exact Hba|].
    unfold is_aborted in *. now rewrite <- Hab, Hba. }
  destruct (step_results p p' ev Hinv Hs Hstep)
    as [Hr|(signal & payload & cards & _ & Hna & (a & Ha & Hsig) & Hc & Hr & Hgone)].
  - split; [now rewrite Hr|].
    intros Hl. rewrite Hr. apply Hempty. apply live_nonempty.
    apply live_nonempty in Hl as (a & Ha & Hna).
    destruct (Hback a Ha Hna) as (b & Hb & _ & Hnb). eauto.
  - assert (Hnil : results p = []).
    { apply Hempty. apply live_nonempty. exists a. split; [exact Ha|].
      now rewrite Hsig. }
    unfold capped. rewrite Hr, Hnil. cbn [app].
    split; [eapply payload_cards_length; eauto|].
    intros Hl. exfalso. apply live_nonempty in Hl as (a' & Ha' & Hna').
    destruct (Hback a' Ha' Hna') as (b & Hb & Hba & Hnb).
    pose proof (inv_active p Hinv b Hb Hnb) as H1.
    assert (H2 : activeController p = Some (act_signal a)).
    { apply (inv_active p Hinv a Ha). now rewrite Hsig. }
    apply (Hgone a' Ha'). congruence.
Qed.

Lemma capped_run (evs : list event) (p p' : page) :
  inv p -> capped p -> run p evs = Some p' -> capped p'.
Proof.
  revert p. induction evs as [|ev evs IH]; intros p Hinv Hc Hrun; cbn in Hrun.
  - now injection Hrun as <-.
  - destruct (step p ev) as [q|] eqn:Hstep; [|discriminate].
    apply (IH q); [eapply inv_step; eauto | eapply capped_step; eauto | exact Hrun].
Qed.

(** *** The status line *)

Lemma tidy_initial : tidy initial.
Proof.
  split; [apply inv_initial | discriminate | intros c []].
Qed.

Lemma tidy_step (p p' : page) (ev : event) :
  tidy p -> step p ev = Some p' -> tidy p'.
Proof.
  intros [Hinv Hact Hab] Hstep. destruct (is_submit ev) eqn:Hs.
  - destruct ev as [q m y| | | |]; try discriminate. injection Hstep as <-.
    split; [now apply inv_submit| |]; unfold handleSubmit;
      (destruct (str_is_empty (trim q)); [assumption|]);
      (destruct (check_year (trim y)) as [year|]; [|assumption]).
    + intros c Hc. destruct (activeController p); cbn in Hc |- *;
        injection Hc as <-; lia.
    + intros c Hc. destruct (activeController p) as [c0|] eqn:H0; cbn in Hc |- *.
      * destruct Hc as [<-|Hc]; [specialize (Hact c0 eq_refl); lia|].
        apply Hab in Hc. lia.
      * apply Hab in Hc. lia.
  - destruct (step_frame p p' ev Hinv Hs Hstep) as (Hinv' & H1 & H2 & H3 & _).
    split; [exact Hinv'| |]; rewrite ?H1, ?H2, ?H3; assumption.
Qed.

Lemma tidy_run (evs : list event) (p p' : page) :
  tidy p -> run p evs = Some p' -> tidy p'.
Proof.
  revert p. induction evs as [|ev evs IH]; intros p Ht Hrun; cbn in Hrun.
  - now injection Hrun as <-.
  - destruct (step p ev) as [q|] eqn:Hstep; [|discriminate].
    apply (IH q); [eapply tidy_step; eauto | exact Hrun].
Qed.

Lemma found_not_loading (s : string) : MSG_FOUND +:+ s <> MSG_LOADING.
Proof.
  unfold MSG_FOUND, MSG_LOADING. rewrite !append_cons. intros H.
  injection H as H. discriminate.
Qed.

(** What [handleError] leaves on the status line is never the loading
    message unless it was there. *)
Lemma handleError_status (e : error) (p : page) :
  statusText (handleError e p) = MSG_LOADING ->
  String.eqb (err_name e) "AbortError" = true /\ statusText p = MSG_LOADING.
Proof.
  unfold handleError. destruct (String.eqb (err_name e) "AbortError").
  - auto.
  - cbn. discriminate.
Qed.

Lemma show_payload_not_loading (payload : value) (p : page) :
  statusText (try_catch (show_payload payload) p) <> MSG_LOADING.
Proof.
  unfold try_catch, show_payload.
  destruct (payload_items_total payload) as [total ->].
  destruct (Nat.eqb _ 0).
  - cbn. discriminate.
  - destruct (ToString total) as [shown|e] eqn:Ht.
    2:{ apply ToString_throws in Ht. subst e. cbn. discriminate. }
    destruct (renderItems _ _) as [p'|e] eqn:Hr.
    + unfold renderItems in Hr.
      destruct (build_cards _) as [cs|]; cbn [bind] in Hr; [|discriminate].
      injection Hr as <-. cbn. apply found_not_loading.
    + intros H. apply handleError_status in H as [_ H]. cbn in H.
      now apply found_not_loading in H.
Qed.

Lemma rest_keeps_live (p : page) (signal : nat) (st : stage) (a : activation)
    (rest : list activation) (q : page) :
  take_activation signal st (inflight p) = Some (a, rest) ->
  aborted q = aborted p ->
  (inflight q = rest /\ is_aborted signal p = true
   \/ inflight q = rest ++ [mkActivation signal (act_request a) AwaitJson]) ->
  live p <> [] -> live q <> [].
Proof.
  intros Ht Hab Hq Hl. apply take_activation_spec in Ht as (HP & Hsig & _).
  apply live_nonempty in Hl as (b & Hb & Hnb). apply live_nonempty.
  assert (Hsame : forall s, is_aborted s q = is_aborted s p)
    by (intros s; unfold is_aborted; now rewrite Hab).
  apply (Permutation_in _ HP) in Hb. destruct Hb as [<-|Hb].
  - destruct Hq as [[_ Hx]|Hq]; [congruence|].
    exists (mkActivation signal (act_request a) AwaitJson).
    rewrite Hq. split; [apply in_or_app; right; now left|].
    cbn. rewrite Hsame. congruence.
  - exists b. rewrite Hsame. split; [|exact Hnb].
    destruct Hq as [[Hq _]|Hq]; rewrite Hq; [exact Hb|].
    apply in_or_app. now left.
Qed.

Lemma loading_step (p p' : page) (ev : event) :
  tidy p ->
  (statusText p = MSG_LOADING -> live p <> []) ->
  step p ev = Some p' ->
  statusText p' = MSG_LOADING -> live p' <> [].
Proof.
  intros [Hinv Hact Hab] Hp Hstep Hs'.
  assert (Hrej : forall signal st e a rest,
            take_activation signal st (inflight p) = Some (a, rest) ->
            rejection_allowed signal e p = true ->
            p' = handleError e (set_inflight rest p) ->
            live p' <> []).
  { intros signal st e a rest Ht Hall ->.
    apply handleError_status in Hs' as [Hn Hs]. cbn in Hs.
    unfold handleError. rewrite Hn.
    unfold rejection_allowed in Hall. rewrite Hn in Hall.
    apply eqb_prop in Hall.
    eapply (rest_keeps_live p); eauto. }
  destruct ev as [q m y|signal ok status|signal e|signal payload|signal e];
    cbn [step] in Hstep.
  - injection Hstep as <-. revert Hs'. unfold handleSubmit.
    destruct (str_is_empty (trim q)); [cbn; discriminate|].
    destruct (check_year (trim y)) as [year|]; [|cbn; discriminate].
    intros _. apply live_nonempty. eexists. split.
    + cbn. apply in_or_app. right. left. reflexivity.
    + cbn [act_signal]. unfold is_aborted.
      destruct (existsb _ _) eqn:Hex; [|reflexivity]. exfalso.
      apply existsb_exists in Hex as (c & Hc & Heq). apply Nat.eqb_eq in Heq.
      destruct (activeController p) as [c0|] eqn:H0; cbn in Hc, Heq.
      * destruct Hc as [<-|Hc]; [specialize (Hact c0 eq_refl); lia|].
        apply Hab in Hc. lia.
      * apply Hab in Hc. lia.
  - destruct (take_activation signal AwaitFetch (inflight p)) as [[a rest]|] eqn:Ht;
      [|discriminate].
    destruct (is_aborted signal p); [discriminate|].
    destruct ok; injection Hstep as <-.
    + eapply (rest_keeps_live p); eauto.
    + apply handleError_status in Hs' as [Hn _]. discriminate.
  - destruct (take_activation signal AwaitFetch (inflight p)) as [[a rest]|] eqn:Ht;
      [|discriminate].
    destruct (rejection_allowed signal e p) eqn:Hall; [|discriminate].
    injection Hstep as <-. eapply Hrej; eauto.
  - destruct (take_activation signal AwaitJson (inflight p)) as [[a rest]|] eqn:Ht;
      [|discriminate].
    destruct (is_aborted signal p); [discriminate|].
    injection Hstep as <-. now apply show_payload_not_loading in Hs'.
  - destruct (take_activation signal AwaitJson (inflight p)) as [[a rest]|] eqn:Ht;
      [|discriminate].
    destruct (rejection_allowed signal e p) eqn:Hall; [|discriminate].
    injection Hstep as <-. eapply Hrej; eauto.
Qed.

Lemma loading_run (evs : list event) (p p' : page) :
  tidy p ->
  (statusText p = MSG_LOADING -> live p <> []) ->
  run p evs = Some p' ->
  statusText p' = MSG_LOADING -> live p' <> [].
Proof.
  revert p. induction evs as [|ev evs IH]; intros p Ht Hp Hrun; cbn in Hrun.
  - now injection Hrun as <-.
  - destruct (step p ev) as [q|] eqn:Hstep; [|discriminate].
    apply (IH q); [eapply tidy_step; eauto | eapply loading_step; eauto | exact Hrun].
Qed.
End NasaResults.

(** X9.  Whatever happens to the page, it never shows more than [MAX_RESULTS]
    cards, and it shows none while a request can still fulfil. *)
Theorem results_never_exceed_the_cap
    (E : Engine) (evs : list Nasa.event) (p : Nasa.page) :
  Nasa.run Nasa.initial evs = Some p ->
  List.length (Nasa.results p) <= Nasa.MAX_RESULTS
  /\ (Nasa.live p <> [] -> Nasa.results p = []).
Proof.
  intros Hrun.
  apply (capped_run evs Nasa.initial p inv_initial); [|exact Hrun].
  split; [cbn; lia | reflexivity].
Qed.

Lemma results_never_exceed_the_cap_witness :
  exists p,
    @Nasa.run test_engine Nasa.initial
      [Nasa.Submit "apollo" "image" "2020"; Nasa.FetchResolved 0 true 200;
       Nasa.JsonResolved 0 (Samples.nasa_payload "Moon")] = Some p
    /\ List.length (Nasa.results p) = 1
    /\ List.length (Nasa.results p) <= Nasa.MAX_RESULTS.
Proof.
  eexists. split; [vm_compute; reflexivity|]. split; [reflexivity|].
  eapply (results_never_exceed_the_cap test_engine
            [Nasa.Submit "apollo" "image" "2020"; Nasa.FetchResolved 0 true 200;
             Nasa.JsonResolved 0 (Samples.nasa_payload "Moon")]).
  vm_compute. reflexivity.
Defined.

(** X10.  Whatever happens to the page, the loading message stands only while a
    request can still fulfil: every answer, failure or refusal that ends
    the last one replaces it. *)
Theorem loading_message_means_pending
    (E : Engine) (evs : list Nasa.event) (p : Nasa.page) :
  Nasa.run Nasa.initial evs = Some p ->
  Nasa.statusText p = Nasa.MSG_LOADING ->
  Nasa.live p <> [].
Proof.
  intros Hrun. apply (loading_run evs Nasa.initial p tidy_initial); [|exact Hrun].
  cbn. discriminate.
Qed.

Lemma loading_message_means_pending_witness :
  Nasa.statusText Samples.nasa_loading = Nasa.MSG_LOADING
  /\ Nasa.live Samples.nasa_loading <> [].
Proof.
  split; [reflexivity|].
  apply (loading_message_means_pending test_engine
           [Nasa.Submit "apollo" "image" "2020"] Samples.nasa_loading);
    reflexivity.
Defined.

(** X11.  Reading a decoded payload never throws, whatever it is: the items are
    [payload.collection.items] when that is an array and none otherwise;
    without items the page says that nothing was found, keeps its results
    and raises nothing. *)
Theorem payload_is_always_read (E : Engine) (payload : value) (p : Nasa.page) :
  let items :=
    match get_opt (get_opt payload "collection") "items" with
    | VArr l => l
    | _ => []
    end in
  (exists total, Nasa.payload_items payload = Ok (items, total))
  /\ (items = [] ->
      Nasa.show_payload payload p
      = (Nasa.set_status Nasa.MSG_NOTHING_FOUND p, None)).
Proof.
  cbv zeta. split; [apply payload_items_total|].
  intros Hnil. unfold Nasa.show_payload.
  destruct (payload_items_total payload) as [total ->].
  now rewrite Hnil.
Qed.

Lemma payload_is_always_read_witness :
  @Nasa.show_payload test_engine (VObj [("collection", VNull)]) Samples.nasa_loading
  = (Nasa.set_status Nasa.MSG_NOTHING_FOUND Samples.nasa_loading, None).
Proof.
  apply (proj2 (payload_is_always_read test_engine
                  (VObj [("collection", VNull)]) Samples.nasa_loading)).
  reflexivity.
Defined.

(** ** Lab 1: one card for each item with metadata *)

Section NasaCards.
Context {E : Engine}.
Import Nasa NasaShape.

Lemma text_or_falsy_cases (v : value) :
  text_or_falsy v = true ->
  truthy v = false \/ exists s, v = VStr s /\ s <> EmptyString.
Proof.
  unfold text_or_falsy. destruct (truthy v) eqn:Ht; [|now left].
  cbn. destruct v; try discriminate. intros _. right. eexists. split; [reflexivity|].
  cbn in Ht. apply negb_true_iff in Ht. now apply str_is_empty_false.
Qed.

Lemma text_or_falsy_printable (v : value) :
  text_or_falsy v = true -> printable v = true.
Proof.
  intros H. apply text_or_falsy_cases in H as [Hf|(s & -> & _)]; [|reflexivity].
  destruct v; try reflexivity; discriminate.
Qed.

(** The link [createCard] takes its preview from: one of the links, or
    [undefined]. *)
Lemma find_image_link_total (links : list value) :
  forallb link_ok links = true ->
  exists found,
    find_image_link links = Ok found
    /\ (found = VUndef \/ In found links).
Proof.
  induction links as [|link links IH]; intros H; cbn in *; [eauto|].
  apply andb_true_iff in H as [Hl Hs]. unfold link_ok in Hl.
  apply andb_true_iff in Hl as [Hl _]. apply negb_true_iff in Hl.
  rewrite (get_not_nullish link "render" Hl). cbn [bind].
  destruct (is_str _ "image"); [eauto|].
  destruct (IH Hs) as (found & -> & [->|Hin]); eauto.
Qed.

Lemma formatDate_text (v : value) :
  text_or_falsy v = true -> exists date, formatDate v = Ok date.
Proof.
  intros H. unfold formatDate.
  apply text_or_falsy_cases in H as [Hf|(s & -> & Hne)].
  - rewrite Hf. cbn. eauto.
  - destruct (negb (truthy (VStr s))); cbn; eauto.
Qed.

Lemma createCard_shaped (item : value) :
  item_ok item = true ->
  truthy (meta_of item) = true ->
  exists c,
    createCard (meta_of item) item = Ok c
    /\ VStr (card_title c)
       = or_else (get_opt (meta_of item) "title") (VStr MSG_NO_TITLE)
    /\ card_title c <> EmptyString
    /\ card_description c <> EmptyString.
Proof.
  unfold item_ok. intros Hok Hm. rewrite Hm in Hok. cbn [negb orb] in Hok.
  apply andb_true_iff in Hok as [Hok Hlinks].
  apply andb_true_iff in Hok as [Hitem Hmeta].
  apply andb_true_iff in Hmeta as [Hmeta Hid].
  apply andb_true_iff in Hmeta as [Hmeta Hdate].
  apply andb_true_iff in Hmeta as [Htitle Hdesc].
  apply negb_true_iff in Hitem.
  set (meta := meta_of item) in *.
  assert (Ht : exists s, or_else (get_opt meta "title") (VStr MSG_NO_TITLE) = VStr s
                         /\ s <> EmptyString).
  { apply text_or_falsy_cases in Htitle as [Hf|(s & Hs & Hne)]; unfold or_else.
    - rewrite Hf. eexists. split; [reflexivity | discriminate].
    - rewrite Hs. cbn. apply str_is_empty_false in Hne. rewrite Hne. cbn.
      eexists. split; [reflexivity|]. now apply str_is_empty_false. }
  destruct Ht as (title & Ht & Htne).
  assert (Hd : exists s, truncate (get_opt meta "description") 200 = Ok (VStr s)
                         /\ s <> EmptyString).
  { apply text_or_falsy_cases in Hdesc as [Hf|(s & Hs & Hne)].
    - rewrite (truncate_falsy _ _ Hf). eexists. split; [reflexivity | discriminate].
    - rewrite Hs. destruct (truncate_description (VStr s)) as (r & Hr & Hrne & _);
        eauto. }
  destruct Hd as (description & Hd & Hdne).
  destruct (formatDate_text _ Hdate) as (date & Hdt).
  assert (Hn : exists s, or_else (get_opt meta "nasa_id") (VStr EmptyString) = VStr s).
  { apply text_or_falsy_cases in Hid as [Hf|(s & Hs & Hne)]; unfold or_else.
    - rewrite Hf. eauto.
    - rewrite Hs. destruct (truthy (VStr s)); eauto. }
  destruct Hn as (nasaId & Hn).
  set (links := match get_opt item "links" with VArr l => l | _ => [] end) in *.
  assert (Hall : forallb link_ok links = true).
  { subst links. destruct (get_opt item "links"); try reflexivity. exact Hlinks. }
  destruct (find_image_link_total links Hall) as (found & Hfound & Hwhere).
  assert (Hurl : exists previewUrl,
            (if truthy (or_else found (hd VUndef links))
             then get (or_else found (hd VUndef links)) "href"
             else Ok (VStr EmptyString)) = Ok previewUrl
            /\ printable previewUrl = true).
  { destruct (truthy (or_else found (hd VUndef links))) eqn:Hp.
    - rewrite (get_truthy _ "href" Hp). eexists. split; [reflexivity|].
      assert (Hin : In (or_else found (hd VUndef links)) links).
      { unfold or_else in *. destruct (truthy found) eqn:Hf.
        - destruct Hwhere as [->|Hin]; [discriminate | exact Hin].
        - destruct links as [|l0 ls]; [discriminate|]. now left. }
      rewrite forallb_forall in Hall. specialize (Hall _ Hin).
      unfold link_ok in Hall. apply andb_true_iff in Hall as [_ Hh].
      now apply text_or_falsy_printable.
    - eexists. split; [reflexivity | reflexivity]. }
  destruct Hurl as (previewUrl & Hurl & Hpp).
  unfold createCard.
  rewrite !(get_truthy meta _ Hm). cbn [bind]. rewrite Hd. cbn [bind].
  rewrite Hdt. cbn [bind].
  rewrite (get_not_nullish item "links" Hitem). cbn [bind].
  fold links. rewrite Hfound. cbn [bind]. rewrite Hurl. cbn [bind].
  rewrite Ht, Hn. cbn [ToString bind].
  set (detailsUrl := if truthy (VStr nasaId)
                     then Ok (VStr ("https://images.nasa.gov/details-" +:+ nasaId))
                     else Ok previewUrl).
  assert (Hdu : exists d, detailsUrl = Ok d /\ printable d = true).
  { subst detailsUrl. destruct (truthy (VStr nasaId)); eauto. }
  destruct Hdu as (d & -> & Hdp). cbn [bind].
  destruct (printable_ToString d Hdp) as (ds & Hds).
  destruct (printable_ToString previewUrl Hpp) as (ps & Hps).
  assert (Hhref : exists h,
            ToString (if is_str (or_else (get_opt meta "media_type") (VStr "image"))
                           "video"
                      then d else or_else previewUrl d) = Ok h).
  { destruct (is_str _ "video"); [eauto|].
    unfold or_else. destruct (truthy previewUrl); eauto. }
  destruct Hhref as (h & ->). cbn [bind]. rewrite Hps, Hds.
  destruct (truthy previewUrl); cbn [bind]; eexists;
    (split; [reflexivity|]); cbn; auto.
Qed.

Lemma build_cards_shaped (items : list value) :
  forallb item_ok items = true ->
  exists cards,
    build_cards items = Ok cards
    /\ Forall2
         (fun item c =>
            createCard (meta_of item) item = Ok c
            /\ VStr (card_title c)
               = or_else (get_opt (meta_of item) "title") (VStr MSG_NO_TITLE)
            /\ card_title c <> EmptyString
            /\ card_description c <> EmptyString)
         (filter (fun item => truthy (meta_of item)) items) cards.
Proof.
  induction items as [|item items IH]; intros H; cbn [forallb] in H.
  - exists []. split; [reflexivity | constructor].
  - apply andb_true_iff in H as [Hi Hs].
    destruct (IH Hs) as (cs & Hcs & Hall).
    assert (Hitem : nullish item = false).
    { unfold item_ok in Hi. apply andb_true_iff in Hi as [Hi _].
      apply andb_true_iff in Hi as [Hi _]. now apply negb_true_iff. }
    cbn [build_cards filter].
    rewrite (get_not_nullish item "data" Hitem). cbn [bind].
    change (match get_opt item "data" with VArr l => hd VUndef l | _ => VNull end)
      with (meta_of item).
    destruct (truthy (meta_of item)) eqn:Hm; cbn [negb].
    + destruct (createCard_shaped item Hi Hm) as (c & Hc & Hrest).
      rewrite Hc, Hcs. cbn [bind]. exists (c :: cs).
      split; [reflexivity|]. constructor; auto.
    + exists cs. auto.
Qed.
End NasaCards.

(** X12.  Items of the shape the search service sends are all rendered: the
    fragment [renderItems] appends holds one card for each item that has
    metadata, in the order of the items, each the card [createCard] makes
    of its item; the card has the title of the metadata, or the placeholder
    when there is none, and a description that is not empty. *)
Theorem every_item_with_metadata_gets_a_card
    (E : Engine) (items : list value) (p : Nasa.page) :
  forallb NasaShape.item_ok items = true ->
  exists cards,
    Nasa.renderItems items p
    = Ok (Nasa.set_results (Nasa.results p ++ cards) p)
    /\ Forall2
         (fun item c =>
            Nasa.createCard (NasaShape.meta_of item) item = Ok c
            /\ VStr (Nasa.card_title c)
               = or_else (get_opt (NasaShape.meta_of item) "title")
                   (VStr Nasa.MSG_NO_TITLE)
            /\ Nasa.card_title c <> EmptyString
            /\ Nasa.card_description c <> EmptyString)
         (filter (fun item => truthy (NasaShape.meta_of item)) items) cards.
Proof.
  intros H. destruct (build_cards_shaped items H) as (cards & Hc & Hrest).
  exists cards. split; [|exact Hrest].
  unfold Nasa.renderItems. now rewrite Hc.
Qed.

Lemma every_item_with_metadata_gets_a_card_witness :
  exists c,
    @Nasa.renderItems test_engine MoreSamples.nasa_items Nasa.initial
    = Ok (Nasa.set_results [c] Nasa.initial)
    /\ Nasa.card_title c = "Moon".
Proof.
  destruct (every_item_with_metadata_gets_a_card test_engine
              MoreSamples.nasa_items Nasa.initial)
    as (cards & Hr & Hall); [reflexivity|].
  cbn [filter MoreSamples.nasa_items] in Hall.
  inversion Hall as [|item c rest cs (_ & Ht & _) Hnil]; subst.
  inversion Hnil; subst.
  exists c. split; [exact Hr|]. cbn in Ht. now injection Ht as ->.
Defined.

(** ** Query strings *)

Lemma count_chars_app (f : ascii -> bool) (a b : string) :
  count_chars f (a +:+ b) = count_chars f a + count_chars f b.
Proof.
  induction a as [|c a IH]; [reflexivity|].
  rewrite append_cons. cbn [count_chars]. rewrite IH. lia.
Qed.

Lemma encode_char_clean (c : ascii) : count_chars is_delimiter (encode_char c) = 0.
Proof.
  destruct c as [[] [] [] [] [] [] [] []]; vm_compute; reflexivity.
Qed.

(** No delimiter survives the encoding of a name or a value. *)
Lemma urlencode_clean (s : string) : count_chars is_delimiter (urlencode s) = 0.
Proof.
  induction s as [|c s IH]; [reflexivity|].
  cbn [urlencode]. now rewrite count_chars_app, encode_char_clean, IH.
Qed.

Lemma pair_delimiters (k v : string) :
  count_chars is_delimiter (urlencode k +:+ "=" +:+ urlencode v) = 1.
Proof.
  rewrite !count_chars_app, !urlencode_clean. reflexivity.
Qed.

(** A serialised parameter list has one [=] for each pair and one [&]
    between two of them, whatever the names and the values. *)
Lemma params_toString_delimiters (params : URLSearchParams) :
  count_chars is_delimiter (params_toString params)
  = 2 * List.length params - 1.
Proof.
  unfold params_toString.
  induction params as [|[k v] params IH]; [reflexivity|].
  cbn [map fst snd List.length]. destruct params as [|kv params].
  - cbn [map join]. rewrite pair_delimiters. reflexivity.
  - cbn [map join] in *. rewrite !count_chars_app, IH.
    rewrite <- !count_chars_app, pair_delimiters. cbn [List.length]. cbn. lia.
Qed.

Lemma buildQuery_params (query mediaType year : string) :
  exists params,
    Nasa.buildQuery query mediaType year
    = Nasa.API_ENDPOINT +:+ "?" +:+ params_toString params
    /\ List.length params = if str_is_empty year then 3 else 5.
Proof.
  unfold Nasa.buildQuery. eexists. split; [reflexivity|].
  destruct (str_is_empty year); reflexivity.
Qed.

(** X13.  The text typed into a form cannot add, end or split a parameter of the
    request: the query string of each GET request and the body of each form
    POST has a fixed number of [&], [=], [?] and [#], one [=] for each
    parameter and one [&] between two. *)
Theorem typed_text_cannot_change_the_parameters :
  (forall query mediaType year : string,
     exists qs,
       Nasa.buildQuery query mediaType year = Nasa.API_ENDPOINT +:+ "?" +:+ qs
       /\ count_chars is_delimiter qs = if str_is_empty year then 5 else 9)
  /\ (forall city apiKey : string,
        exists qs,
          Weather.forecast_url city apiKey
          = "https://api.openweathermap.org/data/2.5/forecast?" +:+ qs
          /\ count_chars is_delimiter qs = 7)
  /\ (forall searchQuery : string,
        exists qs,
          req_url (Geo.geocode_request searchQuery)
          = "https://nominatim.openstreetmap.org/search?" +:+ qs
          /\ count_chars is_delimiter qs = 9)
  /\ (forall apiKey language text : string,
        exists sentiment topics,
          req_body (MeaningCloud.sentiment_request apiKey language text)
          = Some sentiment
          /\ count_chars is_delimiter sentiment = 7
          /\ req_body (MeaningCloud.topics_request apiKey language text)
             = Some topics
          /\ count_chars is_delimiter topics = 9)
  /\ (forall host path apiKey text : string,
        exists body,
          req_body (Twinword.rapidapi_request host path apiKey text) = Some body
          /\ count_chars is_delimiter body = 1).
Proof.
  split; [|split; [|split; [|split]]].
  - intros query mediaType year.
    destruct (buildQuery_params query mediaType year) as (params & Hq & Hl).
    exists (params_toString params). split; [exact Hq|].
    rewrite params_toString_delimiters, Hl. now destruct (str_is_empty year).
  - intros city apiKey. eexists. split; [reflexivity|].
    now rewrite params_toString_delimiters.
  - intros searchQuery. eexists. split; [reflexivity|].
    now rewrite params_toString_delimiters.
  - intros apiKey language text. eexists. eexists.
    split; [reflexivity|]. split; [now rewrite params_toString_delimiters|].
    split; [reflexivity|]. now rewrite params_toString_delimiters.
  - intros host path apiKey text. eexists. split; [reflexivity|].
    now rewrite params_toString_delimiters.
Qed.

(** ** Lab 1: the year that leaves *)

Lemma urlencode_uint (d : Decimal.uint) :
  urlencode (NilEmpty.string_of_uint d) = NilEmpty.string_of_uint d.
Proof.
  induction d; cbn [NilEmpty.string_of_uint urlencode]; [reflexivity| | | | | | | | | |];
    rewrite IHd; reflexivity.
Qed.

Lemma urlencode_numeral (n : Z) : (0 <= n)%Z -> urlencode (Z_to_string n) = Z_to_string n.
Proof.
  intros Hn. unfold Z_to_string. destruct n as [|n|n]; [reflexivity| |lia].
  cbn [Z.to_int NilEmpty.string_of_int]. apply urlencode_uint.
Qed.

(** X14.  Whatever stands in the year field, [handleSubmit] either sends
    nothing, or sends a request without a year (the field being blank), or
    sends the canonical numeral of an integer from 1920 to 2100, the
    integer [parseInt] reads at the head of the field, as both
    [year_start] and [year_end]. *)
Theorem year_sent_is_a_numeral_in_range
    (p : Nasa.page) (searchValue mediaType yearValue : string) :
  let p' := Nasa.handleSubmit searchValue mediaType yearValue p in
  Nasa.inflight p' = Nasa.inflight p
  \/ exists year,
       Nasa.inflight p'
       = Nasa.inflight p
         ++ [Nasa.mkActivation (Nasa.controllers p)
               (GET (Nasa.buildQuery (trim searchValue) mediaType year))
               Nasa.AwaitFetch]
       /\ (trim yearValue = EmptyString /\ year = EmptyString
           \/ exists n : Z,
                parseInt (trim yearValue) = Some n
                /\ (1920 <= n <= 2100)%Z
                /\ year = Z_to_string n
                /\ Nasa.buildQuery (trim searchValue) mediaType year
                   = Nasa.API_ENDPOINT +:+ "?q=" +:+ urlencode (trim searchValue)
                     +:+ "&page=1&media_type="
                     +:+ urlencode (if String.eqb mediaType "all"
                                    then "image,video" else mediaType)
                     +:+ "&year_start=" +:+ Z_to_string n
                     +:+ "&year_end=" +:+ Z_to_string n).
Proof.
  cbv zeta.
  destruct (str_is_empty (trim searchValue)) eqn:Hq.
  { left. apply str_is_empty_true in Hq.
    now rewrite nasa_handleSubmit_empty_query. }
  apply str_is_empty_false in Hq.
  destruct (Nasa.check_year (trim yearValue)) as [year|] eqn:Hy.
  2:{ left. now rewrite nasa_handleSubmit_bad_year. }
  right. exists year.
  rewrite (nasa_handleSubmit_valid p searchValue mediaType yearValue year Hq Hy).
  split; [reflexivity|].
  destruct (str_is_empty (trim yearValue)) eqn:He.
  - left. apply str_is_empty_true in He. split; [exact He|].
    rewrite He in Hy. cbn in Hy. congruence.
  - right. apply str_is_empty_false in He.
    destruct (parseInt (trim yearValue)) as [n|] eqn:Hp.
    + rewrite (check_year_range _ n He Hp) in Hy.
      destruct ((1920 <=? n)%Z && (n <=? 2100)%Z) eqn:Hr; [|discriminate].
      injection Hy as <-. apply andb_true_iff in Hr as [H1 H2].
      apply Z.leb_le in H1, H2.
      exists n. split; [reflexivity|]. split; [lia|]. split; [reflexivity|].
      rewrite buildQuery_with_year.
      * rewrite urlencode_numeral by lia. reflexivity.
      * unfold Z_to_string. destruct n as [|n|n]; try lia.
        cbn [Z.to_int NilEmpty.string_of_int].
        destruct (Pos.to_uint n) eqn:Hu; try discriminate.
        exfalso. pose proof (DecimalPos.Unsigned.to_uint_nonnil n). contradiction.
    + exfalso. unfold Nasa.check_year in Hy. apply str_is_empty_false in He.
      rewrite He, Hp in Hy. discriminate.
Qed.

(** ** Lab 5: the chart and the status after an answer *)

Section WeatherChart.
Context {E : Engine}.
Import Weather WeatherEvents.

Lemma in_period_spec (start stop : num) (l kept : list value) :
  in_period start stop l = Ok kept ->
  Forall (fun entry =>
            In entry l
            /\ exists dt seconds,
                 get entry "dt" = Ok dt
                 /\ ToNumber dt = Ok seconds
                 /\ num_leb start
                      (TimeClip (num_mul seconds (num_of_Z 1000))) = true
                 /\ num_leb (TimeClip (num_mul seconds (num_of_Z 1000)))
                      stop = true) kept.
Proof.
  revert kept. induction l as [|entry l IH]; intros kept H; cbn [in_period] in H.
  - injection H as <-. constructor.
  - destruct (get entry "dt") as [dt|e] eqn:Hdt; cbn [bind] in H; [|discriminate].
    destruct (ToNumber dt) as [seconds|e] eqn:Hs; cbn [bind] in H; [|discriminate].
    destruct (in_period start stop l) as [kept'|e]; cbn [bind] in H; [|discriminate].
    specialize (IH kept' eq_refl).
    assert (Hk : Forall (fun entry0 =>
                           In entry0 (entry :: l)
                           /\ exists dt0 seconds0,
                                get entry0 "dt" = Ok dt0
                                /\ ToNumber dt0 = Ok seconds0
                                /\ num_leb start
                                     (TimeClip (num_mul seconds0 (num_of_Z 1000)))
                                   = true
                                /\ num_leb
                                     (TimeClip (num_mul seconds0 (num_of_Z 1000)))
                                     stop = true) kept').
    { eapply Forall_impl; [|exact IH]. cbn. intros x [Hx Hr]. split; [now right | exact Hr]. }
    destruct (num_leb start _ && num_leb _ stop) eqn:Hw; injection H as <-;
      [|exact Hk].
    apply andb_true_iff in Hw as [H1 H2].
    constructor; [|exact Hk]. split; [now left|]. eauto 7.
Qed.

Lemma point_of_x (c : config) (entry : value) (pt : num * num) :
  point_of c entry = Ok pt ->
  exists dt seconds,
    get entry "dt" = Ok dt
    /\ ToNumber dt = Ok seconds
    /\ fst pt = num_mul seconds (num_of_Z 1000).
Proof.
  unfold point_of. intros H.
  destruct (get entry "dt") as [dt|e]; cbn [bind] in H; [|discriminate].
  destruct (ToNumber dt) as [seconds|e] eqn:Hs; cbn [bind] in H; [|discriminate].
  exists dt, seconds. split; [reflexivity|]. split; [exact Hs|].
  destruct c as [label field| |]; try discriminate.
  destruct (get entry "main") as [main|e]; cbn [bind] in H; [|discriminate].
  destruct (get main field) as [v|e]; cbn [bind] in H; [|discriminate].
  destruct v; try discriminate. now injection H as <-.
Qed.

Lemma points_in_period (c : config) (start stop : num) (l kept : list value)
    (points : list (num * num)) :
  in_period start stop l = Ok kept ->
  mapM (point_of c) kept = Ok points ->
  Forall2 (fun entry pt => In entry l /\ point_for start stop entry pt) kept points.
Proof.
  intros Hk Hm. apply in_period_spec in Hk.
  revert points Hm.
  induction Hk as [|entry kept [Hin (dt & seconds & Hdt & Hs & H1 & H2)] Hk IH];
    intros points Hm; cbn [mapM] in Hm.
  - injection Hm as <-. constructor.
  - destruct (point_of c entry) as [pt|e] eqn:Hp; cbn [bind] in Hm; [|discriminate].
    destruct (mapM (point_of c) kept) as [pts|e]; cbn [bind] in Hm; [|discriminate].
    injection Hm as <-. constructor; [|now apply IH].
    split; [exact Hin|].
    apply point_of_x in Hp as (dt' & seconds' & Hdt' & Hs' & Hx).
    rewrite Hdt in Hdt'. injection Hdt' as <-.
    rewrite Hs in Hs'. injection Hs' as <-.
    exists dt, seconds. rewrite Hx. auto.
Qed.

(** The outcomes of [updateChart]: it throws and leaves the page; or it
    reports a problem in red; or it draws and reports in green. *)
Lemma updateChart_outcome (p : page) :
  (exists e, updateChart p = (p, Some e))
  \/ (exists q, updateChart p = (q, None)
                /\ statusColor q = COLOR_ERROR
                /\ statusText q <> EmptyString)
  \/ (exists q start stop kept d,
        updateChart p = (q, None)
        /\ statusColor q = COLOR_SUCCESS
        /\ parseLocalDate (startInput p) = Some start
        /\ parseLocalDate (endInput p) = Some stop
        /\ num_leb stop start = false
        /\ in_period start stop (lastForecast p) = Ok kept
        /\ chartInstance q = Some d
        /\ dataset_data d <> []
        /\ statusText q
           = MSG_POINTS +:+ nat_to_string (List.length (dataset_data d))
        /\ Forall2 (fun entry pt =>
                      In entry (lastForecast p) /\ point_for start stop entry pt)
             kept (dataset_data d)).
Proof.
  unfold updateChart.
  destruct (config_truthy (metricConfig (select_value (metricSelect p))));
    cbn [negb].
  2:{ right. left. eexists. split; [reflexivity|]. split; [reflexivity | discriminate]. }
  destruct (parseLocalDate (startInput p)) as [start|];
    [|right; left; eexists; split; [reflexivity|]; split; [reflexivity | discriminate]].
  destruct (parseLocalDate (endInput p)) as [stop|];
    [|right; left; eexists; split; [reflexivity|]; split; [reflexivity | discriminate]].
  destruct (num_leb stop start) eqn:Hle;
    [right; left; eexists; split; [reflexivity|]; split; [reflexivity | discriminate]|].
  destruct (in_period start stop (lastForecast p)) as [kept|e] eqn:Hk;
    [|left; eauto].
  destruct (mapM _ kept) as [points|e] eqn:Hm; [|left; eauto].
  destruct (Nat.eqb (List.length points) 0) eqn:Hn.
  - right. left. eexists. split; [reflexivity|]. split; [reflexivity | discriminate].
  - right. right. eexists. exists start, stop, kept. eexists.
    split; [reflexivity|]. split; [reflexivity|].
    split; [reflexivity|]. split; [reflexivity|]. split; [exact Hle|].
    split; [exact Hk|]. split; [reflexivity|]. cbn [dataset_data].
    split; [intros ->; discriminate|]. split; [reflexivity|].
    eapply points_in_period; eauto.
Qed.

Lemma updateChart_frame (p : page) :
  let q := fst (updateChart p) in
  apiKeyInput q = apiKeyInput p /\ cityInput q = cityInput p
  /\ metricSelect q = metricSelect p
  /\ startInput q = startInput p /\ endInput q = endInput p
  /\ loadBtnDisabled q = loadBtnDisabled p
  /\ controlsDisabled q = controlsDisabled p
  /\ lastForecast q = lastForecast p
  /\ localStorage q = localStorage p
  /\ inflight q = inflight p.
Proof.
  cbv zeta. unfold updateChart.
  destruct (config_truthy (metricConfig (select_value (metricSelect p))));
    cbn [negb]; [|cbn; repeat split].
  destruct (parseLocalDate (startInput p)) as [start|]; [|cbn; repeat split].
  destruct (parseLocalDate (endInput p)) as [stop|]; [|cbn; repeat split].
  destruct (num_leb stop start); [cbn; repeat split|].
  destruct (in_period start stop (lastForecast p)) as [kept|e]; [|cbn; repeat split].
  destruct (mapM _ kept) as [points|e]; [|cbn; repeat split].
  destruct (Nat.eqb (List.length points) 0); cbn; repeat split.
Qed.

Lemma persistPreferences_frame (apiKey city : string) (p : page) :
  let q := persistPreferences apiKey city p in
  loadBtnDisabled q = loadBtnDisabled p
  /\ controlsDisabled q = controlsDisabled p
  /\ inflight q = inflight p
  /\ lastForecast q = lastForecast p
  /\ startInput q = startInput p /\ endInput q = endInput p.
Proof.
  cbv zeta. unfold persistPreferences.
  destruct (setItem "ow_apiKey" apiKey (localStorage p)) as [st1|]; [|repeat split].
  destruct (setItem "ow_city" city st1) as [st2|]; [|repeat split].
  destruct (setItem "ow_metric" _ st2); repeat split.
Qed.

(** What [.catch] and [.finally] leave after a rejection. *)
Lemma settle_rejected (p : page) (e : error) :
  let q := settle (p, Some e) in
  loadBtnDisabled q = false /\ controlsDisabled q = false
  /\ inflight q = inflight p
  /\ statusColor q = COLOR_ERROR /\ statusText q <> EmptyString.
Proof.
  cbv zeta. cbn. repeat split.
  destruct (str_is_empty (err_message e)) eqn:He; [discriminate|].
  now apply str_is_empty_false.
Qed.
End WeatherChart.



(** X16.  Whatever the network answers to a waiting request, the form is enabled
    again, the request is gone, and the status is either the success
    report over a chart with points or a message in red that is not
    empty: the loading message never stays. *)
Theorem every_answer_ends_the_loading
    (E : Engine) (a : Weather.answer) (p : Weather.page) :
  Weather.inflight p <> [] ->
  let p' := Weather.on_answer a p in
  Weather.loadBtnDisabled p' = false
  /\ Weather.controlsDisabled p' = false
  /\ Weather.inflight p' = tl (Weather.inflight p)
  /\ (Weather.statusColor p' = Weather.COLOR_ERROR
      /\ Weather.statusText p' <> EmptyString
      \/ Weather.statusColor p' = Weather.COLOR_SUCCESS
         /\ exists d, Weather.chartInstance p' = Some d
                      /\ Weather.dataset_data d <> []).
Proof.
  intros Hne. cbv zeta. unfold Weather.on_answer.
  destruct (Weather.inflight p) as [|act rest] eqn:Hin; [congruence|].
  cbn [tl].
  set (w := Weather.set_inflight rest p).
  assert (Hw : Weather.inflight w = rest) by reflexivity.
  assert (Hrej : forall (q : Weather.page) (e : error),
            Weather.inflight q = rest ->
            let p' := Weather.settle (q, Some e) in
            Weather.loadBtnDisabled p' = false
            /\ Weather.controlsDisabled p' = false
            /\ Weather.inflight p' = rest
            /\ (Weather.statusColor p' = Weather.COLOR_ERROR
                /\ Weather.statusText p' <> EmptyString
                \/ Weather.statusColor p' = Weather.COLOR_SUCCESS
                   /\ exists d, Weather.chartInstance p' = Some d
                                /\ Weather.dataset_data d <> [])).
  { intros q e Hq. destruct (settle_rejected q e) as (H1 & H2 & H3 & H4 & H5).
    cbv zeta. rewrite H1, H2, H3, Hq. auto 6. }
  clearbody w.
  destruct a as [e|status|e|data]; try (apply Hrej; exact Hw).
  unfold Weather.on_data.
  destruct (get data "list") as [[| | | | |entries|]|e]; try (apply Hrej; exact Hw).
  set (stored := Weather.persistPreferences _ _ _).
  assert (Hs : Weather.inflight stored = rest).
  { subst stored.
    destruct (persistPreferences_frame (Weather.act_apiKey act) (Weather.act_city act)
                (Weather.set_lastForecast entries w)) as (_ & _ & H3 & _).
    rewrite H3. exact Hw. }
  clearbody stored.
  pose proof (updateChart_frame stored) as Hf. cbv zeta in Hf.
  destruct Hf as (_ & _ & _ & _ & _ & _ & _ & _ & _ & Hfi).
  destruct (updateChart_outcome stored)
    as [(e & He)|[(q & Hq & Hcol & Htxt)|(q & start & stop & kept & d & Hq & Hcol
                                          & _ & _ & _ & _ & Hd & Hdn & _)]].
  - rewrite He. apply Hrej. exact Hs.
  - rewrite Hq in Hfi |- *. cbn in Hfi |- *. rewrite Hfi, Hs.
    split; [reflexivity|]. split; [reflexivity|]. split; [reflexivity|].
    left. auto.
  - rewrite Hq in Hfi |- *. cbn in Hfi |- *. rewrite Hfi, Hs.
    split; [reflexivity|]. split; [reflexivity|]. split; [reflexivity|].
    right. eauto.
Qed.

Lemma every_answer_ends_the_loading_witness :
  Weather.loadBtnDisabled MoreSamples.weather_waiting = true
  /\ Weather.loadBtnDisabled
       (@Weather.on_answer test_engine (Weather.HttpNotOk 401)
          MoreSamples.weather_waiting) = false.
Proof.
  split; [reflexivity|].
  apply (every_answer_ends_the_loading test_engine (Weather.HttpNotOk 401)
           MoreSamples.weather_waiting).
  discriminate.
Defined.

(** X17.  A change of the metric or of the period redraws from the forecast kept
    in memory: it sends nothing, writes nothing to the storage, leaves the
    fields of the form, the forecast and the state of the button as they
    are, and does nothing at all before a forecast was loaded. *)
Theorem quick_update_stays_local (E : Engine) (p : Weather.page) :
  let p' := WeatherEvents.handleQuickUpdate p in
  Weather.inflight p' = Weather.inflight p
  /\ Weather.localStorage p' = Weather.localStorage p
  /\ Weather.lastForecast p' = Weather.lastForecast p
  /\ Weather.apiKeyInput p' = Weather.apiKeyInput p
  /\ Weather.cityInput p' = Weather.cityInput p
  /\ Weather.metricSelect p' = Weather.metricSelect p
  /\ Weather.startInput p' = Weather.startInput p
  /\ Weather.endInput p' = Weather.endInput p
  /\ Weather.loadBtnDisabled p' = Weather.loadBtnDisabled p
  /\ (Weather.lastForecast p = [] -> p' = p).
Proof.
  cbv zeta. unfold WeatherEvents.handleQuickUpdate.
  destruct (Nat.eqb (List.length (Weather.lastForecast p)) 0) eqn:Hn.
  - repeat split.
  - pose proof (updateChart_frame p) as Hf. cbv zeta in Hf.
    destruct Hf as (H1 & H2 & H3 & H4 & H5 & H6 & H7 & H8 & H9 & H10).
    repeat split; try assumption.
    intros Hnil. rewrite Hnil in Hn. discriminate.
Qed.

Lemma quick_update_stays_local_witness :
  @WeatherEvents.handleQuickUpdate test_engine Samples.weather_page
  = Samples.weather_page.
Proof.
  pose proof (quick_update_stays_local test_engine Samples.weather_page) as H.
  cbv zeta in H. destruct H as (_ & _ & _ & _ & _ & _ & _ & _ & _ & H).
  apply H. reflexivity.
Defined.

(** ** Lab 3: the order of the places *)

(** X18.  With a collation that is an order, whatever [fetchPlaces] returns is
    in the order of the names: no place stands before one that the
    collation puts before it. *)
Theorem places_come_in_name_order
    (E : Engine) (data : value) (out : list Geo.place) :
  GeoSearch.collation_is_an_order ->
  Geo.normalizePlaces data = Ok out ->
  GeoSearch.in_name_order out.
Proof.
  intros [Hanti Htrans] H. unfold Geo.normalizePlaces in H.
  destruct (get data "elements") as [elements|e]; cbn [bind] in H; [|discriminate].
  destruct elements as [| | | | |l|]; try discriminate.
  destruct (Geo.visit_all ∅ l) as [mapped|e]; cbn [bind] in H; [|discriminate].
  apply sortM_by_name in H. subst out.
  unfold GeoSearch.in_name_order. apply sort_in_order.
  - intros a b. apply Hanti.
  - intros a b c. apply Htrans.
Qed.

Lemma places_come_in_name_order_witness :
  exists out,
    @Geo.normalizePlaces test_engine Samples.overpass_payload = Ok out
    /\ @GeoSearch.in_name_order test_engine out.
Proof.
  eexists. split; [vm_compute; reflexivity|].
  apply (places_come_in_name_order test_engine Samples.overpass_payload).
  - exact code_units_are_an_order.
  - vm_compute. reflexivity.
Defined.

(** ** Lab 3: the address line *)

Lemma join_empty_iff (sep : string) (l : list string) :
  (forall x, In x l -> x <> EmptyString) ->
  (join sep l = EmptyString <-> l = []).
Proof.
  intros Hne. split; [|now intros ->].
  destruct l as [|x l]; [reflexivity|]. intros H. exfalso.
  assert (Hx : x <> EmptyString) by (apply Hne; now left).
  cbn [join] in H. destruct l; [congruence|].
  now apply (append_nonempty x (sep +:+ join sep (s :: l))) in Hx.
Qed.

Lemma assoc_text (t : list (string * value)) (k : string) :
  forallb (fun kv => is_text (snd kv)) t = true ->
  default VUndef (assoc k t) = VUndef
  \/ exists s, default VUndef (assoc k t) = VStr s.
Proof.
  induction t as [|[k' v] t IH]; intros H; cbn in *; [now left|].
  apply andb_true_iff in H as [Hv Ht].
  destruct (String.eqb k k'); [|now apply IH].
  destruct v; try discriminate. right. eauto.
Qed.

Lemma truthy_text {E : Engine} (v : value) :
  v = VUndef \/ (exists s, v = VStr s) ->
  truthy v = true -> exists s, ToString v = Ok s /\ s <> EmptyString.
Proof.
  intros [->|[s ->]]; cbn; [discriminate|].
  intros H. apply negb_true_iff in H. exists s. split; [reflexivity|].
  now apply str_is_empty_false.
Qed.

(** X19.  For tags that are texts, as OpenStreetMap's are, [buildAddress]
    returns the empty address exactly when the street, the city, the state
    and the country are all missing or empty: a house number alone gives no
    address, and any of the four gives one. *)
Theorem address_is_empty_only_without_parts
    (E : Engine) (t : list (string * value)) :
  forallb (fun kv => is_text (snd kv)) t = true ->
  exists address,
    Geo.buildAddress (VObj t) = Ok address
    /\ (address = EmptyString <->
        truthy (default VUndef (assoc "addr:street" t)) = false
        /\ truthy (default VUndef (assoc "addr:city" t)) = false
        /\ truthy (default VUndef (assoc "addr:state" t)) = false
        /\ truthy (default VUndef (assoc "addr:country" t)) = false).
Proof.
  intros Ht. unfold Geo.buildAddress. cbn [get bind].
  pose proof (assoc_text t "addr:street" Ht) as Hstreet.
  pose proof (assoc_text t "addr:city" Ht) as Hcity.
  pose proof (assoc_text t "addr:state" Ht) as Hstate.
  pose proof (assoc_text t "addr:country" Ht) as Hcountry.
  pose proof (assoc_text t "addr:housenumber" Ht) as Hnumber.
  set (street := default VUndef (assoc "addr:street" t)) in *.
  set (city := default VUndef (assoc "addr:city" t)) in *.
  set (state := default VUndef (assoc "addr:state" t)) in *.
  set (country := default VUndef (assoc "addr:country" t)) in *.
  set (number := default VUndef (assoc "addr:housenumber" t)) in *.
  clearbody street city state country number.
  assert (Hfirst : exists first,
            (if truthy street then
               let* street_text := ToString street in
               let* housenumber := Ok number in
               let* number_text :=
                 if truthy housenumber
                 then let* shown := ToString housenumber in Ok (", " +:+ shown)
                 else Ok EmptyString in
               Ok (VStr (street_text +:+ number_text))
             else Ok (VStr EmptyString)) = Ok (VStr first)
            /\ truthy (VStr first) = truthy street).
  { destruct (truthy street) eqn:Hs.
    - destruct (truthy_text street Hstreet Hs) as (shown & -> & Hne).
      cbn [bind].
      assert (Hn : exists number_text,
                (if truthy number
                 then let* shown := ToString number in Ok (", " +:+ shown)
                 else Ok EmptyString) = Ok number_text).
      { destruct (truthy number) eqn:Hn; [|eauto].
        destruct (truthy_text number Hnumber Hn) as (n & -> & _). cbn. eauto. }
      destruct Hn as [number_text ->]. cbn [bind].
      eexists. split; [reflexivity|]. cbn.
      apply negb_true_iff, str_is_empty_false. now apply append_nonempty.
    - eexists. split; reflexivity. }
  destruct Hfirst as (first & Hf & Hft).
  cbn [bind] in Hf. rewrite Hf. cbn [bind].
  assert (Hparts : forall x,
            In x (filter truthy [VStr first; city; state; country]) ->
            exists shown, ToString x = Ok shown /\ shown <> EmptyString).
  { intros x Hx. apply filter_In in Hx as [Hx Htx]. apply truthy_text; [|exact Htx].
    cbn in Hx. destruct Hx as [<-|[<-|[<-|[<-|[]]]]]; eauto. }
  assert (Htexts : exists texts,
            mapM ToString (filter truthy [VStr first; city; state; country])
            = Ok texts
            /\ (forall x, In x texts -> x <> EmptyString)
            /\ (texts = [] <->
                filter truthy [VStr first; city; state; country] = [])).
  { revert Hparts.
    generalize (filter truthy [VStr first; city; state; country]) as parts.
    induction parts as [|x parts IH]; intros Hparts.
    - exists []. cbn. repeat split; tauto.
    - destruct (Hparts x (or_introl eq_refl)) as (shown & Hx & Hne).
      destruct IH as (texts & Hm & Hall & _).
      { intros y Hy. apply Hparts. now right. }
      exists (shown :: texts). cbn [mapM]. rewrite Hx, Hm. cbn [bind].
      split; [reflexivity|]. split.
      + intros y [<-|Hy]; [exact Hne | now apply Hall].
      + split; discriminate. }
  destruct Htexts as (texts & -> & Hne & Hnil). cbn [bind].
  eexists. split; [reflexivity|].
  rewrite (join_empty_iff ", " texts Hne), Hnil.
  cbn [filter]. rewrite Hft.
  destruct (truthy street), (truthy city), (truthy state), (truthy country);
    cbn; split; intros H; try discriminate; try tauto;
    destruct H as (? & ? & ? & ?); discriminate.
Qed.

Lemma address_is_empty_only_without_parts_witness :
  exists address,
    @Geo.buildAddress test_engine
      (VObj [("addr:housenumber", VStr "7"); ("name", VStr "Museum")])
    = Ok address
    /\ address = EmptyString.
Proof.
  destruct (address_is_empty_only_without_parts test_engine
              [("addr:housenumber", VStr "7"); ("name", VStr "Museum")] eq_refl)
    as (address & Ha & Hiff).
  exists address. split; [exact Ha|]. apply Hiff. repeat split.
Defined.

(** ** Lab 3: how a search ends *)

Section GeoEnd.
Context {E : Engine} {L : Leaflet}.
Import Geo GeoSearch.

Lemma place_entry_name (pl : place) (item : entry) :
  place_entry pl = Ok item ->
  textContent (place_name pl) = Ok (entry_name item).
Proof.
  unfold place_entry. intros Hp.
  destruct (textContent (place_name pl)) as [name|e]; cbn [bind] in Hp;
    [|discriminate].
  destruct (toFixed5 (place_lat pl)); cbn [bind] in Hp; [|discriminate].
  destruct (toFixed5 (place_lon pl)); cbn [bind] in Hp; [|discriminate].
  destruct (get (place_tags pl) "wikipedia"); cbn [bind] in Hp; [|discriminate].
  destruct (get (place_tags pl) "wikidata"); cbn [bind] in Hp; [|discriminate].
  destruct (mapM ToString _); cbn [bind] in Hp; [|discriminate].
  now injection Hp as <-.
Qed.

Lemma append_entries_names (places : list place) (done items : list entry) :
  append_entries places done = (items, None) ->
  exists new,
    items = done ++ new
    /\ Forall2 (fun item pl => textContent (place_name pl) = Ok (entry_name item))
         new places.
Proof.
  revert done. induction places as [|pl places IH]; intros done H;
    cbn [append_entries] in H.
  - injection H as <-. exists []. split; [now rewrite app_nil_r | constructor].
  - destruct (place_entry pl) as [item|e] eqn:Hp; [|discriminate].
    destruct (IH _ H) as (new & -> & Hnew).
    exists (item :: new). split; [now rewrite <- app_assoc|].
    constructor; [now apply place_entry_name | exact Hnew].
Qed.

Lemma add_markers_length (places : list place) (done marks : list layer) :
  add_markers places done = (marks, None) ->
  List.length marks = List.length done + List.length places.
Proof.
  revert done. induction places as [|pl places IH]; intros done H;
    cbn [add_markers] in H.
  - injection H as <-. cbn. lia.
  - destruct (marker_error (place_lat pl) (place_lon pl)); [discriminate|].
    destruct (popup pl); [|discriminate].
    rewrite (IH _ H), length_app. cbn. lia.
Qed.

Lemma place_entry_total (pl : place) (t : list (string * value)) :
  printable (place_name pl) = true ->
  is_number (place_lat pl) = true -> is_number (place_lon pl) = true ->
  place_tags pl = VObj t -> tags_ok (VObj t) = true ->
  exists item, place_entry pl = Ok item.
Proof.
  intros Hname Hlat Hlon Htags Hok. unfold place_entry, textContent.
  assert (Hn : exists name,
            (if nullish (place_name pl) then Ok EmptyString
             else ToString (place_name pl)) = Ok name).
  { destruct (nullish (place_name pl)); [eauto|]. now apply printable_ToString. }
  destruct Hn as [name ->]. cbn [bind].
  destruct (place_lat pl); try discriminate.
  destruct (place_lon pl); try discriminate. cbn [toFixed5 bind].
  rewrite Htags. cbn [get bind].
  destruct (mapM_ToString_printable
              (filter truthy [VStr (place_address pl);
                              default VUndef (assoc "wikipedia" t);
                              default VUndef (assoc "wikidata" t)]))
    as [texts ->].
  { apply forallb_forall. intros x Hx. apply filter_In in Hx as [Hx _].
    destruct Hx as [<-|[<-|[<-|[]]]]; [reflexivity| |];
      now apply tags_ok_printable. }
  cbn [bind]. eauto.
Qed.

Lemma append_entries_total (places : list place) (done : list entry) :
  Forall (fun pl => printable (place_name pl) = true
                    /\ is_number (place_lat pl) = true
                    /\ is_number (place_lon pl) = true
                    /\ exists t, place_tags pl = VObj t
                                 /\ tags_ok (VObj t) = true) places ->
  exists items, append_entries places done = (items, None).
Proof.
  intros H. revert done.
  induction H as [|pl places (H1 & H2 & H3 & t & H4 & H5) _ IH];
    intros done; cbn [append_entries]; [eauto|].
  destruct (place_entry_total pl t H1 H2 H3 H4 H5) as [item ->]. apply IH.
Qed.

Lemma add_markers_total (places : list place) (done : list layer) :
  Forall (fun pl => marker_error (place_lat pl) (place_lon pl) = None
                    /\ printable (place_name pl) = true) places ->
  exists marks, add_markers places done = (marks, None).
Proof.
  intros H. revert done. induction H as [|pl places (H1 & H2) _ IH];
    intros done; cbn [add_markers]; [eauto|].
  rewrite H1. unfold popup.
  destruct (printable_ToString _ H2) as [name ->]. cbn [bind]. apply IH.
Qed.
End GeoEnd.

Section GeoOutcome.
Context {E : Engine} {L : Leaflet}.
Import Geo GeoSearch.

(** The screen after an answer that was read, listed and marked. *)
Lemma on_places_rendered (r : fetched) (s : screen) (w : waiting)
    (rest : list waiting) (places : list place) (items : list entry)
    (marks : list layer) :
  overpass s = w :: rest ->
  fetchPlaces r = Ok places ->
  renderPlaces places = (items, None) ->
  updateMarkers (w_lat w) (w_lon w) places = (marks, None) ->
  on_places r s
  = finally
      (let shown := set_layers marks (set_placesList items (set_overpass rest s)) in
       if Nat.eqb (List.length places) 0
       then set_status MSG_NOTHING "warning" shown
       else set_status
              (MSG_FOUND +:+ nat_to_string (List.length places) +:+ ".")
              "success" shown).
Proof.
  intros Ho Hf Hr Hu. unfold on_places. now rewrite Ho, Hf, Hr, Hu.
Qed.

Lemma rendered_counts (w : waiting) (places : list place) (items : list entry)
    (marks : list layer) :
  renderPlaces places = (items, None) ->
  updateMarkers (w_lat w) (w_lon w) places = (marks, None) ->
  List.length marks = S (List.length places)
  /\ (places = [] -> items = [Notice ITEM_EMPTY])
  /\ (places <> [] ->
      Forall2 (fun item pl => textContent (place_name pl) = Ok (entry_name item))
        items places).
Proof.
  intros Hr Hu. split; [|split].
  - unfold updateMarkers in Hu.
    destruct (circleMarker_error (w_lat w) (w_lon w)); [discriminate|].
    now apply add_markers_length in Hu.
  - intros ->. cbn in Hr. now injection Hr as <-.
  - intros Hne. unfold renderPlaces in Hr.
    destruct places as [|pl places]; [congruence|]. cbn [List.length Nat.eqb] in Hr.
    apply append_entries_names in Hr as (new & -> & Hnew). exact Hnew.
Qed.

(** What the listener leaves of an answer of the geocoder: nothing more
    waiting, or one more call around the numbers of its [lat] and [lon]. *)
Lemma on_geocoded_cases (r : fetched) (s : screen) (sr : search)
    (rest : list search) :
  searches (form s) = sr :: rest ->
  let s' := on_geocoded r s in
  searches (form s') = rest
  /\ (submitDisabled (form s') = false
      /\ statusTone (form s') = "error"
      /\ overpass s' = overpass s
      /\ mapView s' = mapView s
      \/ exists found latValue lonValue lat lon,
           geocode r = Ok found
           /\ truthy found = true
           /\ get found "lat" = Ok latValue /\ ToNumber latValue = Ok lat
           /\ get found "lon" = Ok lonValue /\ ToNumber lonValue = Ok lon
           /\ setView_error lat lon = None
           /\ overpass s'
              = overpass s
                ++ [mkWaiting (GET (endpoint lat lon (search_radius sr))) lat lon]
           /\ mapView s' = (lat, lon, 14%Z)
           /\ statusText (form s') = MSG_SEARCHING
           /\ statusTone (form s') = "info"
           /\ submitDisabled (form s') = submitDisabled (form s)).
Proof.
  intros Hs. cbv zeta. unfold on_geocoded. rewrite Hs.
  destruct (geocode r) as [found|e] eqn:Hg;
    [|split; [reflexivity|]; left; repeat split].
  destruct (truthy found) eqn:Ht; cbn [negb];
    [|split; [reflexivity|]; left; repeat split].
  destruct (get found "lat") as [latValue|e] eqn:Hlat; cbn [bind];
    [|split; [reflexivity|]; left; repeat split].
  destruct (ToNumber latValue) as [lat|e] eqn:Hnlat; cbn [bind];
    [|split; [reflexivity|]; left; repeat split].
  destruct (get found "lon") as [lonValue|e] eqn:Hlon; cbn [bind];
    [|split; [reflexivity|]; left; repeat split].
  destruct (ToNumber lonValue) as [lon|e] eqn:Hnlon; cbn [bind];
    [|split; [reflexivity|]; left; repeat split].
  destruct (setView_error lat lon) eqn:Hv;
    [split; [reflexivity|]; left; repeat split|].
  split; [reflexivity|]. right.
  exists found, latValue, lonValue, lat, lon.
  split; [reflexivity|]. split; [exact Ht|].
  split; [exact Hlat|]. split; [exact Hnlat|].
  split; [exact Hlon|]. split; [exact Hnlon|].
  split; [exact Hv|]. repeat split.
Qed.
End GeoOutcome.

(** X20.  A search always ends, whatever the two services answer and whatever
    the map library does.  The geocoder's answer either ends it with an
    error on the status line and the button enabled, or leaves one more
    request to Overpass waiting under the message that the places are
    being looked for.  The answer of Overpass ends it with the button
    enabled and one of three statuses: the error; the warning that nothing
    was found, over the single notice in the list and the single marker of
    the centre; or the success message, whose number is the number of
    places, over a list with their names in their order and a marker for
    each besides the centre's. *)
Theorem a_search_always_ends
    (E : Engine) (L : Leaflet) (r : fetched) (s : GeoSearch.screen) :
  (Geo.searches (GeoSearch.form s) <> [] ->
   let s' := GeoSearch.on_geocoded r s in
   Geo.searches (GeoSearch.form s') = tl (Geo.searches (GeoSearch.form s))
   /\ (Geo.submitDisabled (GeoSearch.form s') = false
       /\ Geo.statusTone (GeoSearch.form s') = "error"
       /\ GeoSearch.overpass s' = GeoSearch.overpass s
       \/ exists w,
            GeoSearch.overpass s' = GeoSearch.overpass s ++ [w]
            /\ Geo.statusText (GeoSearch.form s') = GeoSearch.MSG_SEARCHING
            /\ Geo.statusTone (GeoSearch.form s') = "info"
            /\ Geo.submitDisabled (GeoSearch.form s')
               = Geo.submitDisabled (GeoSearch.form s)))
  /\ (GeoSearch.overpass s <> [] ->
      let s' := GeoSearch.on_places r s in
      Geo.submitDisabled (GeoSearch.form s') = false
      /\ GeoSearch.overpass s' = tl (GeoSearch.overpass s)
      /\ (Geo.statusTone (GeoSearch.form s') = "error"
          /\ Geo.statusText (GeoSearch.form s') = GeoSearch.MSG_FAILED
          \/ Geo.statusTone (GeoSearch.form s') = "warning"
             /\ Geo.statusText (GeoSearch.form s') = GeoSearch.MSG_NOTHING
             /\ GeoSearch.placesList s' = [GeoSearch.Notice GeoSearch.ITEM_EMPTY]
             /\ List.length (GeoSearch.layers s') = 1
          \/ exists places,
               GeoSearch.fetchPlaces r = Ok places
               /\ places <> []
               /\ Geo.statusTone (GeoSearch.form s') = "success"
               /\ Geo.statusText (GeoSearch.form s')
                  = GeoSearch.MSG_FOUND +:+ nat_to_string (List.length places)
                    +:+ "."
               /\ Forall2
                    (fun item pl =>
                       GeoSearch.textContent (Geo.place_name pl)
                       = Ok (GeoSearch.entry_name item))
                    (GeoSearch.placesList s') places
               /\ List.length (GeoSearch.layers s') = S (List.length places))).
Proof.
  split.
  - intros Hne. cbv zeta.
    destruct (Geo.searches (GeoSearch.form s)) as [|sr rest] eqn:Hs; [congruence|].
    cbn [tl].
    destruct (on_geocoded_cases r s sr rest Hs) as [Hrest Hcases].
    split; [exact Hrest|].
    destruct Hcases as [(H1 & H2 & H3 & _)|Hcall].
    + left. repeat split; assumption.
    + destruct Hcall as (found & latValue & lonValue & lat & lon & _ & _ & _ & _
                         & _ & _ & _ & Ho & _ & Htext & Htone & Hbutton).
      right. eexists. split; [exact Ho|]. repeat split; assumption.
  - intros Hne. cbv zeta.
    destruct (GeoSearch.overpass s) as [|w rest] eqn:Ho; [congruence|].
    cbn [tl].
    assert (Herr : forall q,
              GeoSearch.overpass q = rest ->
              let s' := GeoSearch.finally (GeoSearch.failed q) in
              Geo.submitDisabled (GeoSearch.form s') = false
              /\ GeoSearch.overpass s' = rest
              /\ (Geo.statusTone (GeoSearch.form s') = "error"
                  /\ Geo.statusText (GeoSearch.form s') = GeoSearch.MSG_FAILED
                  \/ Geo.statusTone (GeoSearch.form s') = "warning"
                     /\ Geo.statusText (GeoSearch.form s') = GeoSearch.MSG_NOTHING
                     /\ GeoSearch.placesList s'
                        = [GeoSearch.Notice GeoSearch.ITEM_EMPTY]
                     /\ List.length (GeoSearch.layers s') = 1
                  \/ exists places,
                       GeoSearch.fetchPlaces r = Ok places
                       /\ places <> []
                       /\ Geo.statusTone (GeoSearch.form s') = "success"
                       /\ Geo.statusText (GeoSearch.form s')
                          = GeoSearch.MSG_FOUND
                            +:+ nat_to_string (List.length places) +:+ "."
                       /\ Forall2
                            (fun item pl =>
                               GeoSearch.textContent (Geo.place_name pl)
                               = Ok (GeoSearch.entry_name item))
                            (GeoSearch.placesList s') places
                       /\ List.length (GeoSearch.layers s')
                          = S (List.length places))).
    { intros q Hq. cbv zeta. cbn. rewrite Hq. split; [reflexivity|].
      split; [reflexivity|]. left. split; reflexivity. }
    destruct (GeoSearch.fetchPlaces r) as [places|e] eqn:Hf.
    2:{ unfold GeoSearch.on_places. rewrite Ho, Hf. now apply Herr. }
    destruct (GeoSearch.renderPlaces places) as [items [e|]] eqn:Hr.
    { unfold GeoSearch.on_places. rewrite Ho, Hf, Hr. now apply Herr. }
    destruct (GeoSearch.updateMarkers (GeoSearch.w_lat w) (GeoSearch.w_lon w) places)
      as [marks [e|]] eqn:Hu.
    { unfold GeoSearch.on_places. rewrite Ho, Hf, Hr, Hu. now apply Herr. }
    rewrite (on_places_rendered r s w rest places items marks Ho Hf Hr Hu).
    destruct (rendered_counts w places items marks Hr Hu) as (Hm & Hnil & Hnames).
    cbv zeta. destruct places as [|pl places].
    + cbn. split; [reflexivity|]. split; [reflexivity|]. right. left.
      split; [reflexivity|]. split; [reflexivity|].
      split; [now apply Hnil | exact Hm].
    + cbn [List.length Nat.eqb]. cbn. split; [reflexivity|]. split; [reflexivity|].
      right. right. exists (pl :: places). split; [reflexivity|].
      split; [discriminate|]. split; [reflexivity|]. split; [reflexivity|].
      split; [now apply Hnames | exact Hm].
Qed.

Lemma a_search_always_ends_witness :
  exists w,
    GeoSearch.overpass MoreSamples.geo_waiting = [w]
    /\ Geo.statusText (GeoSearch.form MoreSamples.geo_waiting)
       = GeoSearch.MSG_SEARCHING
    /\ Geo.submitDisabled
         (GeoSearch.form
            (@GeoSearch.on_places test_engine GeoSearch.accepting_leaflet
               (Responded true 200 (Ok Samples.overpass_payload))
               MoreSamples.geo_waiting)) = false.
Proof.
  destruct (a_search_always_ends test_engine GeoSearch.accepting_leaflet
              (Responded true 200 (Ok MoreSamples.nominatim_payload))
              MoreSamples.geo_searching) as [Hgeo _].
  destruct (Hgeo ltac:(discriminate)) as [_ [(_ & Htone & _)|(w & Hw & Htext & _)]].
  { vm_compute in Htone. discriminate. }
  exists w. split; [exact Hw|]. split; [exact Htext|].
  destruct (a_search_always_ends test_engine GeoSearch.accepting_leaflet
              (Responded true 200 (Ok Samples.overpass_payload))
              MoreSamples.geo_waiting) as [_ Hplaces].
  destruct Hplaces as (Hbutton & _).
  { fold MoreSamples.geo_waiting in Hw. rewrite Hw. destruct (GeoSearch.overpass MoreSamples.geo_searching); discriminate. }
  exact Hbutton.
Defined.

(** X21.  An answer of Overpass of the expected shape is always shown, when the
    map library takes the centre of this search and the coordinates of the
    places of this answer: the search ends with the warning when no place
    is left and with the success message otherwise, never with the
    error. *)
Theorem a_shaped_answer_is_shown
    (E : Engine) (L : Leaflet) (data : value) (status : Z)
    (s : GeoSearch.screen) (w : GeoSearch.waiting)
    (rest : list GeoSearch.waiting) :
  Geo.geo_payload data = true ->
  GeoSearch.overpass s = w :: rest ->
  circleMarker_error (GeoSearch.w_lat w) (GeoSearch.w_lon w) = None ->
  (forall places pl,
     Geo.normalizePlaces data = Ok places -> In pl places ->
     marker_error (Geo.place_lat pl) (Geo.place_lon pl) = None) ->
  let s' := GeoSearch.on_places (Responded true status (Ok data)) s in
  exists places,
    Geo.normalizePlaces data = Ok places
    /\ Geo.statusTone (GeoSearch.form s')
       = (if Nat.eqb (List.length places) 0 then "warning" else "success")
    /\ Geo.statusText (GeoSearch.form s')
       = (if Nat.eqb (List.length places) 0 then GeoSearch.MSG_NOTHING
          else GeoSearch.MSG_FOUND +:+ nat_to_string (List.length places) +:+ ".")
    /\ List.length (GeoSearch.layers s') = S (List.length places)
    /\ (places <> [] ->
        map GeoSearch.entry_name (GeoSearch.placesList s')
        = map GeoSearch.name_text places).
Proof.
  intros Hshape Ho Hcircle Hmarker. cbv zeta.
  destruct (normalizePlaces_shaped data Hshape) as (cands & places & _ & Hn & _ & Hall).
  exists places. split; [exact Hn|].
  assert (Hf : GeoSearch.fetchPlaces (Responded true status (Ok data)) = Ok places)
    by exact Hn.
  assert (Hname : forall pl, In pl places -> exists n, Geo.place_name pl = VStr n).
  { intros pl Hpl. rewrite Forall_forall in Hall.
    destruct (Hall pl Hpl) as [((n & Hname & _) & _) _]. eauto. }
  assert (Hr : exists items, GeoSearch.renderPlaces places = (items, None)).
  { unfold GeoSearch.renderPlaces. destruct (Nat.eqb (List.length places) 0); [eauto|].
    apply append_entries_total. apply Forall_forall. intros pl Hpl.
    destruct (Hname pl Hpl) as [n Hpn].
    rewrite Forall_forall in Hall.
    destruct (Hall pl Hpl) as [(_ & _ & H1 & H2) [(t & Ht & _) Hok]].
    split; [now rewrite Hpn|]. split; [exact H1|]. split; [exact H2|].
    exists t. split; [exact Ht | now rewrite <- Ht]. }
  destruct Hr as (items & Hr).
  assert (Hu : exists marks,
            GeoSearch.updateMarkers (GeoSearch.w_lat w) (GeoSearch.w_lon w) places
            = (marks, None)).
  { unfold GeoSearch.updateMarkers. rewrite Hcircle.
    apply add_markers_total. apply Forall_forall. intros pl Hpl.
    split; [now apply (Hmarker places)|].
    destruct (Hname pl Hpl) as [n ->]. reflexivity. }
  destruct Hu as (marks & Hu).
  rewrite (on_places_rendered _ s w rest places items marks Ho Hf Hr Hu).
  destruct (rendered_counts w places items marks Hr Hu) as (Hm & _ & Hnames).
  cbv zeta. split; [destruct (Nat.eqb (List.length places) 0); reflexivity|].
  split; [destruct (Nat.eqb (List.length places) 0); reflexivity|].
  split; [destruct (Nat.eqb (List.length places) 0); exact Hm|].
  intros Hp.
  assert (Hi : GeoSearch.placesList
                 (GeoSearch.finally
                    (if Nat.eqb (List.length places) 0
                     then GeoSearch.set_status GeoSearch.MSG_NOTHING "warning"
                            (GeoSearch.set_layers marks
                               (GeoSearch.set_placesList items
                                  (GeoSearch.set_overpass rest s)))
                     else GeoSearch.set_status
                            (GeoSearch.MSG_FOUND
                             +:+ nat_to_string (List.length places) +:+ ".")
                            "success"
                            (GeoSearch.set_layers marks
                               (GeoSearch.set_placesList items
                                  (GeoSearch.set_overpass rest s))))) = items)
    by (destruct (Nat.eqb (List.length places) 0); reflexivity).
  rewrite Hi. specialize (Hnames Hp). clear - Hnames Hname.
  induction Hnames as [|item pl items places Hitem _ IH]; [reflexivity|].
  cbn [map]. f_equal.
  - destruct (Hname pl (or_introl eq_refl)) as [n Hpn].
    unfold GeoSearch.textContent in Hitem. unfold GeoSearch.name_text.
    rewrite Hpn in *. cbn in Hitem. cbn. congruence.
  - apply IH. intros x Hx. apply Hname. now right.
Qed.

Lemma a_shaped_answer_is_shown_witness :
  exists places,
    @Geo.normalizePlaces test_engine Samples.overpass_payload = Ok places
    /\ Geo.statusTone
         (GeoSearch.form
            (@GeoSearch.on_places test_engine GeoSearch.accepting_leaflet
               (Responded true 200 (Ok Samples.overpass_payload))
               MoreSamples.geo_waiting))
       = (if Nat.eqb (List.length places) 0 then "warning" else "success")
    /\ List.length places = 3.
Proof.
  destruct (a_shaped_answer_is_shown test_engine GeoSearch.accepting_leaflet
              Samples.overpass_payload 200 MoreSamples.geo_waiting
              (GeoSearch.mkWaiting
                 (GET (@GeoSearch.endpoint test_engine
                         (@StringToNumber test_engine "59.9")
                         (@StringToNumber test_engine "10.7")
                         (num_of_Z 1500)))
                 (@StringToNumber test_engine "59.9")
                 (@StringToNumber test_engine "10.7")) [])
    as (places & Hn & Htone & _).
  - reflexivity.
  - vm_compute. reflexivity.
  - reflexivity.
  - reflexivity.
  - exists places. split; [exact Hn|]. split; [exact Htone|].
    vm_compute in Hn. injection Hn as <-. reflexivity.
Defined.

(** X22.  The radius a search asks Overpass for is never zero and never NaN.
    On a screen without a waiting search, a submission followed by the
    answer of the geocoder either calls Overpass not at all, or calls it
    once, around the centre the geocoder gave (the numbers of the [lat]
    and the [lon] of the entry it found, to which the map is moved), with
    the number of the radius field, or with 2000 when the field holds no
    number or zero. *)
Theorem search_radius_is_never_zero
    (E : Engine) (L : Leaflet) (queryValue radiusValue : string)
    (r : fetched) (s : GeoSearch.screen) :
  Geo.searches (GeoSearch.form s) = [] ->
  let submitted :=
    GeoSearch.set_form
      (Geo.onSubmit queryValue radiusValue (GeoSearch.form s)) s in
  let answered := GeoSearch.on_geocoded r submitted in
  GeoSearch.overpass answered = GeoSearch.overpass s
  \/ exists found latValue lonValue lat lon radius,
       GeoSearch.geocode r = Ok found
       /\ get found "lat" = Ok latValue /\ ToNumber latValue = Ok lat
       /\ get found "lon" = Ok lonValue /\ ToNumber lonValue = Ok lon
       /\ GeoSearch.overpass answered
          = GeoSearch.overpass s
            ++ [GeoSearch.mkWaiting (GET (GeoSearch.endpoint lat lon radius))
                  lat lon]
       /\ GeoSearch.mapView answered = (lat, lon, 14%Z)
       /\ num_truthy radius = true
       /\ radius = (if num_truthy (StringToNumber radiusValue)
                    then StringToNumber radiusValue else num_of_Z 2000).
Proof.
  intros Hs. cbv zeta. unfold Geo.onSubmit.
  destruct (str_is_empty (trim queryValue)).
  { left. unfold GeoSearch.on_geocoded. cbn. now rewrite Hs. }
  set (radius := if num_truthy (StringToNumber radiusValue)
                 then StringToNumber radiusValue else num_of_Z 2000).
  set (submitted := GeoSearch.set_form _ s).
  assert (Hsub : Geo.searches (GeoSearch.form submitted)
                 = [Geo.mkSearch (Geo.geocode_request (trim queryValue)) radius]).
  { cbn. now rewrite Hs. }
  destruct (on_geocoded_cases r submitted _ _ Hsub) as [_ Hcases].
  destruct Hcases as [(_ & _ & Ho & _)|Hcall].
  - left. exact Ho.
  - destruct Hcall as (found & latValue & lonValue & lat & lon & Hg & _ & Hlat
                       & Hnlat & Hlon & Hnlon & _ & Ho & Hview & _).
    right. exists found, latValue, lonValue, lat, lon, radius.
    split; [exact Hg|]. split; [exact Hlat|]. split; [exact Hnlat|].
    split; [exact Hlon|]. split; [exact Hnlon|].
    split; [exact Ho|]. split; [exact Hview|].
    split; [|reflexivity].
    unfold radius. destruct (num_truthy (StringToNumber radiusValue)) eqn:Hr;
      [exact Hr | reflexivity].
Qed.

Lemma search_radius_is_never_zero_witness :
  GeoSearch.overpass
    (@GeoSearch.on_geocoded test_engine GeoSearch.accepting_leaflet
       (Responded true 200 (Ok MoreSamples.nominatim_payload))
       (GeoSearch.set_form
          (@Geo.onSubmit test_engine "Oslo" "0"
             (GeoSearch.form MoreSamples.geo_idle))
          MoreSamples.geo_idle))
  = [GeoSearch.mkWaiting
       (GET (@GeoSearch.endpoint test_engine
               (@StringToNumber test_engine "59.9")
               (@StringToNumber test_engine "10.7") (num_of_Z 2000)))
       (@StringToNumber test_engine "59.9")
       (@StringToNumber test_engine "10.7")].
Proof.
  destruct (search_radius_is_never_zero test_engine GeoSearch.accepting_leaflet
              "Oslo" "0" (Responded true 200 (Ok MoreSamples.nominatim_payload))
              MoreSamples.geo_idle)
    as [H|(found & latValue & lonValue & lat & lon & radius & Hg & Hlat & Hnlat
           & Hlon & Hnlon & H & _ & _ & Hr)]; [reflexivity | | ].
  - vm_compute in H. discriminate.
  - vm_compute in Hg. injection Hg as <-.
    vm_compute in Hlat. injection Hlat as <-.
    vm_compute in Hlon. injection Hlon as <-.
    cbn in Hnlat, Hnlon. injection Hnlat as <-. injection Hnlon as <-.
    subst radius. exact H.
Defined.

(** ** Lab 4: how an analysis ends *)

Section AnalysisEnd.
Import TextLab TextFlow.
Variable panel : Type.
Variable renderSentiment : value -> panel -> panel * option error.
Variable renderStats : string -> panel -> panel * option error.
Variable fetchSentiment : fetched -> result value.
Variable fetchKeywords : fetched -> result value.
Variable renderKeywords : value -> page -> result page.

(** The keyword table is all that [renderKeywords] writes. *)
Hypothesis renderKeywords_frame :
  forall data p p', renderKeywords data p = Ok p' ->
    exists html chart, p' = set_keywords html chart p.

Lemma toggle_report (e : error) (q : page) :
  analyzeDisabled (toggleLoading false (report e q)) = false
  /\ sent (toggleLoading false (report e q)) = sent q
  /\ messageError (toggleLoading false (report e q)) = true
  /\ messageText (toggleLoading false (report e q)) <> EmptyString
  /\ keywordsTableBody (toggleLoading false (report e q)) = keywordsTableBody q
  /\ keywordsChart (toggleLoading false (report e q)) = keywordsChart q.
Proof.
  unfold report. cbn. repeat split.
  destruct (str_is_empty (err_message e)) eqn:He; [discriminate|].
  now apply str_is_empty_false.
Qed.

Lemma on_replies_ends (first : bool) (rs rk : fetched) (text : string)
    (p : page) (d : panel) :
  let done :=
    on_replies panel renderSentiment renderStats fetchSentiment fetchKeywords
      renderKeywords first rs rk text p d in
  analyzeDisabled (fst done) = false
  /\ sent (fst done) = sent p
  /\ (messageError (fst done) = true /\ messageText (fst done) <> EmptyString
      \/ messageError (fst done) = false
         /\ messageText (fst done) = MSG_DONE
         /\ exists sentimentData keywordData shown,
              fetchSentiment rs = Ok sentimentData
              /\ fetchKeywords rk = Ok keywordData
              /\ renderKeywords keywordData p = Ok shown
              /\ keywordsTableBody (fst done) = keywordsTableBody shown
              /\ keywordsChart (fst done) = keywordsChart shown)
  /\ ((exists e, fetchSentiment rs = Throw e)
      \/ (exists e, fetchKeywords rk = Throw e) ->
      messageError (fst done) = true
      /\ snd done = d
      /\ keywordsTableBody (fst done) = keywordsTableBody p
      /\ keywordsChart (fst done) = keywordsChart p).
Proof.
  cbv zeta. unfold on_replies.
  destruct (fetchSentiment rs) as [sd|e1] eqn:Hs;
    destruct (fetchKeywords rk) as [kd|e2] eqn:Hk; cbn [Promise_all].
  - destruct (renderSentiment sd d) as [d1 [e|]].
    { cbn [fst snd]. destruct (toggle_report e p) as (H1 & H2 & H3 & H4 & _).
      split; [exact H1|]. split; [exact H2|]. split; [left; auto|].
      intros [[x Hx]|[x Hx]]; discriminate. }
    destruct (renderKeywords kd p) as [shown|e] eqn:Hr.
    2:{ cbn [fst snd]. destruct (toggle_report e p) as (H1 & H2 & H3 & H4 & _).
        split; [exact H1|]. split; [exact H2|]. split; [left; auto|].
        intros [[x Hx]|[x Hx]]; discriminate. }
    destruct (renderKeywords_frame kd p shown Hr) as (html & chart & ->).
    destruct (renderStats text d1) as [d2 [e|]].
    { cbn [fst snd].
      destruct (toggle_report e (set_keywords html chart p))
        as (H1 & H2 & H3 & H4 & _).
      split; [exact H1|]. split; [exact H2|]. split; [left; auto|].
      intros [[x Hx]|[x Hx]]; discriminate. }
    cbn [fst snd]. split; [reflexivity|]. split; [reflexivity|]. split.
    + right. split; [reflexivity|]. split; [reflexivity|].
      exists sd, kd, (set_keywords html chart p).
      split; [reflexivity|]. split; [reflexivity|]. split; [exact Hr|].
      split; reflexivity.
    + intros [[x Hx]|[x Hx]]; discriminate.
  - cbn [fst snd]. destruct (toggle_report e2 p) as (H1 & H2 & H3 & H4 & H5 & H6).
    split; [exact H1|]. split; [exact H2|]. split; [left; auto|]. auto.
  - cbn [fst snd]. destruct (toggle_report e1 p) as (H1 & H2 & H3 & H4 & H5 & H6).
    split; [exact H1|]. split; [exact H2|]. split; [left; auto|]. auto.
  - cbn [fst snd].
    destruct (toggle_report (if first then e1 else e2) p)
      as (H1 & H2 & H3 & H4 & H5 & H6).
    split; [exact H1|]. split; [exact H2|]. split; [left; auto|]. auto.
Qed.
End AnalysisEnd.

Lemma meaningcloud_renderKeywords_frame (E : Engine) (data : value)
    (p p' : TextLab.page) :
  MeaningCloud.renderKeywords data p = Ok p' ->
  exists html chart, p' = TextLab.set_keywords html chart p.
Proof.
  unfold MeaningCloud.renderKeywords. intros H.
  destruct (MeaningCloud.extractKeywords data) as [ks|e]; cbn [bind] in H;
    [|discriminate].
  destruct (Nat.eqb (List.length ks) 0); [injection H as <-; eauto|].
  destruct (mapM _ ks); cbn [bind] in H; [|discriminate].
  injection H as <-. eauto.
Qed.

Lemma twinword_renderKeywords_frame (E : Engine) (data : value)
    (p p' : TextLab.page) :
  Twinword.renderKeywords data p = Ok p' ->
  exists html chart, p' = TextLab.set_keywords html chart p.
Proof.
  unfold Twinword.renderKeywords. intros H.
  destruct (Twinword.extractKeywords data) as [ks|e]; cbn [bind] in H;
    [|discriminate].
  destruct (Nat.eqb (List.length ks) 0); [injection H as <-; eauto|].
  destruct (mapM _ ks); cbn [bind] in H; [|discriminate].
  injection H as <-. eauto.
Qed.

(** X23.  An analysis always ends, in both variants, whatever the two services
    answer, in whichever order, and whatever writing the sentiment and the
    statistics does: the button is enabled again, nothing more is sent, and
    the message is either an error that is not empty or the success
    message, the latter only when both fetches returned and the keywords of
    the second were written to the table.  When one of the fetches fails,
    nothing of the other's answer is shown. *)
Theorem an_analysis_always_ends
    (E : Engine) (panel : Type)
    (renderSentiment : value -> panel -> panel * option error)
    (renderStats : string -> panel -> panel * option error)
    (first : bool) (rs rk : fetched) (text : string)
    (p : TextLab.page) (d : panel) :
  (let done :=
     TextFlow.meaningcloud panel renderSentiment renderStats first rs rk text p d in
   TextLab.analyzeDisabled (fst done) = false
   /\ TextLab.sent (fst done) = TextLab.sent p
   /\ (TextLab.messageError (fst done) = true
       /\ TextLab.messageText (fst done) <> EmptyString
       \/ TextLab.messageError (fst done) = false
          /\ TextLab.messageText (fst done) = TextFlow.MSG_DONE
          /\ exists sentimentData keywordData shown,
               MeaningCloudApi.fetchSentiment rs = Ok sentimentData
               /\ MeaningCloudApi.fetchTopics rk = Ok keywordData
               /\ MeaningCloud.renderKeywords keywordData p = Ok shown
               /\ TextLab.keywordsTableBody (fst done) = TextLab.keywordsTableBody shown
               /\ TextLab.keywordsChart (fst done) = TextLab.keywordsChart shown)
   /\ ((exists e, MeaningCloudApi.fetchSentiment rs = Throw e)
       \/ (exists e, MeaningCloudApi.fetchTopics rk = Throw e) ->
       TextLab.messageError (fst done) = true
       /\ snd done = d
       /\ TextLab.keywordsTableBody (fst done) = TextLab.keywordsTableBody p
       /\ TextLab.keywordsChart (fst done) = TextLab.keywordsChart p))
  /\ (let done :=
        TextFlow.twinword panel renderSentiment renderStats first rs rk text p d in
      TextLab.analyzeDisabled (fst done) = false
      /\ TextLab.sent (fst done) = TextLab.sent p
      /\ (TextLab.messageError (fst done) = true
          /\ TextLab.messageText (fst done) <> EmptyString
          \/ TextLab.messageError (fst done) = false
             /\ TextLab.messageText (fst done) = TextFlow.MSG_DONE
             /\ exists sentimentData keywordData shown,
                  TwinwordApi.fetchSentiment rs = Ok sentimentData
                  /\ TwinwordApi.fetchKeywords rk = Ok keywordData
                  /\ Twinword.renderKeywords keywordData p = Ok shown
                  /\ TextLab.keywordsTableBody (fst done)
                     = TextLab.keywordsTableBody shown
                  /\ TextLab.keywordsChart (fst done) = TextLab.keywordsChart shown)
      /\ ((exists e, TwinwordApi.fetchSentiment rs = Throw e)
          \/ (exists e, TwinwordApi.fetchKeywords rk = Throw e) ->
          TextLab.messageError (fst done) = true
          /\ snd done = d
          /\ TextLab.keywordsTableBody (fst done) = TextLab.keywordsTableBody p
          /\ TextLab.keywordsChart (fst done) = TextLab.keywordsChart p)).
Proof.
  split.
  - apply (on_replies_ends panel renderSentiment renderStats
             MeaningCloudApi.fetchSentiment MeaningCloudApi.fetchTopics
             MeaningCloud.renderKeywords).
    intros data q q'. apply meaningcloud_renderKeywords_frame.
  - apply (on_replies_ends panel renderSentiment renderStats
             TwinwordApi.fetchSentiment TwinwordApi.fetchKeywords
             Twinword.renderKeywords).
    intros data q q'. apply twinword_renderKeywords_frame.
Qed.

Lemma an_analysis_always_ends_witness :
  TextLab.messageError
    (fst (@TextFlow.twinword test_engine unit
            (fun _ d => (d, None)) (fun _ d => (d, None)) true
            (Rejected (TypeError "Failed to fetch")) MoreSamples.twinword_reply
            "to the moon" Samples.text_page tt))
  = true.
Proof.
  pose proof (an_analysis_always_ends test_engine unit
                (fun _ d => (d, None)) (fun _ d => (d, None)) true
                (Rejected (TypeError "Failed to fetch")) MoreSamples.twinword_reply
                "to the moon" Samples.text_page tt) as H.
  cbv zeta in H. destruct H as [_ (_ & _ & _ & H)].
  apply H. left. eexists. reflexivity.
Defined.
